(** * The personal assistant's address book: a shallow embedding

    The development follows the two variants of the program: the
    name-keyed book of [project_end.py] and the identifier-keyed book of
    [Personal_Assistant.py].  Python values are modelled as follows.

    - [str] is [string]; a character is a code point below 256, the range
      on which [str.lower] and the class [\d] are written out below.
      Validation and search on text of any script are in [Unicode],
      where a [str] is the list of its code points and the tables of
      [\d] and [str.lower] are parameters.
    - [int] is [Z].
    - A [Field] object is its identity together with its [value]
      attribute; the class defines no [__eq__], so [==] on fields is
      identity.
    - An exception is a [Raise] result; a method of a mutable object is a
      function from the object to a result and the object afterwards.
      Where it matters that one [Record] object can be filed under
      several keys, the book holds references into a store ([Shared]).
    - [dict] is an insertion-ordered association list, [set] is [gset].
    - [datetime.now()] is an argument of the functions that read it. *)

From Stdlib Require Import ZArith Lia String Ascii List Bool Sorted.
From stdpp Require Import base functions gmap sets list strings.

Local Open Scope string_scope.
Local Open Scope list_scope.
Local Open Scope Z_scope.

(** ** Python results *)

Inductive exn : Type :=
| ValueError
| TypeError.

Inductive result (A : Type) : Type :=
| Ok (a : A)
| Raise (e : exn).

Arguments Ok {A} a.
Arguments Raise {A} e.

#[global] Instance result_ret : MRet result := fun A a => Ok a.

#[global] Instance result_bind : MBind result := fun A B k m =>
  match m with
  | Ok a => k a
  | Raise e => Raise e
  end.

(** ** Strings *)

Module PyStr.

Definition LF : ascii := "010"%char.

(** [str.lower] on one code point below 256: the capital letters
    A-Z, and the Latin-1 capitals 192-214 and 216-222, move up by 32. *)
Definition lower_char (c : ascii) : ascii :=
  let n := nat_of_ascii c in
  if ((65 <=? n) && (n <=? 90))%nat
     || ((192 <=? n) && (n <=? 214))%nat
     || ((216 <=? n) && (n <=? 222))%nat
  then ascii_of_nat (n + 32)
  else c.

Fixpoint lower (s : string) : string :=
  match s with
  | EmptyString => EmptyString
  | String c s' => String (lower_char c) (lower s')
  end.

(** [b.startswith(a)] *)
Fixpoint startswith (a b : string) : bool :=
  match a, b with
  | EmptyString, _ => true
  | String _ _, EmptyString => false
  | String x a', String y b' => Ascii.eqb x y && startswith a' b'
  end.

(** [a in b] on strings: [a] occurs in [b] at some offset. *)
Fixpoint str_in (a b : string) : bool :=
  startswith a b
  || match b with
     | EmptyString => false
     | String _ b' => str_in a b'
     end.

(** The class [\d] on code points below 256. *)
Definition is_digit (c : ascii) : bool :=
  let n := nat_of_ascii c in ((48 <=? n) && (n <=? 57))%nat.

Fixpoint all_digits (s : string) : bool :=
  match s with
  | EmptyString => true
  | String c s' => is_digit c && all_digits s'
  end.

(** [int(c)] for a digit [c]. *)
Definition digit_value (c : ascii) : Z := Z.of_nat (nat_of_ascii c) - 48.

End PyStr.

(** ** Field validators *)

Module Phone.
Import PyStr.

(** [\d{n}] at the head of [s]: the rest of the string after [n]
    digits. *)
Fixpoint match_digits (n : nat) (s : string) : option string :=
  match n with
  | O => Some s
  | S n' =>
      match s with
      | String c s' => if is_digit c then match_digits n' s' else None
      | EmptyString => None
      end
  end.

(** [$] without [re.MULTILINE]: at the end of the string, or just
    before a line feed that ends the string. *)
Definition at_dollar (s : string) : bool :=
  match s with
  | EmptyString => true
  | String c EmptyString => Ascii.eqb c LF
  | _ => false
  end.

(** [re.compile(r"^\d{9}$").match(value) is not None] *)
Definition validate_phone (value : string) : bool :=
  match match_digits 9 value with
  | Some rest => at_dollar rest
  | None => false
  end.

End Phone.

(** ** Field objects and lists of them *)

Record Field : Type := mkField {
  oid : positive;   (* the identity of the object *)
  value : string    (* self.value *)
}.

(** [a == b] on fields, which is [a is b]. *)
Definition field_eq (a b : Field) : bool := Pos.eqb (oid a) (oid b).

(** [x in l] *)
Definition list_contains (x : Field) (l : list Field) : bool :=
  existsb (fun y => field_eq y x) l.

(** [l.remove(x)]: drops the first element equal to [x]; [ValueError]
    when there is none. *)
Fixpoint list_remove (x : Field) (l : list Field) : result (list Field) :=
  match l with
  | [] => Raise ValueError
  | y :: l' =>
      if field_eq y x then Ok l'
      else match list_remove x l' with
           | Ok r => Ok (y :: r)
           | Raise e => Raise e
           end
  end.

(** ** Dates and times

    The parts of Python's [datetime] module the program calls: field
    checks, ordinals, [replace(year=...)], ordering, subtraction and
    [strptime] with the format ["%Y-%m-%d"]. *)

Module PyDate.
Import PyStr.

Record date : Type := mkDate { year : Z; month : Z; day : Z }.

Record datetime : Type := mkDateTime {
  dt_date : date;
  hour : Z;
  minute : Z;
  second : Z;
  microsecond : Z
}.

Definition MINYEAR : Z := 1.
Definition MAXYEAR : Z := 9999.

Definition is_leap (y : Z) : bool :=
  (y mod 4 =? 0) && (negb (y mod 100 =? 0) || (y mod 400 =? 0)).

Definition days_before_year (y : Z) : Z :=
  let p := y - 1 in p * 365 + p / 4 - p / 100 + p / 400.

Definition days_in_month (y m : Z) : Z :=
  if (m =? 2) && is_leap y then 29
  else nth (Z.to_nat m) [-1; 31; 28; 31; 30; 31; 30; 31; 31; 30; 31; 30; 31] 0.

Definition days_before_month (y m : Z) : Z :=
  nth (Z.to_nat m) [-1; 0; 31; 59; 90; 120; 151; 181; 212; 243; 273; 304; 334] 0
  + (if (2 <? m) && is_leap y then 1 else 0).

(** [date.toordinal()] *)
Definition ymd2ord (d : date) : Z :=
  days_before_year (year d) + days_before_month (year d) (month d) + day d.

(** The check every [date] constructor runs. *)
Definition check_date_fields (y m d : Z) : bool :=
  (MINYEAR <=? y) && (y <=? MAXYEAR)
  && (1 <=? m) && (m <=? 12)
  && (1 <=? d) && (d <=? days_in_month y m).

(** A date that passes the check. *)
Definition valid_date (d : date) : Prop :=
  check_date_fields (year d) (month d) (day d) = true.

Definition make_date (y m d : Z) : result date :=
  if check_date_fields y m d then Ok (mkDate y m d) else Raise ValueError.

(** [d.replace(year=y)] *)
Definition date_replace_year (d : date) (y : Z) : result date :=
  make_date y (month d) (day d).

(** [t.replace(year=y)] *)
Definition replace_year (t : datetime) (y : Z) : result datetime :=
  d ← date_replace_year (dt_date t) y;
  Ok (mkDateTime d (hour t) (minute t) (second t) (microsecond t)).

(** Tuples of integers compare lexicographically. *)
Fixpoint tuple_gt (a b : list Z) : bool :=
  match a, b with
  | x :: a', y :: b' => (y <? x) || ((x =? y) && tuple_gt a' b')
  | _ :: _, [] => true
  | [], _ => false
  end.

(** [a > b] on dates *)
Definition date_gt (a b : date) : bool :=
  tuple_gt [year a; month a; day a] [year b; month b; day b].

Definition dt_fields (t : datetime) : list Z :=
  [year (dt_date t); month (dt_date t); day (dt_date t);
   hour t; minute t; second t; microsecond t].

(** [a > b] on naive datetimes *)
Definition datetime_gt (a b : datetime) : bool :=
  tuple_gt (dt_fields a) (dt_fields b).

(** [(a - b).days] on dates *)
Definition date_sub_days (a b : date) : Z := ymd2ord a - ymd2ord b.

(** [timedelta(days, seconds, microseconds).days] after normalisation *)
Definition timedelta_days (days seconds microseconds : Z) : Z :=
  (days * 86400000000 + seconds * 1000000 + microseconds) / 86400000000.

Definition seconds_of_day (t : datetime) : Z :=
  second t + minute t * 60 + hour t * 3600.

(** [(a - b).days] on naive datetimes *)
Definition datetime_sub_days (a b : datetime) : Z :=
  timedelta_days (ymd2ord (dt_date a) - ymd2ord (dt_date b))
                 (seconds_of_day a - seconds_of_day b)
                 (microsecond a - microsecond b).

(** [t.date()] *)
Definition date_of (t : datetime) : date := dt_date t.

(** A datetime whose fields pass the check of the constructor. *)
Definition valid_datetime (t : datetime) : Prop :=
  valid_date (dt_date t)
  /\ 0 <= hour t < 24 /\ 0 <= minute t < 60 /\ 0 <= second t < 60
  /\ 0 <= microsecond t < 1000000.

(** *** [datetime.strptime(s, "%Y-%m-%d")]

    The format compiles to the regular expression
    [(\d\d\d\d)-(1[0-2]|0[1-9]|[1-9])-(3[01]|[12]\d|0[1-9]|[1-9]| [1-9])];
    the string must match from its start and leave nothing over, and the
    three numbers must pass the field check. *)

Definition in_range (c : ascii) (lo hi : nat) : bool :=
  ((lo <=? nat_of_ascii c) && (nat_of_ascii c <=? hi))%nat.

(** A literal character. *)
Definition parse_char (c : ascii) (s : string) : option string :=
  match s with
  | String x rest => if Ascii.eqb x c then Some rest else None
  | EmptyString => None
  end.

(** [%Y] *)
Definition parse_Y (s : string) : option (Z * string) :=
  match s with
  | String a (String b (String c (String d rest))) =>
      if is_digit a && is_digit b && is_digit c && is_digit d
      then Some (((digit_value a * 10 + digit_value b) * 10
                  + digit_value c) * 10 + digit_value d, rest)
      else None
  | _ => None
  end.

(** [%m]: the alternatives in the order the expression lists them. *)
Definition parse_m (s : string) : option (Z * string) :=
  match s with
  | String a (String b rest) =>
      if Ascii.eqb a "1" && in_range b 48 50
      then Some (10 + digit_value b, rest)
      else if Ascii.eqb a "0" && in_range b 49 57
      then Some (digit_value b, rest)
      else if in_range a 49 57 then Some (digit_value a, String b rest)
      else None
  | String a EmptyString =>
      if in_range a 49 57 then Some (digit_value a, EmptyString) else None
  | EmptyString => None
  end.

(** [%d]: the alternatives in the order the expression lists them. *)
Definition parse_d (s : string) : option (Z * string) :=
  match s with
  | String a (String b rest) =>
      if Ascii.eqb a "3" && in_range b 48 49
      then Some (30 + digit_value b, rest)
      else if in_range a 49 50 && is_digit b
      then Some (digit_value a * 10 + digit_value b, rest)
      else if Ascii.eqb a "0" && in_range b 49 57
      then Some (digit_value b, rest)
      else if in_range a 49 57 then Some (digit_value a, String b rest)
      else if Ascii.eqb a " " && in_range b 49 57
      then Some (digit_value b, rest)
      else None
  | String a EmptyString =>
      if in_range a 49 57 then Some (digit_value a, EmptyString) else None
  | EmptyString => None
  end.

Definition parse_ymd (s : string) : option (Z * Z * Z) :=
  '(y, s1) ← parse_Y s;
  s2 ← parse_char "-" s1;
  '(m, s3) ← parse_m s2;
  s4 ← parse_char "-" s3;
  '(d, s5) ← parse_d s4;
  match s5 with
  | EmptyString => Some (y, m, d)
  | String _ _ => None      (* unconverted data remains *)
  end.

Definition strptime (s : string) : result datetime :=
  match parse_ymd s with
  | Some (y, m, d) => dd ← make_date y m d; Ok (mkDateTime dd 0 0 0 0)
  | None => Raise ValueError
  end.

End PyDate.

(** [Birthday.validate_birthday] *)
Definition validate_birthday (value : string) : bool :=
  match PyDate.strptime value with
  | Ok _ => true
  | Raise _ => false
  end.

(** ** Record

    [id] is the attribute of [Personal_Assistant.py], where the fields
    below are called [phone_numbers], [email_addresses] and [birthdate];
    the notes of a contact play no part in what follows. *)

Record Record_ : Type := mkRecord {
  id : option Z;
  name : Field;
  phones : list Field;
  emails : list Field;
  birthday : option Field;
  address : option Field
}.

Definition set_id (i : Z) (r : Record_) : Record_ :=
  mkRecord (Some i) (name r) (phones r) (emails r) (birthday r) (address r).

Definition set_phones (l : list Field) (r : Record_) : Record_ :=
  mkRecord (id r) (name r) l (emails r) (birthday r) (address r).

(** [record.name.value] *)
Definition name_of (r : Record_) : string := value (name r).

(** A method of a record: its result, and the record afterwards. *)
Definition method (A : Type) : Type := Record_ -> result A * Record_.

(** [m1; m2]: an exception in [m1] ends the sequence, and the record
    stays as [m1] left it. *)
Definition seq {A B : Type} (m1 : method A) (m2 : method B) : method B :=
  fun self =>
    match m1 self with
    | (Ok _, self') => m2 self'
    | (Raise e, self') => (Raise e, self')
    end.

Definition add_phone (phone : Field) : method unit :=
  fun self => (Ok tt, set_phones (phones self ++ [phone]) self).

Definition remove_phone (phone : Field) : method unit :=
  fun self =>
    match list_remove phone (phones self) with
    | Ok l => (Ok tt, set_phones l self)
    | Raise e => (Raise e, self)
    end.

Definition edit_phone (old_phone new_phone : Field) : method unit :=
  seq (remove_phone old_phone) (add_phone new_phone).

(** What [days_to_birthday] returns: a message or a number. *)
Inductive pyval : Type :=
| PyStr (s : string)
| PyInt (n : Z).

Definition no_birthday : string := "Brak daty urodzenia".

(** [Record.days_to_birthday], with the clock reading [now]. *)
Definition days_to_birthday (now : PyDate.datetime) (self : Record_)
  : result pyval :=
  match birthday self with
  | None => Ok (PyStr no_birthday)
  | Some b =>
      if String.eqb (value b) "" then Ok (PyStr no_birthday)
      else
        let today := now in
        bday ← PyDate.strptime (value b);
        next_birthday ← PyDate.replace_year bday (PyDate.year (PyDate.dt_date today));
        next_birthday ←
          (if PyDate.datetime_gt today next_birthday
           then PyDate.replace_year next_birthday
                  (PyDate.year (PyDate.dt_date today) + 1)
           else Ok next_birthday);
        Ok (PyInt (PyDate.datetime_sub_days next_birthday today))
  end.

(** ** Dictionaries

    A [dict] keeps its keys in insertion order: assigning to a key that
    is present replaces the value where it stands, a new key goes to the
    end. *)

Module PyDict.
Section dict.
Context {K V : Type} `{EqDecision K}.

(** [k in d] *)
Fixpoint contains (k : K) (d : list (K * V)) : bool :=
  match d with
  | [] => false
  | (k', _) :: d' => if decide (k' = k) then true else contains k d'
  end.

(** [d[k] = v] *)
Fixpoint setitem (k : K) (v : V) (d : list (K * V)) : list (K * V) :=
  match d with
  | [] => [(k, v)]
  | (k', v') :: d' =>
      if decide (k' = k) then (k', v) :: d' else (k', v') :: setitem k v d'
  end.

(** [del d[k]], for a key that is present *)
Fixpoint delitem (k : K) (d : list (K * V)) : list (K * V) :=
  match d with
  | [] => []
  | (k', v') :: d' =>
      if decide (k' = k) then d' else (k', v') :: delitem k d'
  end.

(** [d.keys()] and [d.values()] *)
Definition keys (d : list (K * V)) : list K := map fst d.
Definition values (d : list (K * V)) : list V := map snd d.

End dict.
End PyDict.

(** ** Searching

    [AddressBook.find_record] has the same text in both variants; it
    reads the book through [self.data.values()] only. *)

Module Find.
Import PyStr.

(** One of the two inner loops: the record is appended at the first
    field that contains the term, and the loop stops there. *)
Fixpoint scan_fields (search_term : string) (fields : list Field)
         (record : Record_) (found_records : list Record_) : list Record_ :=
  match fields with
  | [] => found_records
  | f :: rest =>
      if str_in search_term (value f)
      then found_records ++ [record]                      (* break *)
      else scan_fields search_term rest record found_records
  end.

(** The body of the outer loop. *)
Definition find_step (search_term : string) (found_records : list Record_)
           (record : Record_) : list Record_ :=
  if str_in (lower search_term) (lower (value (name record)))
  then found_records ++ [record]                          (* continue *)
  else
    let found_records :=
      scan_fields search_term (phones record) record found_records in
    scan_fields search_term (emails record) record found_records.

Definition find_in (records : list Record_) (search_term : string)
  : list Record_ :=
  fold_left (find_step search_term) records [].

(** The condition under which the loop appends a record at least once:
    the term occurs in the name (letter case ignored), in a phone or in
    an e-mail address. *)
Definition matches (search_term : string) (r : Record_) : bool :=
  str_in (lower search_term) (lower (value (name r)))
  || existsb (fun f => str_in search_term (value f)) (phones r)
  || existsb (fun f => str_in search_term (value f)) (emails r).

End Find.

(** ** The identifier-keyed book of [Personal_Assistant.py] *)

Module PersonalAssistant.

Record AddressBook : Type := mkBook {
  data : list (Z * Record_);
  next_id : Z;
  free_ids : gset Z
}.

(** [AddressBook()] *)
Definition init : AddressBook := mkBook [] 1 ∅.

(** [min(s)]; [None] for the empty set, where Python raises. *)
Definition set_min (s : gset Z) : option Z :=
  match elements s with
  | [] => None
  | x :: l => Some (foldr Z.min x l)
  end.

(** The [while] loop of [add_record]: the counter moves past every
    identifier that is a key of [data] or is in [free_ids].  Each turn
    leaves one such identifier behind, so [fuel] above their number is
    never used up (lemma [skip_used_spec]). *)
Fixpoint skip_used (fuel : nat) (data : list (Z * Record_))
         (free_ids : gset Z) (next_id : Z) : Z :=
  match fuel with
  | O => next_id
  | S fuel' =>
      if PyDict.contains next_id data || bool_decide (next_id ∈ free_ids)
      then skip_used fuel' data free_ids (next_id + 1)
      else next_id
  end.

Definition loop_fuel (self : AddressBook) : nat :=
  S (length (data self) + size (free_ids self)).

(** [add_record]; the identifier written to [record.id] is returned with
    the book.  The book holds the attributes the record has after the
    call; that the object filed is the caller's own, so that one record
    can stand under two keys, is modelled in [Shared]. *)
Definition add_record (record : Record_) (self : AddressBook)
  : Z * AddressBook :=
  let next_id := skip_used (loop_fuel self) (data self) (free_ids self)
                           (next_id self) in
  match set_min (free_ids self) with
  | Some i =>
      (i, mkBook (PyDict.setitem i (set_id i record) (data self))
                 next_id (free_ids self ∖ {[i]}))
  | None =>
      (next_id, mkBook (PyDict.setitem next_id (set_id next_id record) (data self))
                       (next_id + 1) (free_ids self))
  end.

(** [delete_record_by_id]; [input] is the number [int] reads from the
    line the user types, [None] when [int] raises [ValueError]. *)
Definition delete_record_by_id (input : option Z) (self : AddressBook)
  : AddressBook :=
  match input with
  | Some record_id =>
      if PyDict.contains record_id (data self)
      then mkBook (PyDict.delitem record_id (data self)) (next_id self)
                  ({[record_id]} ∪ free_ids self)
      else self
  | None => self
  end.

Definition find_record (self : AddressBook) (search_term : string)
  : list Record_ :=
  Find.find_in (PyDict.values (data self)) search_term.

(** [load_address_book] when the file holds the mapping [d]: a new book
    whose [data] is replaced by [d]. *)
Definition load_address_book (d : list (Z * Record_)) : AddressBook :=
  mkBook d (next_id init) (free_ids init).

(** Sequences of additions and deletions. *)
Inductive op : Type :=
| Add (record : Record_)
| Delete (input : option Z).

Definition step (self : AddressBook) (o : op) : AddressBook :=
  match o with
  | Add record => snd (add_record record self)
  | Delete input => delete_record_by_id input self
  end.

Definition run (ops : list op) (self : AddressBook) : AddressBook :=
  fold_left step ops self.

End PersonalAssistant.

(** ** The name-keyed book of [project_end.py] *)

Module ProjectEnd.
Import PyDate.

Record AddressBook : Type := mkBook {
  data : list (string * Record_)
}.

Definition add_record (record : Record_) (self : AddressBook) : AddressBook :=
  mkBook (PyDict.setitem (value (name record)) record (data self)).

Definition find_record (self : AddressBook) (search_term : string)
  : list Record_ :=
  Find.find_in (PyDict.values (data self)) search_term.

(** The body of the loop of [upcoming_birthdays]; a [Field] object is
    always true, so [if record.birthday] asks whether it is set. *)
Definition upcoming_step (today : date) (days : Z) (record : Record_)
           (upcoming : list string) : result (list string) :=
  match birthday record with
  | Some b =>
      t ← strptime (value b);
      let bday := date_of t in
      next_birthday ← date_replace_year bday (year today);
      next_birthday ←
        (if date_gt today next_birthday
         then date_replace_year next_birthday (year today + 1)
         else Ok next_birthday);
      if date_sub_days next_birthday today <=? days
      then Ok (upcoming ++ [value (name record)])%list
      else Ok upcoming
  | None => Ok upcoming
  end.

Fixpoint upcoming_loop (today : date) (days : Z) (records : list Record_)
         (upcoming : list string) : result (list string) :=
  match records with
  | [] => Ok upcoming
  | record :: rest =>
      upcoming ← upcoming_step today days record upcoming;
      upcoming_loop today days rest upcoming
  end.

(** [upcoming_birthdays(days)] with the clock reading [now]: the list of
    names the method joins and prints. *)
Definition upcoming_birthdays (now : datetime) (days : Z) (self : AddressBook)
  : result (list string) :=
  let today := date_of now in
  upcoming_loop today days (PyDict.values (data self)) [].

(** [days_to_birthday != "Brak daty urodzenia" and 0 <= days_to_birthday <= days] *)
Definition within_range (days_to : pyval) (days : Z) : result bool :=
  match days_to with
  | PyStr s =>
      if String.eqb s no_birthday then Ok false else Raise TypeError
  | PyInt n => Ok ((0 <=? n) && (n <=? days))
  end.

Fixpoint range_loop (now : datetime) (days : Z) (records : list Record_)
         (found_contacts : list Record_) : result (list Record_) :=
  match records with
  | [] => Ok found_contacts
  | record :: rest =>
      days_to ← days_to_birthday now record;
      keep ← within_range days_to days;
      range_loop now days rest
                 (if keep : bool then (found_contacts ++ [record])%list
                  else found_contacts)
  end.

Definition find_by_birthday_range (now : datetime) (days : Z)
           (self : AddressBook) : result (list Record_) :=
  range_loop now days (PyDict.values (data self)) [].

End ProjectEnd.

(** ** The birthday query in the words of the specification

    "Take the birthdate's month/day, apply to the current year; if that
    date has already passed relative to today (strictly before, date-only
    comparison), roll forward to next year.  Return the integer day
    difference." *)

Module Spec.
Import PyDate.

Definition next_occurrence (today bday : date) : date :=
  let this_year := mkDate (year today) (month bday) (day bday) in
  if date_gt today this_year
  then mkDate (year today + 1) (month bday) (day bday)
  else this_year.

Definition days_until (today bday : date) : Z :=
  ymd2ord (next_occurrence today bday) - ymd2ord today.

(** The birthdate of a record, when one is set and it parses. *)
Definition birthdate_of (r : Record_) : option date :=
  match birthday r with
  | Some b =>
      match strptime (value b) with
      | Ok t => Some (date_of t)
      | Raise _ => None
      end
  | None => None
  end.

(** The record has a birthdate that is at most [within_days] days ahead. *)
Definition due (today : date) (within_days : Z) (r : Record_) : bool :=
  match birthdate_of r with
  | Some bday => days_until today bday <=? within_days
  | None => false
  end.

(** The record has no birthdate, or one whose month and day exist in
    every year: any date but 29 February. *)
Definition every_year (r : Record_) : bool :=
  match birthday r with
  | Some b =>
      match strptime (value b) with
      | Ok t => negb ((month (date_of t) =? 2) && (day (date_of t) =? 29))
      | Raise _ => false
      end
  | None => true
  end.

(** The year [y] has the month and the day of [bday]. *)
Definition falls_in (y : Z) (bday : date) : bool :=
  check_date_fields y (month bday) (day bday).

(** The birthday of the record can be placed on the calendar: today's
    year has its month and day and, when that day has passed, so has
    the year after.  A record without a birthdate asks nothing, and a
    birthdate that does not parse cannot be placed. *)
Definition placed (today : date) (r : Record_) : bool :=
  match birthday r with
  | Some b =>
      match strptime (value b) with
      | Ok t =>
          falls_in (year today) (date_of t)
          && falls_in (year (next_occurrence today (date_of t))) (date_of t)
      | Raise _ => false
      end
  | None => true
  end.

End Spec.

(** ** The invariant of identifier allocation *)

Module Invariant.
Import PersonalAssistant.

(** The condition of the [while] loop of [add_record]. *)
Definition is_used (data : list (Z * Record_)) (free : gset Z) (n : Z) : bool :=
  PyDict.contains n data || bool_decide (n ∈ free).

(** The identifiers in use from [n] upwards. *)
Definition used_from (data : list (Z * Record_)) (free : gset Z) (n : Z)
  : list Z :=
  List.filter (fun k => n <=? k) (PyDict.keys data ++ elements free).

(** The counter after the loop of [add_record]. *)
Definition advanced (b : AddressBook) : Z :=
  skip_used (loop_fuel b) (data b) (free_ids b) (next_id b).

Record holds (b : AddressBook) : Prop := mkHolds {
  keys_unique : NoDup (PyDict.keys (data b));
  keys_not_free : forall k, k ∈ PyDict.keys (data b) -> k ∉ free_ids b;
  counter_ahead :
    forall k, k ∈ PyDict.keys (data b) \/ k ∈ free_ids b -> k < next_id b
}.

End Invariant.

(** ** Sample data used by the examples *)

Module Sample.

Definition phone_a : Field := mkField 11 "123456789".
Definition phone_a' : Field := mkField 12 "123456789".   (* another object, same value *)
Definition phone_b : Field := mkField 13 "987654321".
Definition phone_c : Field := mkField 14 "555666777".
Definition email_a : Field := mkField 15 "jan1@poczta.pl".

Definition jan : Record_ :=
  mkRecord None (mkField 10 "Jan Kowalski") [phone_a; phone_b] [email_a]
           None None.

(** A contact born on [bday], with no other field set. *)
Definition born (who bday : string) : Record_ :=
  mkRecord None (mkField 20 who) [] [] (Some (mkField 21 bday)) None.

Definition at_time (y m d h : Z) : PyDate.datetime :=
  PyDate.mkDateTime (PyDate.mkDate y m d) h 0 0 0.

Definition book_of (records : list Record_) : ProjectEnd.AddressBook :=
  fold_left (fun book r => ProjectEnd.add_record r book) records
            (ProjectEnd.mkBook []).

End Sample.

(** * The rest of the program

    ** E-mail validation *)

Module Email.
Import PyStr.

Definition is_alnum (c : ascii) : bool :=
  let n := nat_of_ascii c in
  (((97 <=? n) && (n <=? 122)) || ((65 <=? n) && (n <=? 90))
   || ((48 <=? n) && (n <=? 57)))%nat.

(** [[a-zA-Z0-9_.+-]] *)
Definition local_char (c : ascii) : bool :=
  is_alnum c || Ascii.eqb c "_" || Ascii.eqb c "." || Ascii.eqb c "+"
  || Ascii.eqb c "-".

(** [[a-zA-Z0-9-]] *)
Definition domain_char (c : ascii) : bool := is_alnum c || Ascii.eqb c "-".

(** [[a-zA-Z0-9-.]] *)
Definition tail_char (c : ascii) : bool :=
  is_alnum c || Ascii.eqb c "-" || Ascii.eqb c ".".

(** The longest run of characters of a class at the head of [s]: what is
    left after it. *)
Fixpoint skip_class (cls : ascii -> bool) (s : string) : string :=
  match s with
  | String c s' => if cls c then skip_class cls s' else s
  | EmptyString => EmptyString
  end.

(** [[...]+] at the head of [s].  In the pattern below every class is
    followed by a character outside it, so that giving characters of the
    run back never makes the rest match, and the longest run decides. *)
Definition match_plus (cls : ascii -> bool) (s : string) : option string :=
  match s with
  | String c s' => if cls c then Some (skip_class cls s') else None
  | EmptyString => None
  end.

(** [re.compile(r"^[a-zA-Z0-9_.+-]+@[a-zA-Z0-9-]+\.[a-zA-Z0-9-.]+$")
      .match(value) is not None] *)
Definition validate_email (value : string) : bool :=
  match match_plus local_char value with
  | None => false
  | Some s1 =>
      match PyDate.parse_char "@" s1 with
      | None => false
      | Some s2 =>
          match match_plus domain_char s2 with
          | None => false
          | Some s3 =>
              match PyDate.parse_char "." s3 with
              | None => false
              | Some s4 =>
                  match match_plus tail_char s4 with
                  | None => false
                  | Some s5 => Phone.at_dollar s5
                  end
              end
          end
      end
  end.

(** The next character, if there is one, is outside the class. *)
Definition stops_at (cls : ascii -> bool) (s : string) : Prop :=
  match s with
  | String c _ => cls c = false
  | EmptyString => True
  end.

(** Every character of [s] is in the class. *)
Fixpoint all_in (cls : ascii -> bool) (s : string) : bool :=
  match s with
  | EmptyString => true
  | String c s' => cls c && all_in cls s'
  end.

(** The number of occurrences of a character. *)
Fixpoint count_char (c : ascii) (s : string) : nat :=
  match s with
  | EmptyString => O
  | String x s' => ((if Ascii.eqb x c then 1 else 0) + count_char c s')%nat
  end.

End Email.

(** ** The text of a date

    [date.isoformat()], that is ["%04d-%02d-%02d"]: the text the prompt
    of [create_record] asks for. *)

Module Iso.
Import PyDate.

Definition digit_char (n : Z) : ascii := ascii_of_nat (48 + Z.to_nat n).

Definition fmt2 (n : Z) (rest : string) : string :=
  String (digit_char (n / 10)) (String (digit_char (n mod 10)) rest).

Definition fmt4 (n : Z) (rest : string) : string :=
  String (digit_char (n / 1000))
    (String (digit_char (n / 100 mod 10)) (fmt2 (n mod 100) rest)).

Definition isoformat (d : date) : string :=
  fmt4 (year d) (String "-" (fmt2 (month d) (String "-" (fmt2 (day d) "")))).

End Iso.

(** ** The other methods of a record *)

Definition set_emails (l : list Field) (r : Record_) : Record_ :=
  mkRecord (id r) (name r) (phones r) l (birthday r) (address r).

Definition set_name (n : Field) (r : Record_) : Record_ :=
  mkRecord (id r) n (phones r) (emails r) (birthday r) (address r).

Definition add_email (email : Field) : method unit :=
  fun self => (Ok tt, set_emails (emails self ++ [email]) self).

Definition remove_email (email : Field) : method unit :=
  fun self =>
    match list_remove email (emails self) with
    | Ok l => (Ok tt, set_emails l self)
    | Raise e => (Raise e, self)
    end.

Definition edit_email (old_email new_email : Field) : method unit :=
  seq (remove_email old_email) (add_email new_email).

Definition edit_name (new_name : Field) : method unit :=
  fun self => (Ok tt, set_name new_name self).

(** ** Reading a dictionary *)

Module Lookup.
Section lookup.
Context {K V : Type} `{EqDecision K}.

(** [d[k]]; [None] where Python raises [KeyError]. *)
Fixpoint getitem (k : K) (d : list (K * V)) : option V :=
  match d with
  | [] => None
  | (k', v) :: d' => if decide (k' = k) then Some v else getitem k d'
  end.

End lookup.
End Lookup.

(** ** The other methods of the identifier-keyed book *)

Module PersonalAssistantMore.
Import PyStr PersonalAssistant.

(** The test of [find_records_by_name] on one record. *)
Definition name_has (term : string) (r : Record_) : bool :=
  str_in (lower term) (lower (name_of r)).

(** The body of the loop of [find_records_by_name]. *)
Definition by_name_step (name : string) (matching_records : list (Z * Record_))
           (item : Z * Record_) : list (Z * Record_) :=
  if str_in (lower name) (lower (name_of (snd item)))
  then matching_records ++ [item]
  else matching_records.

Definition find_records_by_name (self : AddressBook) (name : string)
  : list (Z * Record_) :=
  fold_left (by_name_step name) (data self) [].

(** [print(record)] calls [Record.__str__], which asks for the days to
    the birthdate when one is set.  The text printed is left out; the
    exception [days_to_birthdate] can raise is not. *)
Definition print_record (now : PyDate.datetime) (record : Record_)
  : result unit :=
  match birthday record with
  | Some _ => _ ← days_to_birthday now record; Ok tt
  | None => Ok tt
  end.

(** The loop that prints the matching records. *)
Fixpoint print_matching (now : PyDate.datetime)
         (matching_records : list (Z * Record_)) : result unit :=
  match matching_records with
  | [] => Ok tt
  | (_, record) :: rest =>
      _ ← print_record now record; print_matching now rest
  end.

(** [delete_record]: [name_to_delete] is the name typed, [input] the
    number [int] reads from the second line, [None] when it raises
    [ValueError].  The second line is asked for only when a record
    matches the name and the matches have been printed; an exception
    raised while printing leaves the method before anything is
    deleted. *)
Definition delete_record (now : PyDate.datetime) (name_to_delete : string)
           (input : option Z) (self : AddressBook)
  : result unit * AddressBook :=
  match find_records_by_name self name_to_delete with
  | [] => (Ok tt, self)
  | matching_records =>
      match print_matching now matching_records with
      | Raise e => (Raise e, self)
      | Ok _ =>
          match input with
          | Some record_id_to_delete =>
              if PyDict.contains record_id_to_delete (data self)
              then (Ok tt,
                    mkBook (PyDict.delitem record_id_to_delete (data self))
                           (next_id self)
                           ({[record_id_to_delete]} ∪ free_ids self))
              else (Ok tt, self)
          | None => (Ok tt, self)
          end
      end
  end.

(** What the menu can do to the book. *)
Inductive action : Type :=
| AddRecord (record : Record_)
| DeleteById (input : option Z)
| DeleteByName (now : PyDate.datetime) (name_to_delete : string)
               (input : option Z).

Definition act (self : AddressBook) (a : action) : AddressBook :=
  match a with
  | AddRecord record => snd (add_record record self)
  | DeleteById input => delete_record_by_id input self
  | DeleteByName now name_to_delete input =>
      snd (delete_record now name_to_delete input self)
  end.

Definition play (actions : list action) (self : AddressBook) : AddressBook :=
  fold_left act actions self.

(** The keys are pairwise distinct and none of them is free. *)
Record sound (b : AddressBook) : Prop := mkSound {
  sound_keys : NoDup (PyDict.keys (data b));
  sound_free : forall k, k ∈ PyDict.keys (data b) -> k ∉ free_ids b
}.

End PersonalAssistantMore.

(** ** The other methods of the name-keyed book *)

Module ProjectEndMore.
Import ProjectEnd.

(** [delete_record(name)] *)
Definition delete_record (name : string) (self : AddressBook) : AddressBook :=
  if PyDict.contains name (data self)
  then mkBook (PyDict.delitem name (data self))
  else self.

Inductive action : Type :=
| AddRecord (record : Record_)
| DeleteRecord (name : string).

Definition act (self : AddressBook) (a : action) : AddressBook :=
  match a with
  | AddRecord record => add_record record self
  | DeleteRecord name => delete_record name self
  end.

Definition play (actions : list action) (self : AddressBook) : AddressBook :=
  fold_left act actions self.

(** The keys are pairwise distinct and each record is filed under its
    name. *)
Definition filed (b : AddressBook) : Prop :=
  NoDup (PyDict.keys (data b))
  /\ forall k r, (k, r) ∈ data b -> k = name_of r.

(** *** Traversal in batches

    [__iter__] stores the cursor in the book and returns the book, so an
    iterator is the book with its attribute [current]. *)

Record iterator : Type := mkIterator {
  book : AddressBook;
  current : Z
}.

(** [l[lo:hi]] for [0 <= lo <= hi] *)
Definition slice {A : Type} (l : list A) (lo hi : Z) : list A :=
  take (Z.to_nat (hi - lo)) (drop (Z.to_nat lo) l).

(** [__iter__] *)
Definition iter (self : AddressBook) : iterator := mkIterator self 0.

(** What a call of [__next__] gives: a batch, or [StopIteration]. *)
Inductive next_result : Type :=
| Batch (records : list Record_)
| StopIteration.

(** [__next__] *)
Definition next (it : iterator) : next_result * iterator :=
  if current it <? Z.of_nat (length (data (book it)))
  then (Batch (slice (PyDict.values (data (book it)))
                     (current it) (current it + 5)),
        mkIterator (book it) (current it + 5))
  else (StopIteration, it).

(** [for batch in it]: the batches up to [StopIteration]; [None] when
    [fuel] calls of [__next__] do not reach it. *)
Fixpoint batches (fuel : nat) (it : iterator) : option (list (list Record_)) :=
  match fuel with
  | O => None
  | S fuel' =>
      match next it with
      | (Batch records, it') =>
          match batches fuel' it' with
          | Some rest => Some (records :: rest)
          | None => None
          end
      | (StopIteration, _) => Some []
      end
  end.

(** [list(self)]: one more call than there are records is enough. *)
Definition pages (self : AddressBook) : option (list (list Record_)) :=
  batches (S (length (data self))) (iter self).

(** The test of [find_by_birthday_range] on one record, when
    [days_to_birthday] returns. *)
Definition in_days (now : PyDate.datetime) (days : Z) (r : Record_) : bool :=
  match days_to_birthday now r with
  | Ok (PyInt n) => (0 <=? n) && (n <=? days)
  | _ => false
  end.

End ProjectEndMore.

(** ** Editing a contact

    [edit_record] asks up to four questions.  The lines typed are
    arguments; the line for the index is given by what [isdigit] and [int]
    make of it, and the objects that [Name(...)] and [Phone(...)] create
    get the identities [name_oid] and [phone_oid]. *)

Module Edit.
Import ProjectEnd.

(** [c.isspace()] on a code point below 256 *)
Definition is_space (c : ascii) : bool :=
  let n := nat_of_ascii c in
  (((9 <=? n) && (n <=? 13)) || ((28 <=? n) && (n <=? 32))
   || (n =? 133) || (n =? 160))%nat.

(** [not s.strip()]: nothing is left of [s] without its blanks. *)
Fixpoint blank (s : string) : bool :=
  match s with
  | EmptyString => true
  | String c s' => is_space c && blank s'
  end.

(** The line typed for the index. *)
Inductive index_line : Type :=
| NotDigits                (* [isdigit()] is false *)
| Index (n : Z)            (* [isdigit()] is true and [int] reads [n] *)
| Unreadable.              (* [isdigit()] is true and [int] raises [ValueError] *)

(** [l[i]] for [0 <= i < len(l)] *)
Definition item (l : list Field) (i : Z) : option Field :=
  nth_error l (Z.to_nat i).

(** The questions about the phone, on the record found. *)
Definition edit_phone_part (phone_to_edit : index_line)
           (new_phone_number : string) (phone_oid : positive)
  : method unit :=
  fun record =>
    match phones record with
    | [] => (Ok tt, record)
    | _ :: _ =>
        match phone_to_edit with
        | NotDigits => (Ok tt, record)
        | Unreadable => (Raise ValueError, record)
        | Index n =>
            let idx := n - 1 in
            if (0 <=? idx) && (idx <? Z.of_nat (length (phones record)))
            then
              if blank new_phone_number then (Ok tt, record)
              else if Phone.validate_phone new_phone_number
              then match item (phones record) idx with
                   | Some old =>
                       edit_phone old (mkField phone_oid new_phone_number)
                                  record
                   | None => (Ok tt, record)
                   end
              else (Raise ValueError, record)     (* Phone(...) raises *)
            else (Ok tt, record)
        end
    end.

(** The question about the name. *)
Definition edit_name_part (new_name_input : string) (name_oid : positive)
  : method unit :=
  fun record =>
    if blank new_name_input then (Ok tt, record)
    else edit_name (mkField name_oid new_name_input) record.

(** [edit_record(book)] of [project_end.py].  The record is changed where
    it is, under the key it has in the book. *)
Definition edit_record (name_to_edit new_name_input : string)
           (phone_to_edit : index_line) (new_phone_number : string)
           (name_oid phone_oid : positive) (book : AddressBook)
  : result unit * AddressBook :=
  match Lookup.getitem name_to_edit (data book) with
  | Some record =>
      let '(res, record') :=
        seq (edit_name_part new_name_input name_oid)
            (edit_phone_part phone_to_edit new_phone_number phone_oid)
            record in
      (res, mkBook (PyDict.setitem name_to_edit record' (data book)))
  | None => (Ok tt, book)
  end.

(** [a == b] on keys that are integers or strings: an integer is equal
    to no string. *)
Definition key_eq (a b : pyval) : bool :=
  match a, b with
  | PyInt m, PyInt n => m =? n
  | PyStr s, PyStr t => String.eqb s t
  | _, _ => false
  end.

(** [book.data[key]] in the identifier-keyed book, whose keys are
    integers. *)
Fixpoint getitem_int (key : pyval) (d : list (Z * Record_)) : option Record_ :=
  match d with
  | [] => None
  | (k, v) :: d' => if key_eq (PyInt k) key then Some v else getitem_int key d'
  end.

(** The questions about the e-mail address, which [Personal_Assistant.py]
    asks after those about the phone. *)
Definition edit_email_part (email_to_edit : index_line) (new_email : string)
           (email_oid : positive) : method unit :=
  fun record =>
    match emails record with
    | [] => (Ok tt, record)
    | _ :: _ =>
        match email_to_edit with
        | NotDigits => (Ok tt, record)
        | Unreadable => (Raise ValueError, record)
        | Index n =>
            let idx := n - 1 in
            if (0 <=? idx) && (idx <? Z.of_nat (length (emails record)))
            then
              if blank new_email then (Ok tt, record)
              else if Email.validate_email new_email
              then match item (emails record) idx with
                   | Some old =>
                       edit_email old (mkField email_oid new_email) record
                   | None => (Ok tt, record)
                   end
              else (Raise ValueError, record)
            else (Ok tt, record)
        end
    end.

(** [edit_record(book)] of [Personal_Assistant.py]: the name typed is
    looked up among the keys of the book, which are identifiers. *)
Definition edit_record_by_id_book (name_to_edit new_name_input : string)
           (phone_to_edit : index_line) (new_phone_number : string)
           (email_to_edit : index_line) (new_email : string)
           (name_oid phone_oid email_oid : positive)
           (book : PersonalAssistant.AddressBook)
  : result unit * PersonalAssistant.AddressBook :=
  match getitem_int (PyStr name_to_edit) (PersonalAssistant.data book) with
  | Some record =>
      let '(res, record') :=
        seq (edit_name_part new_name_input name_oid)
            (seq (edit_phone_part phone_to_edit new_phone_number phone_oid)
                 (edit_email_part email_to_edit new_email email_oid))
            record in
      (res,
       PersonalAssistant.mkBook
         (map (fun e => if key_eq (PyInt (fst e)) (PyStr name_to_edit)
                        then (fst e, record') else e)
              (PersonalAssistant.data book))
         (PersonalAssistant.next_id book) (PersonalAssistant.free_ids book))
  | None => (Ok tt, book)
  end.

End Edit.

(** ** Notes

    [notes.py] is the notebook that [Personal_Assistant.py] imports: a
    note is a dict with the keys [title] and [content], and the notes
    are numbered from 0. *)

Module NotesPy.

Record Note : Type := mkNote { title : string; content : string }.

Definition add_note (title content : string) (notes : list Note)
  : list Note :=
  (notes ++ [mkNote title content])%list.

(** [note_id] is whatever the caller passes; the comparison
    [0 <= note_id] raises [TypeError] for a [str]. *)
Definition delete_note (note_id : pyval) (notes : list Note)
  : result unit * list Note :=
  match note_id with
  | PyInt i =>
      if (0 <=? i) && (i <? Z.of_nat (length notes))
      then (Ok tt, delete (Z.to_nat i) notes)
      else (Ok tt, notes)
  | PyStr _ => (Raise TypeError, notes)
  end.

(** Choice 3 of the notes menu of [Personal_Assistant.py]: the line read
    by [input] is passed on as it is. *)
Definition menu_delete_note (line : string) (notes : list Note)
  : result unit * list Note :=
  delete_note (PyStr line) notes.

End NotesPy.

(** The notebook of [project_end.py]: a note is an object with its
    content, its time of creation and a list of tags; the notes are
    numbered from 1.  [datetime.now()] is an argument. *)

Module Notebook.
Import PyDate.

Record Note : Type :=
  mkNote { content : string; created_at : datetime; tags : list string }.

(** [Note.add_tag] *)
Definition note_add_tag (tag : string) (note : Note) : Note :=
  mkNote (content note) (created_at note) (tags note ++ [tag])%list.

Definition add_note (note_content : string) (now : datetime)
           (notes : list Note) : list Note :=
  (notes ++ [mkNote note_content now []])%list.

Definition delete_note (note_id : Z) (notes : list Note) : list Note :=
  if (1 <=? note_id) && (note_id <=? Z.of_nat (length notes))
  then delete (Z.to_nat (note_id - 1)) notes
  else notes.

(** [enumerate(self.notes, start=1)], the numbers [show_notes] prints *)
Fixpoint enumerate (start : Z) (notes : list Note) : list (Z * Note) :=
  match notes with
  | [] => []
  | note :: notes' => (start, note) :: enumerate (start + 1) notes'
  end.

(** [Tag.add_tag] *)
Definition add_tag (note_index : Z) (tag : string) (notes : list Note)
  : list Note :=
  if (1 <=? note_index) && (note_index <=? Z.of_nat (length notes))
  then match notes !! Z.to_nat (note_index - 1) with
       | Some note =>
           <[Z.to_nat (note_index - 1) := note_add_tag tag note]> notes
       | None => notes
       end
  else notes.

(** [tag in note.tags] *)
Definition has_tag (tag : string) (note : Note) : bool :=
  existsb (String.eqb tag) (tags note).

(** [Tag.search_tag] *)
Definition search_tag (tag : string) (notes : list Note) : list Note :=
  List.filter (has_tag tag) notes.

(** [tag for note in self.notes.notes for tag in note.tags] *)
Definition all_tags (notes : list Note) : list string :=
  flat_map tags notes.

(** [sorted(set(...))]: the different strings in ascending order of
    their code points.  One string is put into a list that is already
    in order, unless it is there. *)
Fixpoint insert_tag (tag : string) (l : list string) : list string :=
  match l with
  | [] => [tag]
  | y :: l' =>
      match String.compare tag y with
      | Lt => tag :: l
      | Eq => l
      | Gt => y :: insert_tag tag l'
      end
  end.

Definition sorted_set (l : list string) : list string :=
  fold_right insert_tag [] l.

(** [Tag.sort_tags]: the dict is filled key by key. *)
Definition sort_tags (notes : list Note) : list (string * list Note) :=
  fold_left
    (fun sorted_dict tag =>
       PyDict.setitem tag (List.filter (has_tag tag) notes) sorted_dict)
    (sorted_set (all_tags notes)) [].

(** Strictly ascending, as [sorted] leaves different strings: an earlier
    string is below every later one. *)
Definition below (a b : string) : Prop := String.compare a b = Lt.

Definition ascending (l : list string) : Prop :=
  forall (i j : nat) (a b : string),
    (i < j)%nat -> l !! i = Some a -> l !! j = Some b -> below a b.

End Notebook.

(** ** Text beyond Latin-1

    Above, a character is a code point below 256.  Two things the
    program does with text reach further: the class [\d] of a [str]
    pattern matches the decimal digits of every script, and
    [str.lower] folds the capital letters of every script.  Here a
    [str] is the list of its code points, and the two tables of the
    Unicode database are parameters: [is_decimal] for the class and
    [lower] for the method.  The definitions follow the same source
    lines as [Phone], [Find] and [find_records_by_name] above. *)

Module Unicode.

Definition str : Type := list Z.

Definition LF : Z := 10.

(** Text of code points below 256, as written in this file. *)
Definition of_string (s : string) : str :=
  map (fun c => Z.of_nat (nat_of_ascii c)) (list_ascii_of_string s).

Record Field : Type := mkField {
  oid : positive;   (* the identity of the object *)
  value : str       (* self.value *)
}.

Record Record_ : Type := mkRecord {
  id : option Z;
  name : Field;
  phones : list Field;
  emails : list Field;
  birthday : option Field;
  address : option Field
}.

(** [b.startswith(a)] *)
Fixpoint startswith (a b : str) : bool :=
  match a, b with
  | [], _ => true
  | _ :: _, [] => false
  | x :: a', y :: b' => (x =? y) && startswith a' b'
  end.

(** [a in b] on strings: [a] occurs in [b] at some offset. *)
Fixpoint str_in (a b : str) : bool :=
  startswith a b
  || match b with
     | [] => false
     | _ :: b' => str_in a b'
     end.

Section tables.
Variable is_decimal : Z -> bool.
Variable lower : str -> str.

(** [\d{n}] at the head of [s]: the rest of the string after [n]
    digits. *)
Fixpoint match_digits (n : nat) (s : str) : option str :=
  match n with
  | O => Some s
  | S n' =>
      match s with
      | c :: s' => if is_decimal c then match_digits n' s' else None
      | [] => None
      end
  end.

(** [$] without [re.MULTILINE]: at the end of the string, or just
    before a line feed that ends the string. *)
Definition at_dollar (s : str) : bool :=
  match s with
  | [] => true
  | [c] => c =? LF
  | _ => false
  end.

(** [re.compile(r"^\d{9}$").match(value) is not None] *)
Definition validate_phone (value : str) : bool :=
  match match_digits 9 value with
  | Some rest => at_dollar rest
  | None => false
  end.

(** One of the two inner loops of [find_record]: the record is appended
    at the first field that contains the term, and the loop stops
    there. *)
Fixpoint scan_fields (search_term : str) (fields : list Field)
         (record : Record_) (found_records : list Record_) : list Record_ :=
  match fields with
  | [] => found_records
  | f :: rest =>
      if str_in search_term (value f)
      then found_records ++ [record]                      (* break *)
      else scan_fields search_term rest record found_records
  end.

(** The body of the outer loop. *)
Definition find_step (search_term : str) (found_records : list Record_)
           (record : Record_) : list Record_ :=
  if str_in (lower search_term) (lower (value (name record)))
  then found_records ++ [record]                          (* continue *)
  else
    let found_records :=
      scan_fields search_term (phones record) record found_records in
    scan_fields search_term (emails record) record found_records.

(** [find_record], the same text in both books: it reads the book
    through [self.data.values()] only, whatever the keys are. *)
Definition find_record {K : Type} (data : list (K * Record_))
           (search_term : str) : list Record_ :=
  fold_left (find_step search_term) (PyDict.values data) [].

(** The body of the loop of [find_records_by_name]. *)
Definition by_name_step (name_ : str) (matching_records : list (Z * Record_))
           (item : Z * Record_) : list (Z * Record_) :=
  if str_in (lower name_) (lower (value (name (snd item))))
  then matching_records ++ [item]
  else matching_records.

Definition find_records_by_name (data : list (Z * Record_)) (name_ : str)
  : list (Z * Record_) :=
  fold_left (by_name_step name_) data [].

(** The test on the name: [term.lower() in record.name.value.lower()]. *)
Definition name_has (term : str) (r : Record_) : bool :=
  str_in (lower term) (lower (value (name r))).

(** The test on a list of phones or e-mail addresses: the term occurs
    in one of the values as typed. *)
Definition some_has (term : str) (fields : list Field) : bool :=
  existsb (fun f => str_in term (value f)) fields.

(** The condition under which the loop appends a record at least
    once. *)
Definition matches (term : str) (r : Record_) : bool :=
  name_has term r || some_has term (phones r) || some_has term (emails r).

End tables.

(** A part of the table of [str.lower], for the examples: the letters
    A-Z and the capitals of the Polish alphabet. *)
Definition lower_point (c : Z) : Z :=
  if (65 <=? c) && (c <=? 90) then c + 32
  else if c =? 211 then 243
  else if existsb (Z.eqb c) [260; 262; 280; 321; 323; 346; 377; 379]
       then c + 1
  else c.

Definition lower_sample (s : str) : str := map lower_point s.

(** A part of the class [\d], for the examples: 0-9 and the
    Arabic-Indic digits. *)
Definition decimal_sample (c : Z) : bool :=
  ((48 <=? c) && (c <=? 57)) || ((1632 <=? c) && (c <=? 1641)).

(** A contact whose name starts with U+0141 and has U+017B in it
    (Lukasz Zak, as written in Polish), with the phone 123456789 *)
Definition lukasz : Record_ :=
  mkRecord (Some 1)
           (mkField 40 (321 :: of_string "ukasz " ++ 379 :: of_string "ak"))
           [mkField 41 (of_string "123456789")] [] None None.

(** The same first name with a small first letter, U+0142 *)
Definition lukasz_term : str := 322 :: of_string "ukasz".

End Unicode.

(** Fields and records of Latin-1 text, as values of [Unicode]. *)

Module Latin1.

Definition field (f : Field) : Unicode.Field :=
  Unicode.mkField (oid f) (Unicode.of_string (value f)).

Definition record (r : Record_) : Unicode.Record_ :=
  Unicode.mkRecord (id r) (field (name r)) (map field (phones r))
                   (map field (emails r)) (option_map field (birthday r))
                   (option_map field (address r)).

End Latin1.

(** ** Records as objects

    [add_record] writes [record.id] on the object it is given and files
    that same object: a [Record] filed under two keys is one object with
    one [id].  Where that matters the book holds references, and the
    attributes of the [Record] objects are kept in a store of their
    own. *)

Module Shared.

Definition ref : Type := positive.

Record state : Type := mkState {
  objects : ref -> Record_;   (* the attributes of each [Record] object *)
  data : list (Z * ref);      (* [book.data] *)
  next_id : Z;                (* [book.next_id] *)
  free_ids : gset Z           (* [book.free_ids] *)
}.

(** [AddressBook()], the objects being what they are *)
Definition init (objects : ref -> Record_) : state := mkState objects [] 1 ∅.

(** The [while] loop of [add_record], as in [PersonalAssistant]. *)
Fixpoint skip_used (fuel : nat) (data : list (Z * ref))
         (free_ids : gset Z) (next_id : Z) : Z :=
  match fuel with
  | O => next_id
  | S fuel' =>
      if PyDict.contains next_id data || bool_decide (next_id ∈ free_ids)
      then skip_used fuel' data free_ids (next_id + 1)
      else next_id
  end.

Definition loop_fuel (self : state) : nat :=
  S (length (data self) + size (free_ids self)).

(** [record.id = i] *)
Definition write_id (record : ref) (i : Z) (objects : ref -> Record_)
  : ref -> Record_ :=
  <[record := set_id i (objects record)]> objects.

Definition add_record (record : ref) (self : state) : Z * state :=
  let next_id := skip_used (loop_fuel self) (data self) (free_ids self)
                           (next_id self) in
  match PersonalAssistant.set_min (free_ids self) with
  | Some i =>
      (i, mkState (write_id record i (objects self))
                  (PyDict.setitem i record (data self))
                  next_id (free_ids self ∖ {[i]}))
  | None =>
      (next_id, mkState (write_id record next_id (objects self))
                        (PyDict.setitem next_id record (data self))
                        (next_id + 1) (free_ids self))
  end.

Definition delete_record_by_id (input : option Z) (self : state) : state :=
  match input with
  | Some record_id =>
      if PyDict.contains record_id (data self)
      then mkState (objects self) (PyDict.delitem record_id (data self))
                   (next_id self) ({[record_id]} ∪ free_ids self)
      else self
  | None => self
  end.

(** [book.data[k]], read through to the attributes of the object *)
Definition record_at (k : Z) (self : state) : option Record_ :=
  match Lookup.getitem k (data self) with
  | Some record => Some (objects self record)
  | None => None
  end.

Inductive action : Type :=
| AddRecord (record : ref)
| DeleteById (input : option Z).

Definition act (self : state) (a : action) : state :=
  match a with
  | AddRecord record => snd (add_record record self)
  | DeleteById input => delete_record_by_id input self
  end.

Definition play (actions : list action) (self : state) : state :=
  fold_left act actions self.

(** The object is one of the values of the book. *)
Definition filed (record : ref) (self : state) : bool :=
  existsb (Pos.eqb record) (PyDict.values (data self)).

(** No [add_record] of the sequence is given an object that is in the
    book at that moment, as when each record is built just before it is
    added. *)
Fixpoint new_objects (actions : list action) (self : state) : bool :=
  match actions with
  | [] => true
  | a :: rest =>
      match a with
      | AddRecord record => negb (filed record self)
      | DeleteById _ => true
      end
      && new_objects rest (act self a)
  end.

(** The keys are pairwise distinct and none of them is free. *)
Definition sound (self : state) : Prop :=
  NoDup (PyDict.keys (data self))
  /\ forall k, k ∈ PyDict.keys (data self) -> k ∉ free_ids self.

(** The book with the attributes in place of the references: the book
    of [PersonalAssistant] that has the same keys, counter and free
    identifiers. *)
Definition shadow (self : state) : PersonalAssistant.AddressBook :=
  PersonalAssistant.mkBook
    (map (fun e => (fst e, objects self (snd e))) (data self))
    (next_id self) (free_ids self).

(** Every entry holds an object whose [id] is its key, no object is
    filed twice, and all identifiers are positive. *)
Record labelled (self : state) : Prop := mkLabelled {
  labelled_id :
    forall k o, (k, o) ∈ data self -> id (objects self o) = Some k /\ 1 <= k;
  labelled_once : NoDup (PyDict.values (data self));
  labelled_free : forall k, k ∈ free_ids self -> 1 <= k;
  labelled_next : 1 <= next_id self
}.

End Shared.

(** * Properties *)

(** ** Phone validation *)

Section PhoneFacts.
Import PyStr Phone.

#[local] Arguments String.append !_ _ : simpl nomatch.

Lemma match_digits_spec (n : nat) (s rest : string) :
  match_digits n s = Some rest <->
  exists d, s = (d ++ rest)%string /\ String.length d = n /\ all_digits d = true.
Proof.
  revert s. induction n as [|n IH]; intros s; simpl.
  - split.
    + intros [= ->]. exists ""%string. auto.
    + intros (d & -> & Hl & _). destruct d; [reflexivity | discriminate].
  - destruct s as [|c s].
    + split; [discriminate|]. intros (d & Hs & Hl & _).
      destruct d; simpl in *; discriminate.
    + destruct (is_digit c) eqn:Hc.
      * rewrite IH. split.
        -- intros (d & -> & Hl & Hd). exists (String c d). simpl.
           rewrite Hc, Hd, Hl. auto.
        -- intros (d & Hs & Hl & Hd). destruct d as [|c' d]; [discriminate|].
           simpl in *. injection Hs as -> ->. injection Hl as Hl.
           apply andb_prop in Hd as [_ Hd]. eauto.
      * split; [discriminate|]. intros (d & Hs & Hl & Hd).
        destruct d as [|c' d]; [discriminate|]. simpl in *.
        injection Hs as -> ->. rewrite Hc in Hd. discriminate.
Qed.

(** What the pattern accepts: nine digits, with or without one line feed
    after them. *)
Lemma validate_phone_spec (s : string) :
  validate_phone s = true <->
  exists d, String.length d = 9%nat /\ all_digits d = true
            /\ (s = d \/ s = (d ++ String LF "")%string).
Proof.
  unfold validate_phone. split.
  - destruct (match_digits 9 s) as [rest|] eqn:Hm; [|discriminate].
    apply match_digits_spec in Hm as (d & -> & Hl & Hd). intros Hr.
    exists d. repeat split; auto.
    destruct rest as [|c [|c' rest]]; simpl in Hr; try discriminate.
    + left. clear. induction d; simpl; congruence.
    + right. apply Ascii.eqb_eq in Hr. subst. reflexivity.
  - intros (d & Hl & Hd & [-> | ->]).
    + assert (Hm : match_digits 9 d = Some ""%string).
      { apply match_digits_spec. exists d. repeat split; auto.
        clear. induction d; simpl; congruence. }
      rewrite Hm. reflexivity.
    + assert (Hm : match_digits 9 (d ++ String LF "") = Some (String LF "")).
      { apply match_digits_spec. exists d. auto. }
      rewrite Hm. reflexivity.
Qed.

(** Every string of exactly nine digits is accepted. *)
Lemma validate_phone_nine_digits (s : string) :
  String.length s = 9%nat -> all_digits s = true -> validate_phone s = true.
Proof. intros Hl Hd. apply validate_phone_spec. exists s. auto. Qed.

(** C8: the claim says that every string whose length is not nine is
    rejected.  The pattern ends in [$], which also matches before a final
    line feed, so the ten characters ["123456789\n"] are accepted although
    the last one is not a digit. *)
Theorem validate_phone_accepts_trailing_newline :
  let s := ("123456789" ++ String LF "")%string in
  String.length s = 10%nat /\ all_digits s = false /\ validate_phone s = true.
Proof. repeat split. Qed.

End PhoneFacts.

(** ** Phones of a record *)

Section RecordFacts.

Lemma field_eq_oid (a b : Field) : field_eq a b = true <-> oid a = oid b.
Proof. unfold field_eq. apply Pos.eqb_eq. Qed.

Lemma field_eq_false (a b : Field) : field_eq a b = false <-> oid a <> oid b.
Proof. unfold field_eq. apply Pos.eqb_neq. Qed.

Lemma list_remove_absent (x : Field) (l : list Field) :
  (forall q, In q l -> oid q <> oid x) -> list_remove x l = Raise ValueError.
Proof.
  induction l as [|y l IH]; intros H; simpl; [reflexivity|].
  assert (Hy : field_eq y x = false) by (apply field_eq_false, H; left; auto).
  rewrite Hy, IH; [reflexivity|]. intros q Hq. apply H. right. exact Hq.
Qed.

Lemma list_remove_first (x q : Field) (l1 l2 : list Field) :
  oid q = oid x -> (forall y, In y l1 -> oid y <> oid x) ->
  list_remove x (l1 ++ q :: l2) = Ok (l1 ++ l2).
Proof.
  intros Hq. induction l1 as [|y l1 IH]; intros H; simpl.
  - apply field_eq_oid in Hq. rewrite Hq. reflexivity.
  - assert (Hy : field_eq y x = false) by (apply field_eq_false, H; left; auto).
    rewrite Hy, IH; [reflexivity|]. intros z Hz. apply H. right. exact Hz.
Qed.

(** A list that holds an object with the identity of [x] splits at the
    first such object. *)
Lemma first_occurrence (x : Field) (l : list Field) :
  (exists q, In q l /\ oid q = oid x) ->
  exists l1 q l2, l = l1 ++ q :: l2 /\ oid q = oid x
                  /\ (forall y, In y l1 -> oid y <> oid x).
Proof.
  induction l as [|y l IH]; intros (q & Hin & Hq); [destruct Hin|].
  destruct (Pos.eq_dec (oid y) (oid x)) as [Hy|Hy].
  - exists [], y, l. repeat split; auto.
  - destruct IH as (l1 & q' & l2 & -> & Hq' & Hl1).
    + destruct Hin as [->|Hin]; [contradiction|]. eauto.
    + exists (y :: l1), q', l2. repeat split; auto.
      intros z [<-|Hz]; auto.
Qed.

(** C7, as the code has it: [remove_phone(p)] compares by identity.  It
    raises [ValueError], leaving the record as it was, when no element of
    the list is the object [p]; otherwise it removes the first element
    that is [p]. *)
Theorem remove_phone_by_identity (p : Field) (r : Record_) :
  ((forall q, In q (phones r) -> oid q <> oid p) ->
   remove_phone p r = (Raise ValueError, r))
  /\ ((exists q, In q (phones r) /\ oid q = oid p) ->
      exists l1 q l2,
        phones r = l1 ++ q :: l2 /\ oid q = oid p
        /\ (forall y, In y l1 -> oid y <> oid p)
        /\ remove_phone p r = (Ok tt, set_phones (l1 ++ l2) r)).
Proof.
  unfold remove_phone. split.
  - intros H. rewrite list_remove_absent by exact H. reflexivity.
  - intros H. destruct (first_occurrence p (phones r) H)
      as (l1 & q & l2 & Hl & Hq & Hl1).
    exists l1, q, l2. repeat split; auto.
    rewrite Hl, list_remove_first by assumption. reflexivity.
Qed.

Lemma remove_phone_by_identity_witness :
  remove_phone Sample.phone_c Sample.jan = (Raise ValueError, Sample.jan)
  /\ exists l1 q l2,
       phones Sample.jan = l1 ++ q :: l2 /\ oid q = oid Sample.phone_b
       /\ (forall y, In y l1 -> oid y <> oid Sample.phone_b)
       /\ remove_phone Sample.phone_b Sample.jan
          = (Ok tt, set_phones (l1 ++ l2) Sample.jan).
Proof.
  split.
  - apply (proj1 (remove_phone_by_identity Sample.phone_c Sample.jan)).
    simpl. intros q [<-|[<-|[]]]; simpl; lia.
  - apply (proj2 (remove_phone_by_identity Sample.phone_b Sample.jan)).
    exists Sample.phone_b. simpl. auto.
Defined.

(** C7 as stated fails: a phone with the value of an element of the list,
    but which is another object, is not found. *)
Lemma remove_phone_by_value_counterexample :
  let r := Sample.jan in
  let p := Sample.phone_a' in
  (exists q, In q (phones r) /\ value q = value p)
  /\ remove_phone p r = (Raise ValueError, r).
Proof.
  split; [|reflexivity].
  exists Sample.phone_a. split; [left|]; reflexivity.
Qed.

(** C4, as the code has it: [edit_phone(old, new)] looks for the object
    [old], as [remove_phone] does.  It raises [ValueError] and leaves the
    record as it was when no element of the phone list is the object
    [old], whatever the values in the list; when one is, the new list is
    the old one without the first element that is [old], followed by
    [new]. *)
Theorem edit_phone_atomic (old new : Field) (r : Record_) :
  ((forall q, In q (phones r) -> oid q <> oid old) ->
   edit_phone old new r = (Raise ValueError, r))
  /\ (forall l1 q l2,
        phones r = l1 ++ q :: l2 -> oid q = oid old ->
        (forall y, In y l1 -> oid y <> oid old) ->
        edit_phone old new r = (Ok tt, set_phones (l1 ++ l2 ++ [new]) r))
  /\ ((exists q, In q (phones r) /\ oid q = oid old) ->
      exists l1 q l2,
        phones r = l1 ++ q :: l2 /\ oid q = oid old
        /\ (forall y, In y l1 -> oid y <> oid old)
        /\ edit_phone old new r
           = (Ok tt, set_phones (l1 ++ l2 ++ [new]) r)).
Proof.
  assert (Hfound : forall l1 q l2,
             phones r = l1 ++ q :: l2 -> oid q = oid old ->
             (forall y, In y l1 -> oid y <> oid old) ->
             edit_phone old new r
             = (Ok tt, set_phones (l1 ++ l2 ++ [new]) r)).
  { intros l1 q l2 Hl Hq Hl1. unfold edit_phone, seq, remove_phone, add_phone.
    rewrite Hl, list_remove_first by assumption. simpl.
    unfold set_phones. simpl. rewrite <- app_assoc. reflexivity. }
  split; [|split; [exact Hfound|]].
  - intros H. unfold edit_phone, seq, remove_phone, add_phone.
    rewrite list_remove_absent by exact H. reflexivity.
  - intros H. destruct (first_occurrence old (phones r) H)
      as (l1 & q & l2 & Hl & Hq & Hl1).
    exists l1, q, l2. split; [exact Hl|]. split; [exact Hq|].
    split; [exact Hl1|]. exact (Hfound l1 q l2 Hl Hq Hl1).
Qed.

Lemma edit_phone_atomic_witness :
  edit_phone Sample.phone_c Sample.phone_a Sample.jan
  = (Raise ValueError, Sample.jan)
  /\ edit_phone Sample.phone_a Sample.phone_c Sample.jan
     = (Ok tt, set_phones [Sample.phone_b; Sample.phone_c] Sample.jan).
Proof.
  split.
  - apply (proj1 (edit_phone_atomic Sample.phone_c Sample.phone_a Sample.jan)).
    simpl. intros q [<-|[<-|[]]]; simpl; lia.
  - apply (proj1 (proj2 (edit_phone_atomic Sample.phone_a Sample.phone_c
                                           Sample.jan))
                 [] Sample.phone_a [Sample.phone_b]).
    + reflexivity.
    + reflexivity.
    + intros y [].
Defined.

(** C4 as stated fails: the claim speaks of phone values.  A phone with
    the value of an element of the list, but which is another object,
    counts as not present: [edit_phone] raises and the list keeps the
    old number, where the claim has the number replaced. *)
Lemma edit_phone_by_value_counterexample :
  let r := Sample.jan in
  let old := Sample.phone_a' in
  let new := Sample.phone_c in
  (exists q, In q (phones r) /\ value q = value old)
  /\ edit_phone old new r = (Raise ValueError, r)
  /\ (forall l1 q l2,
        phones r = l1 ++ q :: l2 -> value q = value old ->
        edit_phone old new r <> (Ok tt, set_phones (l1 ++ l2 ++ [new]) r)).
Proof.
  split; [|split].
  - exists Sample.phone_a. split; [left|]; reflexivity.
  - reflexivity.
  - intros l1 q l2 _ _ H0. discriminate H0.
Qed.

End RecordFacts.

(** ** Searching the book *)

Section FindFacts.
Import PyStr Find.

Lemma str_in_empty (s : string) : str_in "" s = true.
Proof. destruct s; reflexivity. Qed.

Lemma scan_fields_spec (t : string) (fields : list Field) (r : Record_)
      (found : list Record_) :
  scan_fields t fields r found =
  if existsb (fun f => str_in t (value f)) fields then found ++ [r] else found.
Proof.
  induction fields as [|f fields IH]; simpl; [reflexivity|].
  destruct (str_in t (value f)); simpl; auto.
Qed.

Lemma find_in_acc (t : string) (records acc : list Record_) :
  fold_left (find_step t) records acc = acc ++ find_in records t.
Proof.
  unfold find_in. revert acc.
  induction records as [|r records IH]; intros acc; simpl.
  - rewrite app_nil_r. reflexivity.
  - rewrite IH, (IH (find_step t [] r)). rewrite app_assoc. f_equal.
    unfold find_step. rewrite !scan_fields_spec.
    destruct (str_in (lower t) (lower (value (name r)))); [reflexivity|].
    destruct (existsb _ (phones r)), (existsb _ (emails r)); simpl;
      rewrite <- ?app_assoc, ?app_nil_r; reflexivity.
Qed.

(** What one record contributes to the result. *)
Lemma find_step_nil (t : string) (r : Record_) :
  find_step t [] r =
  if str_in (lower t) (lower (value (name r))) then [r]
  else (if existsb (fun f => str_in t (value f)) (phones r) then [r] else [])
       ++ (if existsb (fun f => str_in t (value f)) (emails r) then [r] else []).
Proof.
  unfold find_step. rewrite !scan_fields_spec.
  destruct (str_in (lower t) (lower (value (name r)))); [reflexivity|].
  destruct (existsb _ (phones r)), (existsb _ (emails r)); reflexivity.
Qed.

Lemma find_in_cons (t : string) (r : Record_) (records : list Record_) :
  find_in (r :: records) t = find_step t [] r ++ find_in records t.
Proof. unfold find_in at 1. simpl. apply find_in_acc. Qed.

(** A record is in the result exactly when it is in the book and the
    term occurs in its name (letter case ignored), in one of its phones
    or in one of its e-mail addresses. *)
Lemma find_step_membership (t : string) (r0 r : Record_) :
  In r (find_step t [] r0) <-> r0 = r /\ matches t r0 = true.
Proof.
  rewrite find_step_nil. unfold matches.
  set (a := str_in (lower t) (lower (value (name r0)))).
  set (b := existsb _ (phones r0)). set (c := existsb _ (emails r0)).
  destruct a, b, c; simpl; intuition discriminate.
Qed.

Lemma find_in_membership (t : string) (records : list Record_) (r : Record_) :
  In r (find_in records t) <-> In r records /\ matches t r = true.
Proof.
  induction records as [|r0 records IH]; [simpl; tauto|].
  rewrite find_in_cons, in_app_iff, IH, find_step_membership. simpl.
  split.
  - intros [[<- H]|[H1 H2]]; auto.
  - intros [[<-|H1] H2]; auto.
Qed.

(** C3: the claim says that no record is returned twice.  A record whose
    name does not contain the term, while one of its phones and one of
    its e-mail addresses do, is appended by both inner loops: the loop
    over the phones ends in [break], which leaves that loop only, where
    the test on the name ends in [continue]. *)
Theorem find_record_returns_record_twice :
  let book := ProjectEnd.add_record Sample.jan (ProjectEnd.mkBook []) in
  ProjectEnd.find_record book "1" = [Sample.jan; Sample.jan]
  /\ PersonalAssistant.find_record
       (snd (PersonalAssistant.add_record Sample.jan PersonalAssistant.init)) "1"
     = [set_id 1 Sample.jan; set_id 1 Sample.jan].
Proof. split; vm_compute; reflexivity. Qed.

(** C10: with the empty string as the term, [find_record] returns every
    record of the book, in the order of the book. *)
Theorem find_record_empty_term :
  (forall self : ProjectEnd.AddressBook,
      ProjectEnd.find_record self "" = PyDict.values (ProjectEnd.data self))
  /\ (forall self : PersonalAssistant.AddressBook,
        PersonalAssistant.find_record self ""
        = PyDict.values (PersonalAssistant.data self)).
Proof.
  assert (H : forall records, find_in records "" = records).
  { induction records as [|r records IH]; [reflexivity|].
    rewrite find_in_cons, find_step_nil, IH. simpl lower.
    rewrite str_in_empty. reflexivity. }
  split; intros self; apply H.
Qed.

End FindFacts.

(** ** Calendar arithmetic *)

Section DateFacts.
Import PyDate.

Lemma check_date_fields_spec (y m d : Z) :
  check_date_fields y m d = true <->
  1 <= y <= 9999 /\ 1 <= m <= 12 /\ 1 <= d <= days_in_month y m.
Proof.
  unfold check_date_fields, MINYEAR, MAXYEAR.
  rewrite !andb_true_iff, !Z.leb_le. tauto.
Qed.

Lemma month_cases (m : Z) :
  1 <= m <= 12 ->
  m = 1 \/ m = 2 \/ m = 3 \/ m = 4 \/ m = 5 \/ m = 6 \/ m = 7 \/ m = 8
  \/ m = 9 \/ m = 10 \/ m = 11 \/ m = 12.
Proof. lia. Qed.

Ltac each_month H :=
  apply month_cases in H;
  repeat (destruct H as [H|H]; [subst|]); [..|subst].

Lemma days_in_month_bounds (y m : Z) :
  1 <= m <= 12 -> 28 <= days_in_month y m <= 31.
Proof.
  intros H. each_month H; unfold days_in_month; simpl;
    destruct (is_leap y); simpl; lia.
Qed.

(** The months of a year follow one another without a gap. *)
Lemma days_before_month_next (y m1 m2 : Z) :
  1 <= m1 -> m1 < m2 -> m2 <= 12 ->
  days_before_month y m1 + days_in_month y m1 <= days_before_month y m2.
Proof.
  intros H1 H12 H2.
  assert (Hm1 : 1 <= m1 <= 12) by lia. assert (Hm2 : 1 <= m2 <= 12) by lia.
  each_month Hm1; each_month Hm2; try lia;
    unfold days_before_month, days_in_month; simpl;
    destruct (is_leap y); simpl; lia.
Qed.

Lemma days_before_month_bounds (y m : Z) :
  1 <= m <= 12 ->
  0 <= days_before_month y m
  /\ days_before_month y m + days_in_month y m
     <= (if is_leap y then 366 else 365).
Proof.
  intros H. each_month H; unfold days_before_month, days_in_month; simpl;
    destruct (is_leap y); simpl; lia.
Qed.

Lemma days_before_year_next (y : Z) :
  days_before_year (y + 1)
  = days_before_year y + (if is_leap y then 366 else 365).
Proof.
  unfold days_before_year, is_leap.
  replace (y + 1 - 1) with y by lia.
  destruct (Z.eqb_spec (y mod 4) 0), (Z.eqb_spec (y mod 100) 0),
    (Z.eqb_spec (y mod 400) 0); simpl;
    Z.div_mod_to_equations; lia.
Qed.

(** The day of the year. *)
Lemma day_of_year_bounds (y m d : Z) :
  1 <= m <= 12 -> 1 <= d <= days_in_month y m ->
  1 <= days_before_month y m + d <= (if is_leap y then 366 else 365).
Proof.
  intros Hm Hd. pose proof (days_before_month_bounds y m Hm). lia.
Qed.

Lemma day_of_year_mono (y m1 d1 m2 d2 : Z) :
  1 <= m1 <= 12 -> 1 <= d1 <= days_in_month y m1 ->
  1 <= m2 <= 12 -> 1 <= d2 <= days_in_month y m2 ->
  m1 < m2 \/ (m1 = m2 /\ d1 <= d2) ->
  days_before_month y m1 + d1 <= days_before_month y m2 + d2.
Proof.
  intros Hm1 Hd1 Hm2 Hd2 [Hlt|[-> Hle]]; [|lia].
  pose proof (days_before_month_next y m1 m2). lia.
Qed.

Lemma date_gt_spec (a b : date) :
  date_gt a b = true <->
  year b < year a
  \/ (year a = year b
      /\ (month b < month a \/ (month a = month b /\ day b < day a))).
Proof.
  unfold date_gt. simpl.
  destruct (Z.ltb_spec (year b) (year a)), (Z.eqb_spec (year a) (year b)),
    (Z.ltb_spec (month b) (month a)), (Z.eqb_spec (month a) (month b)),
    (Z.ltb_spec (day b) (day a)), (Z.eqb_spec (day a) (day b));
    simpl; split; intros; try discriminate; try reflexivity; lia.
Qed.

(** Within one year the ordinal follows the calendar. *)
Lemma ymd2ord_same_year (a b : date) :
  valid_date a -> valid_date b -> year a = year b ->
  date_gt a b = false -> ymd2ord a <= ymd2ord b.
Proof.
  unfold valid_date. rewrite !check_date_fields_spec.
  intros (_ & Hma & Hda) (_ & Hmb & Hdb) Hy Hgt. unfold ymd2ord.
  rewrite Hy in *. epose proof (day_of_year_mono (year b) (month a) (day a)
    (month b) (day b) Hma Hda Hmb Hdb _) as H. lia.
  Unshelve.
  destruct (Z.lt_trichotomy (month a) (month b)) as [?|[?|?]]; [left; lia| |].
  - right. split; [lia|]. destruct (Z.le_gt_cases (day a) (day b)); [lia|].
    enough (date_gt a b = true) by congruence.
    apply date_gt_spec. right. split; [lia|]. right. lia.
  - enough (date_gt a b = true) by congruence.
    apply date_gt_spec. right. split; [lia|]. left. lia.
Qed.

(** A date of the next year lies after every date of this year, by at
    most 366 days from the same month and day of this year. *)
Lemma ymd2ord_next_year (y m d m' d' : Z) :
  1 <= m <= 12 -> 1 <= d <= days_in_month y m ->
  1 <= m' <= 12 -> 1 <= d' <= days_in_month (y + 1) m' ->
  ymd2ord (mkDate y m d) < ymd2ord (mkDate (y + 1) m' d').
Proof.
  intros Hm Hd Hm' Hd'. unfold ymd2ord. simpl.
  rewrite days_before_year_next.
  pose proof (day_of_year_bounds y m d Hm Hd).
  pose proof (day_of_year_bounds (y + 1) m' d' Hm' Hd'). lia.
Qed.

Lemma ymd2ord_year_span (y m d : Z) :
  1 <= m <= 12 ->
  ymd2ord (mkDate (y + 1) m d) - ymd2ord (mkDate y m d) <= 366.
Proof.
  intros Hm. unfold ymd2ord. simpl. rewrite days_before_year_next.
  assert (Hstep : days_before_month (y + 1) m <= days_before_month y m + 1).
  { unfold days_before_month.
    destruct (2 <? m); simpl; destruct (is_leap (y + 1)), (is_leap y); lia. }
  assert (Hleap : is_leap y = true -> is_leap (y + 1) = false).
  { unfold is_leap. intros Hy.
    destruct (Z.eqb_spec (y mod 4) 0); [|discriminate].
    destruct (Z.eqb_spec ((y + 1) mod 4) 0); [|reflexivity].
    exfalso. Z.div_mod_to_equations. lia. }
  destruct (is_leap y) eqn:Hy; cbv iota; [|lia].
  unfold days_before_month in *. rewrite Hy, (Hleap eq_refl) in *.
  destruct (2 <? m); simpl in *; lia.
Qed.

End DateFacts.

(** ** Birthdays *)

Section BirthdayFacts.
Import PyDate.

Lemma strptime_valid (s : string) (t : datetime) :
  strptime s = Ok t ->
  valid_date (dt_date t)
  /\ hour t = 0 /\ minute t = 0 /\ second t = 0 /\ microsecond t = 0.
Proof.
  unfold strptime. destruct (parse_ymd s) as [[[y m] d]|]; [|discriminate].
  unfold make_date, valid_date.
  destruct (check_date_fields y m d) eqn:Hc; simpl; [|discriminate].
  intros [= <-]. simpl. auto.
Qed.

(** Outside 29 February, the month and day of a date exist in any year. *)
Lemma replace_year_every_year (bd : date) (y : Z) :
  valid_date bd -> 1 <= y <= 9999 ->
  (month bd =? 2) && (day bd =? 29) = false ->
  date_replace_year bd y = Ok (mkDate y (month bd) (day bd))
  /\ 1 <= month bd <= 12 /\ 1 <= day bd <= days_in_month y (month bd).
Proof.
  unfold valid_date, date_replace_year, make_date.
  rewrite check_date_fields_spec. intros (_ & Hm & Hd) Hy Hne.
  assert (Hdim : 1 <= day bd <= days_in_month y (month bd)).
  { revert Hd Hne. unfold days_in_month.
    destruct (Z.eqb_spec (month bd) 2) as [->|Hm2]; simpl.
    - destruct (Z.eqb_spec (day bd) 29); [discriminate|].
      destruct (is_leap (year bd)), (is_leap y); simpl; lia.
    - tauto. }
  assert (Hc : check_date_fields y (month bd) (day bd) = true)
    by (apply check_date_fields_spec; lia).
  rewrite Hc. auto.
Qed.

Lemma days_until_today (today bd : date) :
  month bd = month today -> day bd = day today ->
  Spec.days_until today bd = 0.
Proof.
  intros Hm Hd. unfold Spec.days_until, Spec.next_occurrence.
  rewrite Hm, Hd.
  assert (Hgt : date_gt today (mkDate (year today) (month today) (day today))
                = false).
  { destruct (date_gt today _) eqn:H; [|reflexivity].
    apply date_gt_spec in H. simpl in H. lia. }
  rewrite Hgt. destruct today; simpl. lia.
Qed.

Lemma strptime_raises (s : string) (e : exn) :
  strptime s = Raise e -> e = ValueError.
Proof.
  unfold strptime. destruct (parse_ymd s) as [[[y m] d]|]; [|congruence].
  unfold make_date. destruct (check_date_fields y m d); simpl; congruence.
Qed.

Lemma leap_then_common (y : Z) : is_leap y = true -> is_leap (y + 1) = false.
Proof.
  unfold is_leap. intros Hy.
  destruct (Z.eqb_spec (y mod 4) 0); [|discriminate].
  destruct (Z.eqb_spec ((y + 1) mod 4) 0); [|reflexivity].
  exfalso. Z.div_mod_to_equations. lia.
Qed.

Lemma days_until_placed (today bd : date) :
  valid_date today ->
  Spec.falls_in (year today) bd = true ->
  Spec.falls_in (year (Spec.next_occurrence today bd)) bd = true ->
  0 <= Spec.days_until today bd <= 366.
Proof.
  intros Ht H1 H2.
  pose proof Ht as Ht'. unfold valid_date in Ht'.
  apply check_date_fields_spec in Ht' as (Hty & Htm & Htd).
  unfold Spec.falls_in in H1, H2.
  apply check_date_fields_spec in H1 as (_ & Hm & Hd1).
  set (this := mkDate (year today) (month bd) (day bd)).
  assert (Hthis : valid_date this)
    by (apply check_date_fields_spec; simpl; lia).
  unfold Spec.days_until. unfold Spec.next_occurrence in *. fold this in H2.
  fold this. destruct (date_gt today this) eqn:Hgt.
  - simpl in H2. apply check_date_fields_spec in H2 as (_ & _ & Hd2).
    pose proof (ymd2ord_next_year (year today) (month today) (day today)
                  (month bd) (day bd) Htm Htd Hm Hd2) as Hlt.
    pose proof (ymd2ord_year_span (year today) (month bd) (day bd) Hm) as Hsp.
    assert (Hle : ymd2ord this <= ymd2ord today).
    { apply ymd2ord_same_year; auto.
      destruct (date_gt this today) eqn:Hgt'; [|reflexivity].
      apply date_gt_spec in Hgt. apply date_gt_spec in Hgt'.
      simpl in *. lia. }
    destruct today as [ty tm td]. simpl in *. fold this in Hsp. lia.
  - pose proof (ymd2ord_same_year today this Ht Hthis eq_refl Hgt) as Hle.
    pose proof (day_of_year_bounds (year today) (month bd) (day bd) Hm Hd1).
    pose proof (day_of_year_bounds (year today) (month today) (day today)
                  Htm Htd).
    unfold ymd2ord in *. simpl in *. destruct (is_leap (year today)); lia.
Qed.

Lemma upcoming_step_placed (today : date) (days : Z) (r : Record_)
      (acc : list string) :
  ProjectEnd.upcoming_step today days r acc
  = if Spec.placed today r
    then Ok (if Spec.due today days r then acc ++ [name_of r] else acc)
    else Raise ValueError.
Proof.
  unfold ProjectEnd.upcoming_step, Spec.placed, Spec.due, Spec.birthdate_of,
    name_of.
  destruct (birthday r) as [b|]; [|reflexivity].
  destruct (strptime (value b)) as [t|e] eqn:Hs; cbn [mbind result_bind].
  - unfold date_replace_year, make_date, Spec.falls_in, Spec.days_until,
      Spec.next_occurrence, date_sub_days.
    destruct (check_date_fields (year today) (month (date_of t))
                                (day (date_of t))) eqn:E1;
      cbn [mbind result_bind andb]; [|reflexivity].
    destruct (date_gt today _) eqn:Hgt; cbn [year month day].
    + destruct (check_date_fields (year today + 1) (month (date_of t))
                                  (day (date_of t))) eqn:E2;
        cbn [mbind result_bind]; [|reflexivity].
      destruct (_ <=? days); reflexivity.
    + rewrite E1. cbn [mbind result_bind].
      destruct (_ <=? days); reflexivity.
  - rewrite (strptime_raises _ _ Hs). reflexivity.
Qed.

Lemma upcoming_loop_placed (today : date) (days : Z)
      (records : list Record_) (acc : list string) :
  ProjectEnd.upcoming_loop today days records acc
  = if forallb (Spec.placed today) records
    then Ok (acc ++ map name_of (List.filter (Spec.due today days) records))
    else Raise ValueError.
Proof.
  revert acc. induction records as [|r records IH]; intros acc; simpl.
  - rewrite app_nil_r. reflexivity.
  - rewrite upcoming_step_placed.
    destruct (Spec.placed today r); cbn [mbind result_bind andb];
      [|reflexivity].
    rewrite IH. destruct (forallb (Spec.placed today) records);
      [|reflexivity].
    destruct (Spec.due today days r); simpl; [|reflexivity].
    rewrite <- app_assoc. reflexivity.
Qed.

Lemma due_negative_placed (today : date) (days : Z) (r : Record_) :
  valid_date today -> Spec.placed today r = true -> days < 0 ->
  Spec.due today days r = false.
Proof.
  intros Ht Hr Hneg. unfold Spec.due, Spec.placed, Spec.birthdate_of in *.
  destruct (birthday r) as [b|]; [|reflexivity].
  destruct (strptime (value b)) as [t|]; [|reflexivity].
  apply andb_prop in Hr as [H1 H2].
  pose proof (days_until_placed today (date_of t) Ht H1 H2).
  apply Z.leb_gt. lia.
Qed.

Lemma every_year_placed (today : date) (r : Record_) :
  valid_date today -> year today < 9999 -> Spec.every_year r = true ->
  Spec.placed today r = true.
Proof.
  intros Ht Hy. pose proof Ht as Ht'. unfold valid_date in Ht'.
  apply check_date_fields_spec in Ht' as (Hty & _).
  unfold Spec.every_year, Spec.placed.
  destruct (birthday r) as [b|]; [|reflexivity].
  destruct (strptime (value b)) as [t|] eqn:Hs; [|discriminate].
  intros Hne. apply negb_true_iff in Hne.
  apply strptime_valid in Hs as (Hv & _). fold (date_of t) in Hv.
  destruct (replace_year_every_year _ (year today) Hv ltac:(lia) Hne)
    as (_ & Hm & Hd1).
  destruct (replace_year_every_year _ (year today + 1) Hv ltac:(lia) Hne)
    as (_ & _ & Hd2).
  unfold Spec.falls_in, Spec.next_occurrence.
  apply andb_true_iff. split.
  - apply check_date_fields_spec. lia.
  - destruct (date_gt today _); simpl; apply check_date_fields_spec; lia.
Qed.

Lemma leap_day_placed (today : date) (r : Record_) (bday : date) :
  valid_date today -> Spec.birthdate_of r = Some bday ->
  month bday = 2 -> day bday = 29 ->
  Spec.placed today r = true
  <-> is_leap (year today) = true
      /\ date_gt today (mkDate (year today) 2 29) = false.
Proof.
  intros Ht Hb Hm Hd. pose proof Ht as Ht'. unfold valid_date in Ht'.
  apply check_date_fields_spec in Ht' as (Hty & _).
  unfold Spec.birthdate_of, Spec.placed in *.
  destruct (birthday r) as [b|]; [|discriminate].
  destruct (strptime (value b)) as [t|]; [|discriminate].
  injection Hb as Hb. rewrite Hb.
  unfold Spec.falls_in, Spec.next_occurrence. rewrite Hm, Hd.
  rewrite andb_true_iff, !check_date_fields_spec.
  destruct (date_gt today (mkDate (year today) 2 29)) eqn:Hgt; simpl;
    unfold days_in_month; simpl.
  - split; [|intros [_ H0]; discriminate H0].
    intros [(_ & _ & H1) (_ & _ & H2)].
    destruct (is_leap (year today)) eqn:Hl; [|simpl in H1; lia].
    rewrite (leap_then_common _ Hl) in H2. simpl in H2. lia.
  - split.
    + intros [(_ & _ & H1) _].
      destruct (is_leap (year today)); [auto|simpl in H1; lia].
    + intros [Hl _]. rewrite Hl. simpl. lia.
Qed.




(** C5: the claim says that the time of day is ignored.  [today] is
    [datetime.now()], a date with its time, and the birthday is at
    midnight: for a contact born on 2000-03-15 the result is 5 on
    2024-03-10 at midnight only, it is 4 at noon of that day, and on the
    birthday itself at noon the date counts as passed and the result is
    364.  [upcoming_birthdays] takes [.date()] of both and has neither
    effect. *)
Theorem days_to_birthday_depends_on_time_of_day :
  let r := Sample.born "Jan" "2000-03-15" in
  days_to_birthday (Sample.at_time 2024 3 10 0) r = Ok (PyInt 5)
  /\ days_to_birthday (Sample.at_time 2024 3 10 12) r = Ok (PyInt 4)
  /\ days_to_birthday (Sample.at_time 2024 3 20 0) r = Ok (PyInt 360)
  /\ days_to_birthday (Sample.at_time 2024 3 20 12) r = Ok (PyInt 359)
  /\ days_to_birthday (Sample.at_time 2024 3 15 12) r = Ok (PyInt 364).
Proof. repeat split. Qed.

(** C6: the claim says that the call completes for every valid birthdate,
    29 February included.  [replace(year=...)] raises [ValueError] when
    the year it is given has no such day. *)
Theorem days_to_birthday_raises_on_leap_day :
  let r := Sample.born "Ewa" "2000-02-29" in
  validate_birthday "2000-02-29" = true
  /\ days_to_birthday (Sample.at_time 2023 1 1 0) r = Raise ValueError
  /\ days_to_birthday (Sample.at_time 2024 3 1 0) r = Raise ValueError.
Proof. repeat split. Qed.

(** *** The result of [days_to_birthday] when it returns *)

Lemma tuple_gt_cons (x y : Z) (a b : list Z) :
  tuple_gt (x :: a) (y :: b) = true <->
  y < x \/ (x = y /\ tuple_gt a b = true).
Proof.
  simpl. rewrite orb_true_iff, andb_true_iff, Z.ltb_lt, Z.eqb_eq. tauto.
Qed.

Lemma replace_year_spec (t t' : datetime) (y : Z) :
  replace_year t y = Ok t' ->
  valid_date (dt_date t')
  /\ dt_date t' = mkDate y (month (dt_date t)) (day (dt_date t))
  /\ hour t' = hour t /\ minute t' = minute t /\ second t' = second t
  /\ microsecond t' = microsecond t.
Proof.
  unfold replace_year, date_replace_year, make_date, valid_date.
  destruct (check_date_fields y _ _) eqn:Hc; simpl; [|discriminate].
  intros [= <-]. simpl. repeat split; auto.
Qed.

(** Subtracting a time of day from a whole number of days. *)
Lemma timedelta_days_bounds (d s u : Z) :
  0 <= s < 86400 -> 0 <= u < 1000000 ->
  d - 1 <= timedelta_days d (0 - s) (0 - u) <= d
  /\ (s = 0 -> u = 0 -> timedelta_days d (0 - s) (0 - u) = d).
Proof.
  intros Hs Hu. unfold timedelta_days. split.
  - split.
    + apply Z.div_le_lower_bound; lia.
    + apply Z.div_le_upper_bound; lia.
  - intros -> ->. rewrite !Z.sub_0_r, Z.add_0_r, Z.add_0_r.
    apply Z.div_mul. lia.
Qed.

Lemma seconds_of_day_bounds (t : datetime) :
  valid_datetime t -> 0 <= seconds_of_day t < 86400.
Proof. unfold valid_datetime, seconds_of_day. lia. Qed.

(** Whenever [days_to_birthday] returns a number, it is between 0 and
    366. *)
Lemma days_to_birthday_bounds (now : datetime) (r : Record_) (n : Z) :
  valid_datetime now ->
  days_to_birthday now r = Ok (PyInt n) -> 0 <= n <= 366.
Proof.
  intros Hnow. pose proof (seconds_of_day_bounds now Hnow) as Hsec.
  destruct Hnow as (Ht & Hh & Hmi & Hse & Hus).
  pose proof Ht as Ht'. unfold valid_date in Ht'.
  apply check_date_fields_spec in Ht' as (Hty & Htm & Htd).
  unfold days_to_birthday.
  destruct (birthday r) as [b|]; [|discriminate].
  destruct (String.eqb (value b) ""); [discriminate|].
  destruct (strptime (value b)) as [t|] eqn:Hs; simpl; [|discriminate].
  apply strptime_valid in Hs as (_ & H0h & H0m & H0s & H0u).
  destruct (replace_year t (year (dt_date now))) as [t1|] eqn:H1; simpl;
    [|discriminate].
  apply replace_year_spec in H1 as (Hv1 & Hd1 & H1h & H1m & H1s & H1u).
  pose proof Hv1 as Hv1'. unfold valid_date in Hv1'. rewrite Hd1 in Hv1'.
  simpl in Hv1'. apply check_date_fields_spec in Hv1' as (_ & Hbm & Hbd).
  pose proof (day_of_year_bounds _ _ _ Hbm Hbd) as Hdoy1.
  pose proof (day_of_year_bounds _ _ _ Htm Htd) as Hdoy0.
  destruct (datetime_gt now t1) eqn:Hgt.
  - destruct (replace_year t1 (year (dt_date now) + 1)) as [t2|] eqn:H2;
      simpl; [|discriminate].
    apply replace_year_spec in H2 as (Hv2 & Hd2 & H2h & H2m & H2s & H2u).
    rewrite Hd1 in Hd2. simpl in Hd2.
    pose proof Hv2 as Hv2'. unfold valid_date in Hv2'. rewrite Hd2 in Hv2'.
    simpl in Hv2'. apply check_date_fields_spec in Hv2' as (_ & _ & Hbd2).
    intros [= <-]. unfold datetime_sub_days.
    assert (E2 : seconds_of_day t2 = 0) by (unfold seconds_of_day; lia).
    rewrite E2, H2u, H1u, H0u, Hd2.
    destruct (timedelta_days_bounds
                (ymd2ord (mkDate (year (dt_date now) + 1) (month (dt_date t))
                                 (day (dt_date t))) - ymd2ord (dt_date now))
                (seconds_of_day now) (microsecond now) Hsec Hus) as [Hb _].
    pose proof (ymd2ord_next_year (year (dt_date now)) (month (dt_date now))
                  (day (dt_date now)) _ _ Htm Htd Hbm Hbd2) as Hlt.
    pose proof (ymd2ord_year_span (year (dt_date now)) (month (dt_date t))
                  (day (dt_date t)) Hbm) as Hsp.
    assert (Hle : ymd2ord (dt_date t1) <= ymd2ord (dt_date now)).
    { apply ymd2ord_same_year; auto; [rewrite Hd1; reflexivity|].
      destruct (date_gt (dt_date t1) (dt_date now)) eqn:Hgt'; [|reflexivity].
      exfalso. apply date_gt_spec in Hgt'. rewrite Hd1 in Hgt'. simpl in Hgt'.
      unfold datetime_gt, dt_fields in Hgt. rewrite Hd1 in Hgt. simpl dt_date in Hgt.
      simpl year in Hgt. simpl month in Hgt. simpl day in Hgt.
      rewrite !tuple_gt_cons in Hgt. lia. }
    rewrite Hd1 in Hle.
    destruct (dt_date now) as [ty tm td]. simpl in *. lia.
  - intros [= <-]. unfold datetime_sub_days.
    assert (E1 : seconds_of_day t1 = 0) by (unfold seconds_of_day; lia).
    rewrite E1, H1u, H0u, Hd1.
    destruct (timedelta_days_bounds
                (ymd2ord (mkDate (year (dt_date now)) (month (dt_date t))
                                 (day (dt_date t))) - ymd2ord (dt_date now))
                (seconds_of_day now) (microsecond now) Hsec Hus) as [Hb Hz].
    assert (Hcmp : tuple_gt (dt_fields now) (dt_fields t1) <> true)
      by (unfold datetime_gt in Hgt; congruence).
    unfold dt_fields in Hcmp.
    rewrite Hd1, H1h, H1m, H1s, H1u, H0h, H0m, H0s, H0u in Hcmp.
    rewrite !tuple_gt_cons in Hcmp.
    unfold ymd2ord in *. simpl in *.
    destruct (Z.lt_trichotomy (month (dt_date now)) (month (dt_date t)))
      as [Hm|[Hm|Hm]].
    + pose proof (days_before_month_next (year (dt_date now))
                    (month (dt_date now)) (month (dt_date t))
                    ltac:(lia) Hm ltac:(lia)).
      destruct (is_leap (year (dt_date now))); lia.
    + rewrite Hm in *.
      destruct (Z.lt_trichotomy (day (dt_date now)) (day (dt_date t)))
        as [Hd|[Hd|Hd]].
      * destruct (is_leap (year (dt_date now))); lia.
      * assert (Hzero : seconds_of_day now = 0 /\ microsecond now = 0)
          by (unfold seconds_of_day; lia).
        destruct Hzero as [Hz1 Hz2]. rewrite (Hz Hz1 Hz2). lia.
      * exfalso. apply Hcmp. lia.
    + exfalso. apply Hcmp. lia.
Qed.

(** [find_by_birthday_range] goes through [days_to_birthday] and so
    through the time of day: at noon on the birthday the contact is not
    within 0 days, while [upcoming_birthdays] lists it. *)
Lemma find_by_birthday_range_misses_today :
  let book := Sample.book_of [Sample.born "Jan" "2000-03-15"] in
  let now := Sample.at_time 2024 3 15 12 in
  ProjectEnd.find_by_birthday_range now 0 book = Ok []
  /\ ProjectEnd.upcoming_birthdays now 0 book = Ok ["Jan"].
Proof. split; reflexivity. Qed.

End BirthdayFacts.

(** ** Dictionaries *)

Section DictFacts.
Context {K V : Type} `{EqDecision K}.
Implicit Types (k : K) (v : V) (d : list (K * V)).

Lemma contains_spec k d : PyDict.contains k d = true <-> k ∈ PyDict.keys d.
Proof.
  unfold PyDict.keys. induction d as [|[k' v'] d IH]; simpl.
  - split; [discriminate|]. intros H0. inversion H0.
  - rewrite elem_of_cons. destruct (decide (k' = k)) as [->|Hne].
    + tauto.
    + rewrite IH. split; [tauto|]. intros [->|H0]; [contradiction|exact H0].
Qed.

Lemma contains_false k d : PyDict.contains k d = false <-> k ∉ PyDict.keys d.
Proof.
  rewrite <- contains_spec. destruct (PyDict.contains k d); split; auto;
    try discriminate. intros H0. exfalso. apply H0. reflexivity.
Qed.

Lemma keys_setitem k v d :
  PyDict.keys (PyDict.setitem k v d)
  = if PyDict.contains k d then PyDict.keys d else PyDict.keys d ++ [k].
Proof.
  unfold PyDict.keys. induction d as [|[k' v'] d IH]; simpl; [reflexivity|].
  destruct (decide (k' = k)); simpl; [reflexivity|].
  rewrite IH. destruct (PyDict.contains k d); reflexivity.
Qed.

Lemma keys_delitem_subset k k' d :
  k' ∈ PyDict.keys (PyDict.delitem k d) -> k' ∈ PyDict.keys d.
Proof.
  unfold PyDict.keys. induction d as [|[k0 v0] d IH]; simpl; [auto|].
  destruct (decide (k0 = k)); simpl; rewrite ?elem_of_cons; intuition.
Qed.

Lemma keys_delitem_ne k k' d :
  k' <> k -> k' ∈ PyDict.keys d -> k' ∈ PyDict.keys (PyDict.delitem k d).
Proof.
  unfold PyDict.keys. intros Hne.
  induction d as [|[k0 v0] d IH]; simpl; [auto|].
  destruct (decide (k0 = k)) as [->|]; simpl; rewrite ?elem_of_cons;
    intuition congruence.
Qed.

Lemma keys_delitem_NoDup k d :
  NoDup (PyDict.keys d) ->
  NoDup (PyDict.keys (PyDict.delitem k d)) /\ k ∉ PyDict.keys (PyDict.delitem k d).
Proof.
  induction d as [|[k0 v0] d IH]; simpl.
  - split; [constructor|]. intros H0. inversion H0.
  - intros [Hk0 Hd]%NoDup_cons. destruct (decide (k0 = k)) as [->|Hne].
    + split; assumption.
    + destruct (IH Hd) as [IH1 IH2]. split.
      * simpl. apply NoDup_cons. split; [|exact IH1].
        intros H0. apply Hk0. eapply keys_delitem_subset, H0.
      * simpl. rewrite elem_of_cons. intros [->|H0]; [congruence|auto].
Qed.

End DictFacts.

(** ** Identifier allocation *)

Section AllocFacts.
Import PersonalAssistant Invariant.

Lemma foldr_min_spec (l : list Z) (x : Z) :
  foldr Z.min x l ∈ x :: l /\ forall y, y ∈ x :: l -> foldr Z.min x l <= y.
Proof.
  induction l as [|z l [IH1 IH2]]; simpl.
  - split; [left|]. intros y Hy. apply list_elem_of_singleton in Hy. lia.
  - split.
    + destruct (Z.min_spec z (foldr Z.min x l)) as [[_ ->]|[_ ->]].
      * right. left.
      * apply elem_of_cons in IH1 as [->|IH1]; [left|right; right; exact IH1].
    + intros y Hy. apply elem_of_cons in Hy as [Hyx|Hy].
      * pose proof (IH2 x ltac:(left)). lia.
      * apply elem_of_cons in Hy as [Hyz|Hy]; [lia|].
        pose proof (IH2 y ltac:(right; exact Hy)). lia.
Qed.

Lemma set_min_None (s : gset Z) : set_min s = None <-> s = ∅.
Proof.
  unfold set_min. destruct (elements s) as [|x l] eqn:He.
  - split; [|reflexivity]. intros _. apply elements_empty_inv in He.
    apply leibniz_equiv. exact He.
  - split; [discriminate|]. intros ->. rewrite elements_empty in He.
    discriminate.
Qed.

Lemma set_min_Some (s : gset Z) (m : Z) :
  set_min s = Some m -> m ∈ s /\ forall y, y ∈ s -> m <= y.
Proof.
  unfold set_min. destruct (elements s) as [|x l] eqn:He; [discriminate|].
  intros [= <-]. destruct (foldr_min_spec l x) as [H1 H2].
  rewrite <- He in H1, H2. split.
  - apply elem_of_elements. exact H1.
  - intros y Hy. apply H2, elem_of_elements. exact Hy.
Qed.

(** The smallest element of a set that has a lower bound in it. *)
Lemma set_min_least (s : gset Z) (k : Z) :
  k ∈ s -> (forall y, y ∈ s -> k <= y) -> set_min s = Some k.
Proof.
  intros Hk Hle. destruct (set_min s) as [m|] eqn:Hm.
  - apply set_min_Some in Hm as [Hm1 Hm2].
    f_equal. pose proof (Hle m Hm1). pose proof (Hm2 k Hk). lia.
  - apply set_min_None in Hm. subst. set_solver.
Qed.

(** *** The loop that advances the counter *)

Lemma is_used_spec data free n :
  is_used data free n = true <-> n ∈ PyDict.keys data \/ n ∈ free.
Proof.
  unfold is_used. rewrite orb_true_iff, contains_spec, bool_decide_eq_true.
  tauto.
Qed.

Lemma skip_used_ge fuel data free n : n <= skip_used fuel data free n.
Proof.
  revert n. induction fuel as [|fuel IH]; intros n; simpl; [lia|].
  destruct (_ || _); [|lia]. pose proof (IH (n + 1)). lia.
Qed.

Lemma used_from_step_le (l : list Z) (n : Z) :
  (length (List.filter (fun k => (n + 1 <=? k)%Z) l)
   <= length (List.filter (fun k => (n <=? k)%Z) l))%nat.
Proof.
  induction l as [|x l IH]; simpl; [lia|].
  destruct (Z.leb_spec (n + 1) x), (Z.leb_spec n x); simpl; lia.
Qed.

Lemma used_from_step_lt (l : list Z) (n : Z) :
  n ∈ l ->
  (length (List.filter (fun k => (n + 1 <=? k)%Z) l)
   < length (List.filter (fun k => (n <=? k)%Z) l))%nat.
Proof.
  induction l as [|x l IH]; intros Hin; [inversion Hin|].
  simpl. pose proof (used_from_step_le l n).
  apply elem_of_cons in Hin as [<-|Hin].
  - destruct (Z.leb_spec (n + 1) n), (Z.leb_spec n n); simpl; lia.
  - specialize (IH Hin).
    destruct (Z.leb_spec (n + 1) x), (Z.leb_spec n x); simpl; lia.
Qed.

(** With more fuel than identifiers in use, the loop ends on its own
    condition: the counter it returns is neither a key nor free. *)
Lemma skip_used_spec fuel data free n :
  (length (used_from data free n) < fuel)%nat ->
  is_used data free (skip_used fuel data free n) = false.
Proof.
  revert n. induction fuel as [|fuel IH]; intros n Hfuel; [lia|].
  simpl. fold (is_used data free n).
  destruct (is_used data free n) eqn:Hu; [|exact Hu].
  apply IH. apply is_used_spec in Hu.
  assert (Hin : n ∈ PyDict.keys data ++ elements free).
  { apply elem_of_app. rewrite elem_of_elements. exact Hu. }
  pose proof (used_from_step_lt _ n Hin). unfold used_from in *. lia.
Qed.

Lemma loop_fuel_enough (b : AddressBook) :
  (length (used_from (data b) (free_ids b) (next_id b)) < loop_fuel b)%nat.
Proof.
  unfold used_from, loop_fuel, PyDict.keys.
  pose proof (filter_length (fun k => next_id b <=? k)
                (map fst (data b) ++ elements (free_ids b))) as Hle.
  rewrite length_app, length_map in Hle. unfold size, set_size. simpl. lia.
Qed.

Lemma advanced_spec (b : AddressBook) :
  next_id b <= advanced b
  /\ (advanced b ∉ PyDict.keys (data b)) /\ (advanced b ∉ free_ids b).
Proof.
  split; [apply skip_used_ge|].
  pose proof (skip_used_spec _ _ _ _ (loop_fuel_enough b)) as Hu.
  fold (advanced b) in Hu.
  split; intros Hin;
    assert (Ht : is_used (data b) (free_ids b) (advanced b) = true)
      by (apply is_used_spec; auto); congruence.
Qed.

Lemma skip_used_least (fuel : nat) (d : list (Z * Record_)) (free : gset Z)
      (n j : Z) :
  n <= j < skip_used fuel d free n -> is_used d free j = true.
Proof.
  revert n. induction fuel as [|fuel IH]; intros n Hj; simpl in Hj; [lia|].
  fold (is_used d free n) in Hj.
  destruct (is_used d free n) eqn:Hn; [|lia].
  destruct (Z.eq_dec j n) as [->|Hne]; [exact Hn|].
  apply (IH (n + 1)). lia.
Qed.

Lemma skip_used_stay (fuel : nat) (d : list (Z * Record_)) (free : gset Z)
      (n : Z) :
  is_used d free n = false -> skip_used fuel d free n = n.
Proof.
  intros Hn. destruct fuel as [|fuel]; simpl; [reflexivity|].
  fold (is_used d free n). rewrite Hn. reflexivity.
Qed.

Lemma add_record_unfold (r : Record_) (b : AddressBook) :
  add_record r b =
  match set_min (free_ids b) with
  | Some i =>
      (i, mkBook (PyDict.setitem i (set_id i r) (data b))
                 (advanced b) (free_ids b ∖ {[i]}))
  | None =>
      (advanced b,
       mkBook (PyDict.setitem (advanced b) (set_id (advanced b) r) (data b))
              (advanced b + 1) (free_ids b))
  end.
Proof. reflexivity. Qed.

Lemma keys_setitem_new (k : Z) (v : Record_) (d : list (Z * Record_)) :
  k ∉ PyDict.keys d -> PyDict.keys (PyDict.setitem k v d) = PyDict.keys d ++ [k].
Proof.
  intros Hk. rewrite keys_setitem.
  apply contains_false in Hk. rewrite Hk. reflexivity.
Qed.

Lemma NoDup_snoc (l : list Z) (k : Z) : NoDup l -> k ∉ l -> NoDup (l ++ [k]).
Proof.
  intros Hl Hk. apply NoDup_app. split; [exact Hl|]. split.
  - intros x Hx Hxk. apply list_elem_of_singleton in Hxk. subst. auto.
  - apply NoDup_singleton.
Qed.

(** *** The invariant is kept *)

Lemma add_record_holds (r : Record_) (b : AddressBook) :
  holds b -> holds (snd (add_record r b)).
Proof.
  intros [Hnd Hnf Hca]. rewrite add_record_unfold.
  destruct (advanced_spec b) as (Hge & Hnk & Hnfree).
  destruct (set_min (free_ids b)) as [i|] eqn:Hmin; simpl.
  - apply set_min_Some in Hmin as [Hi _].
    assert (Hik : i ∉ PyDict.keys (data b)) by (intros H0; exact (Hnf i H0 Hi)).
    split; simpl; rewrite keys_setitem_new by exact Hik.
    + apply NoDup_snoc; assumption.
    + intros k [Hk|Hk]%elem_of_app.
      * intros [Hfree _]%elem_of_difference. exact (Hnf k Hk Hfree).
      * apply list_elem_of_singleton in Hk. subst.
        intros [_ Hne]%elem_of_difference.
        apply Hne, elem_of_singleton. reflexivity.
    + intros k [[Hk|Hk]%elem_of_app|Hk].
      * pose proof (Hca k (or_introl Hk)). lia.
      * apply list_elem_of_singleton in Hk. subst.
        pose proof (Hca i (or_intror Hi)). lia.
      * apply elem_of_difference in Hk as [Hk' _].
        pose proof (Hca k (or_intror Hk')). lia.
  - split; simpl; rewrite keys_setitem_new by exact Hnk.
    + apply NoDup_snoc; assumption.
    + intros k [Hk|Hk]%elem_of_app; [auto|].
      apply list_elem_of_singleton in Hk. subst. exact Hnfree.
    + intros k [[Hk|Hk]%elem_of_app|Hk].
      * pose proof (Hca k (or_introl Hk)). lia.
      * apply list_elem_of_singleton in Hk. lia.
      * pose proof (Hca k (or_intror Hk)). lia.
Qed.

Lemma delete_record_by_id_holds (input : option Z) (b : AddressBook) :
  holds b -> holds (delete_record_by_id input b).
Proof.
  intros Hb. destruct input as [k|]; simpl; [|exact Hb].
  destruct (PyDict.contains k (data b)) eqn:Hc; [|exact Hb].
  destruct Hb as [Hnd Hnf Hca]. apply contains_spec in Hc.
  destruct (keys_delitem_NoDup k (data b) Hnd) as [Hnd' Hk'].
  split; simpl.
  - exact Hnd'.
  - intros j Hj. pose proof (keys_delitem_subset _ _ _ Hj) as Hj0.
    intros [Hjk|Hfree]%elem_of_union.
    + apply elem_of_singleton in Hjk. subst. contradiction.
    + exact (Hnf j Hj0 Hfree).
  - intros j [Hj|Hj].
    + apply Hca. left. eapply keys_delitem_subset, Hj.
    + apply elem_of_union in Hj as [Hj|Hj].
      * apply elem_of_singleton in Hj. subst. apply Hca. left. exact Hc.
      * apply Hca. right. exact Hj.
Qed.

Lemma init_holds : holds init.
Proof.
  split; simpl.
  - constructor.
  - intros k Hk. inversion Hk.
  - intros k [Hk|Hk]; [inversion Hk|set_solver].
Qed.

Lemma step_holds (b : AddressBook) (o : op) : holds b -> holds (step b o).
Proof.
  destruct o; simpl; [apply add_record_holds|apply delete_record_by_id_holds].
Qed.

Lemma run_holds (ops : list op) (b : AddressBook) :
  holds b -> holds (run ops b).
Proof.
  revert b. induction ops as [|o ops IH]; intros b Hb; [exact Hb|].
  simpl. apply IH, step_holds, Hb.
Qed.

Lemma step_next_id_mono (b : AddressBook) (o : op) :
  next_id b <= next_id (step b o).
Proof.
  destruct o as [r|input]; simpl.
  - rewrite add_record_unfold. destruct (advanced_spec b) as (Hge & _).
    destruct (set_min (free_ids b)); simpl; lia.
  - destruct input as [k|]; simpl; [|lia].
    destruct (PyDict.contains k (data b)); simpl; lia.
Qed.

(** In a book where the invariant holds, the identifier [add_record]
    assigns is not a key. *)
Lemma add_record_fresh_key (r : Record_) (b : AddressBook) :
  holds b -> fst (add_record r b) ∉ PyDict.keys (data b).
Proof.
  intros [Hnd Hnf Hca]. rewrite add_record_unfold.
  destruct (advanced_spec b) as (_ & Hnk & _).
  destruct (set_min (free_ids b)) as [i|] eqn:Hmin; simpl; [|exact Hnk].
  apply set_min_Some in Hmin as [Hi _]. intros H0. exact (Hnf i H0 Hi).
Qed.

(** C1: after every sequence of additions and deletions on a new book,
    the keys of the mapping are pairwise distinct, no key is in the set
    of freed identifiers, the next operation does not lower the counter,
    and the identifier the next [add_record] assigns is not a key. *)
Theorem identifiers_invariant (ops : list op) :
  let b := run ops init in
  NoDup (PyDict.keys (data b))
  /\ (forall k, k ∈ PyDict.keys (data b) -> k ∉ free_ids b)
  /\ (forall o, next_id b <= next_id (step b o))
  /\ (forall r, fst (add_record r b) ∉ PyDict.keys (data b)).
Proof.
  intros b. pose proof (run_holds ops init init_holds) as Hb. fold b in Hb.
  split; [apply Hb|]. split; [apply Hb|]. split.
  - apply step_next_id_mono.
  - intros r. apply add_record_fresh_key, Hb.
Qed.

(** *** Reuse of a freed identifier *)




End AllocFacts.

(** * Properties of the rest of the program *)

(** ** E-mail validation *)

Section EmailFacts.
Import PyStr Email.

#[local] Arguments String.append !_ _ : simpl nomatch.

Lemma skip_class_run (cls : ascii -> bool) (l rest : string) :
  all_in cls l = true -> stops_at cls rest ->
  skip_class cls (l ++ rest) = rest.
Proof.
  intros Hl Hrest. induction l as [|c l IH]; simpl in *.
  - destruct rest as [|c r]; simpl in *; [reflexivity|]. rewrite Hrest.
    reflexivity.
  - apply andb_prop in Hl as [Hc Hl]. rewrite Hc. auto.
Qed.

Lemma skip_class_split (cls : ascii -> bool) (s : string) :
  exists l, s = (l ++ skip_class cls s)%string /\ all_in cls l = true.
Proof.
  induction s as [|c s (l & Hs & Hl)]; simpl.
  - exists ""%string. auto.
  - destruct (cls c) eqn:Hc.
    + exists (String c l). simpl. rewrite Hc, Hl. split; [congruence|reflexivity].
    + exists ""%string. auto.
Qed.

Lemma match_plus_run (cls : ascii -> bool) (l rest : string) :
  l <> ""%string -> all_in cls l = true -> stops_at cls rest ->
  match_plus cls (l ++ rest) = Some rest.
Proof.
  intros Hne Hl Hrest. destruct l as [|c l]; [congruence|]. simpl in *.
  apply andb_prop in Hl as [Hc Hl]. rewrite Hc.
  rewrite skip_class_run by assumption. reflexivity.
Qed.

Lemma match_plus_split (cls : ascii -> bool) (s rest : string) :
  match_plus cls s = Some rest ->
  exists l, s = (l ++ rest)%string /\ l <> ""%string /\ all_in cls l = true.
Proof.
  destruct s as [|c s]; simpl; [discriminate|].
  destruct (cls c) eqn:Hc; [|discriminate]. intros [= <-].
  destruct (skip_class_split cls s) as (l & Hs & Hl).
  exists (String c l). simpl. rewrite Hc, Hl.
  split; [congruence|]. split; [discriminate|reflexivity].
Qed.

Lemma parse_char_inv (c : ascii) (s rest : string) :
  PyDate.parse_char c s = Some rest -> s = String c rest.
Proof.
  destruct s as [|x s]; simpl; [discriminate|].
  destruct (Ascii.eqb_spec x c); [|discriminate]. congruence.
Qed.

Lemma at_dollar_inv (s : string) :
  Phone.at_dollar s = true <-> s = ""%string \/ s = String LF "".
Proof.
  destruct s as [|c [|c' s]]; simpl.
  - tauto.
  - rewrite Ascii.eqb_eq. split; [intros ->; auto|].
    intros [H0|[= ->]]; [discriminate|reflexivity].
  - split; [discriminate|]. intros [H0|H0]; discriminate.
Qed.

Lemma validate_email_split (s : string) :
  validate_email s = true ->
  exists l d t e,
    s = (l ++ String "@" (d ++ String "." (t ++ e)))%string
    /\ l <> ""%string /\ d <> ""%string /\ t <> ""%string
    /\ all_in local_char l = true /\ all_in domain_char d = true
    /\ all_in tail_char t = true
    /\ (e = ""%string \/ e = String LF "").
Proof.
  unfold validate_email.
  destruct (match_plus local_char s) as [s1|] eqn:H1; [|discriminate].
  destruct (PyDate.parse_char "@" s1) as [s2|] eqn:H2; [|discriminate].
  destruct (match_plus domain_char s2) as [s3|] eqn:H3; [|discriminate].
  destruct (PyDate.parse_char "." s3) as [s4|] eqn:H4; [|discriminate].
  destruct (match_plus tail_char s4) as [s5|] eqn:H5; [|discriminate].
  intros He. apply at_dollar_inv in He.
  apply match_plus_split in H1 as (l & -> & Hl & Hl').
  apply parse_char_inv in H2 as ->.
  apply match_plus_split in H3 as (d & -> & Hd & Hd').
  apply parse_char_inv in H4 as ->.
  apply match_plus_split in H5 as (t & -> & Ht & Ht').
  exists l, d, t, s5. repeat split; assumption.
Qed.

(** X1: [validate_email] accepts exactly the strings made of a non-empty
    local part, [@], a non-empty domain without a dot, a dot and a
    non-empty rest, with or without one line feed after them. *)
Theorem validate_email_shape (s : string) :
  validate_email s = true <->
  exists l d t e,
    s = (l ++ String "@" (d ++ String "." (t ++ e)))%string
    /\ l <> ""%string /\ d <> ""%string /\ t <> ""%string
    /\ all_in local_char l = true /\ all_in domain_char d = true
    /\ all_in tail_char t = true
    /\ (e = ""%string \/ e = String LF "").
Proof.
  split; [apply validate_email_split|].
  - unfold validate_email.
    intros (l & d & t & e & -> & Hl & Hd & Ht & Hl' & Hd' & Ht' & He).
    rewrite (match_plus_run local_char l) by (auto; reflexivity).
    simpl PyDate.parse_char. cbv iota beta.
    rewrite (match_plus_run domain_char d) by (auto; reflexivity).
    simpl PyDate.parse_char. cbv iota beta.
    rewrite (match_plus_run tail_char t)
      by (auto; destruct He as [->| ->]; reflexivity).
    apply at_dollar_inv. exact He.
Qed.

Lemma count_char_app (c : ascii) (a b : string) :
  count_char c (a ++ b) = (count_char c a + count_char c b)%nat.
Proof. induction a as [|x a IH]; simpl; [reflexivity|]. rewrite IH. lia. Qed.

Lemma count_char_outside (cls : ascii -> bool) (c : ascii) (l : string) :
  cls c = false -> all_in cls l = true -> count_char c l = O.
Proof.
  intros Hc. induction l as [|x l IH]; simpl; [reflexivity|].
  intros [Hx Hl]%andb_prop. rewrite (IH Hl).
  destruct (Ascii.eqb_spec x c) as [->|]; [congruence|reflexivity].
Qed.

Lemma append_cons_assoc (a : string) (c : ascii) (b e : string) :
  ((a ++ String c b) ++ e)%string = (a ++ String c (b ++ e))%string.
Proof. induction a as [|x a IH]; simpl; [reflexivity|]. rewrite IH. reflexivity. Qed.

Lemma all_in_app (cls : ascii -> bool) (a b : string) :
  all_in cls (a ++ b) = all_in cls a && all_in cls b.
Proof.
  induction a as [|x a IH]; simpl; [reflexivity|].
  rewrite IH, andb_assoc. reflexivity.
Qed.

Lemma all_in_weaken (cls cls' : ascii -> bool) (l : string) :
  (forall c, cls c = true -> cls' c = true) ->
  all_in cls l = true -> all_in cls' l = true.
Proof.
  intros Hc. induction l as [|x l IH]; simpl; [reflexivity|].
  intros [Hx Hl]%andb_prop. rewrite (Hc x Hx), (IH Hl). reflexivity.
Qed.

(** No character of the three classes of the pattern, and neither [@],
    is white space. *)
Lemma address_char_not_space (c : ascii) :
  local_char c || tail_char c || Ascii.eqb c "@" = true ->
  negb (Edit.is_space c) = true.
Proof.
  destruct c as [[] [] [] [] [] [] [] []]; vm_compute; congruence.
Qed.

(** X2: an accepted address holds exactly one [@], no space and no other
    white space ([str.isspace]) than one line feed it may end with. *)
Theorem validate_email_one_at (s : string) :
  validate_email s = true ->
  count_char "@" s = 1%nat /\ count_char " " s = 0%nat
  /\ exists body e,
       s = (body ++ e)%string
       /\ all_in (fun c => negb (Edit.is_space c)) body = true
       /\ (e = ""%string \/ e = String LF "").
Proof.
  intros (l & d & t & e & -> & _ & _ & _ & Hl & Hd & Ht & He)%validate_email_split.
  assert (He' : count_char "@" e = O /\ count_char " " e = O)
    by (destruct He as [->| ->]; split; reflexivity).
  destruct He' as [He1 He2].
  split; [|split].
  - rewrite !count_char_app. simpl. rewrite !count_char_app. simpl.
    rewrite !count_char_app.
    rewrite (count_char_outside local_char "@" l),
      (count_char_outside domain_char "@" d),
      (count_char_outside tail_char "@" t), He1 by (assumption || reflexivity).
    reflexivity.
  - rewrite !count_char_app. simpl. rewrite !count_char_app. simpl.
    rewrite !count_char_app.
    rewrite (count_char_outside local_char " " l),
      (count_char_outside domain_char " " d),
      (count_char_outside tail_char " " t), He2 by (assumption || reflexivity).
    reflexivity.
  - exists (l ++ String "@" (d ++ String "." t))%string, e.
    split; [|split; [|exact He]].
    + rewrite !append_cons_assoc. reflexivity.
    + pose (ns := fun c => negb (Edit.is_space c)).
      assert (Hns : forall cls : ascii -> bool,
                 (forall c, cls c = true -> local_char c || tail_char c = true) ->
                 forall x, all_in cls x = true -> all_in ns x = true).
      { intros cls Hcls x Hx. apply (all_in_weaken cls); [|exact Hx].
        intros c Hc. apply address_char_not_space.
        rewrite (Hcls c Hc). reflexivity. }
      assert (Hl' : all_in ns l = true).
      { apply (Hns local_char); [|exact Hl]. intros c Hc. rewrite Hc.
        reflexivity. }
      assert (Hd' : all_in ns d = true).
      { apply (Hns domain_char); [|exact Hd]. intros c Hc.
        unfold domain_char in Hc. unfold tail_char. rewrite Hc.
        apply orb_true_r. }
      assert (Ht' : all_in ns t = true).
      { apply (Hns tail_char); [|exact Ht]. intros c Hc. rewrite Hc.
        apply orb_true_r. }
      fold ns. rewrite all_in_app. simpl. rewrite all_in_app. simpl.
      rewrite Hl', Hd', Ht'. reflexivity.
Qed.

Lemma validate_email_one_at_witness :
  count_char "@" "jan.kowalski+dom@poczta-x.com.pl" = 1%nat
  /\ count_char " " "jan.kowalski+dom@poczta-x.com.pl" = 0%nat
  /\ exists body e,
       "jan.kowalski+dom@poczta-x.com.pl" = (body ++ e)%string
       /\ all_in (fun c => negb (Edit.is_space c)) body = true
       /\ (e = ""%string \/ e = String LF "").
Proof.
  apply (validate_email_one_at "jan.kowalski+dom@poczta-x.com.pl").
  reflexivity.
Defined.

End EmailFacts.

(** ** Birthdays written as text *)

Section IsoFacts.
Import PyStr PyDate Iso.

Lemma digit_cases (n : Z) :
  0 <= n <= 9 -> In n [0; 1; 2; 3; 4; 5; 6; 7; 8; 9].
Proof. simpl. lia. Qed.

Lemma digit_char_spec (n : Z) :
  0 <= n <= 9 ->
  is_digit (digit_char n) = true /\ digit_value (digit_char n) = n.
Proof.
  intros H0. apply digit_cases in H0. simpl in H0.
  repeat (destruct H0 as [<-|H0]; [split; reflexivity|]). destruct H0.
Qed.

Lemma parse_Y_fmt4 (y : Z) (rest : string) :
  0 <= y <= 9999 -> parse_Y (fmt4 y rest) = Some (y, rest).
Proof.
  intros Hy. unfold fmt4, fmt2, parse_Y.
  destruct (digit_char_spec (y / 1000)) as [Ha1 Ha2];
    [Z.div_mod_to_equations; lia|].
  destruct (digit_char_spec (y / 100 mod 10)) as [Hb1 Hb2];
    [Z.div_mod_to_equations; lia|].
  destruct (digit_char_spec (y mod 100 / 10)) as [Hc1 Hc2];
    [Z.div_mod_to_equations; lia|].
  destruct (digit_char_spec (y mod 100 mod 10)) as [Hd1 Hd2];
    [Z.div_mod_to_equations; lia|].
  rewrite Ha1, Hb1, Hc1, Hd1, Ha2, Hb2, Hc2, Hd2. simpl. do 2 f_equal.
  Z.div_mod_to_equations. lia.
Qed.

Lemma parse_m_fmt2 (m : Z) (rest : string) :
  1 <= m <= 12 ->
  parse_m (fmt2 m (String "-" rest)) = Some (m, String "-" rest).
Proof.
  intros Hm.
  assert (Hc : m = 1 \/ m = 2 \/ m = 3 \/ m = 4 \/ m = 5 \/ m = 6 \/ m = 7
               \/ m = 8 \/ m = 9 \/ m = 10 \/ m = 11 \/ m = 12) by lia.
  repeat (destruct Hc as [Hc|Hc]; [subst; reflexivity|]).
  subst. reflexivity.
Qed.

Lemma parse_d_fmt2 (d : Z) :
  1 <= d <= 31 -> parse_d (fmt2 d "") = Some (d, ""%string).
Proof.
  intros Hd.
  assert (Hc : (Z.to_nat d = 1 \/ Z.to_nat d = 2 \/ Z.to_nat d = 3
    \/ Z.to_nat d = 4 \/ Z.to_nat d = 5 \/ Z.to_nat d = 6 \/ Z.to_nat d = 7
    \/ Z.to_nat d = 8 \/ Z.to_nat d = 9 \/ Z.to_nat d = 10
    \/ Z.to_nat d = 11 \/ Z.to_nat d = 12 \/ Z.to_nat d = 13
    \/ Z.to_nat d = 14 \/ Z.to_nat d = 15 \/ Z.to_nat d = 16
    \/ Z.to_nat d = 17 \/ Z.to_nat d = 18 \/ Z.to_nat d = 19
    \/ Z.to_nat d = 20 \/ Z.to_nat d = 21 \/ Z.to_nat d = 22
    \/ Z.to_nat d = 23 \/ Z.to_nat d = 24 \/ Z.to_nat d = 25
    \/ Z.to_nat d = 26 \/ Z.to_nat d = 27 \/ Z.to_nat d = 28
    \/ Z.to_nat d = 29 \/ Z.to_nat d = 30 \/ Z.to_nat d = 31)%nat) by lia.
  rewrite <- (Z2Nat.id d) by lia.
  repeat (destruct Hc as [Hc|Hc]; [rewrite Hc; reflexivity|]).
  rewrite Hc. reflexivity.
Qed.

Lemma parse_char_same (c : ascii) (s : string) :
  parse_char c (String c s) = Some s.
Proof. unfold parse_char. rewrite Ascii.eqb_refl. reflexivity. Qed.

Lemma parse_ymd_isoformat (d : date) :
  1 <= year d <= 9999 -> 1 <= month d <= 12 -> 1 <= day d <= 31 ->
  parse_ymd (isoformat d) = Some (year d, month d, day d).
Proof.
  intros Hy Hm Hd. unfold parse_ymd, isoformat.
  rewrite parse_Y_fmt4 by lia. cbn [mbind option_bind].
  rewrite parse_char_same. cbn [mbind option_bind].
  rewrite parse_m_fmt2 by lia. cbn [mbind option_bind].
  rewrite parse_char_same. cbn [mbind option_bind].
  rewrite parse_d_fmt2 by lia. reflexivity.
Qed.

(** X3: every date of the calendar, written as [YYYY-MM-DD] with leading
    zeros, is accepted by [validate_birthday] and read back by
    [strptime] as that date at midnight. *)
Theorem validate_birthday_accepts_isoformat (d : date) :
  valid_date d ->
  validate_birthday (isoformat d) = true
  /\ strptime (isoformat d) = Ok (mkDateTime d 0 0 0 0).
Proof.
  intros Hv. pose proof Hv as Hv'. unfold valid_date in Hv'.
  apply check_date_fields_spec in Hv' as (Hy & Hm & Hd).
  pose proof (days_in_month_bounds (year d) (month d) Hm) as Hdim.
  assert (E : strptime (isoformat d) = Ok (mkDateTime d 0 0 0 0)).
  { unfold strptime. rewrite parse_ymd_isoformat by lia.
    unfold make_date. rewrite Hv. destruct d; reflexivity. }
  split; [|exact E]. unfold validate_birthday. rewrite E. reflexivity.
Qed.

Lemma validate_birthday_accepts_isoformat_witness :
  validate_birthday "2024-02-29" = true
  /\ strptime "2024-02-29" = Ok (mkDateTime (mkDate 2024 2 29) 0 0 0 0).
Proof.
  apply (validate_birthday_accepts_isoformat (mkDate 2024 2 29)).
  reflexivity.
Defined.

End IsoFacts.

(** ** More on the lists of a record *)

Section RecordMoreFacts.

Lemma set_phones_same (r : Record_) : set_phones (phones r) r = r.
Proof. destruct r; reflexivity. Qed.

(** X5: [edit_email(old, new)] raises [ValueError] and leaves the record as
    it was when [old] is not in the list of addresses; when it is, the
    new list is the old one without the first occurrence of [old],
    followed by [new], and the phones are not touched. *)
Theorem edit_email_atomic (old new : Field) (r : Record_) :
  ((forall q, In q (emails r) -> oid q <> oid old) ->
   edit_email old new r = (Raise ValueError, r))
  /\ (forall l1 q l2,
        emails r = l1 ++ q :: l2 -> oid q = oid old ->
        (forall y, In y l1 -> oid y <> oid old) ->
        edit_email old new r = (Ok tt, set_emails (l1 ++ l2 ++ [new]) r)
        /\ phones (snd (edit_email old new r)) = phones r).
Proof.
  unfold edit_email, seq, remove_email, add_email. split.
  - intros H. rewrite list_remove_absent by exact H. reflexivity.
  - intros l1 q l2 Hl Hq Hl1.
    rewrite Hl, list_remove_first by assumption. simpl.
    unfold set_emails. simpl. rewrite <- app_assoc. auto.
Qed.

Lemma edit_email_atomic_witness :
  edit_email Sample.phone_c Sample.email_a Sample.jan
  = (Raise ValueError, Sample.jan)
  /\ edit_email Sample.email_a Sample.phone_c Sample.jan
     = (Ok tt, set_emails [Sample.phone_c] Sample.jan)
  /\ phones (snd (edit_email Sample.email_a Sample.phone_c Sample.jan))
     = phones Sample.jan.
Proof.
  split.
  - apply (proj1 (edit_email_atomic Sample.phone_c Sample.email_a Sample.jan)).
    simpl. intros q [<-|[]]; simpl; lia.
  - apply (proj2 (edit_email_atomic Sample.email_a Sample.phone_c Sample.jan)
                 [] Sample.email_a []).
    + reflexivity.
    + reflexivity.
    + intros y [].
Defined.

Lemma list_remove_present (x : Field) (l : list Field) :
  (exists q, In q l /\ oid q = oid x) -> exists l', list_remove x l = Ok l'.
Proof.
  intros H. destruct (first_occurrence x l H) as (l1 & q & l2 & -> & Hq & Hl1).
  exists (l1 ++ l2). apply list_remove_first; assumption.
Qed.

(** X6: removing a phone right after adding it never raises; when the phone
    was not in the list before, the record is back as it was. *)
Theorem add_then_remove_phone (p : Field) (r : Record_) :
  (exists r', seq (add_phone p) (remove_phone p) r = (Ok tt, r'))
  /\ ((forall q, In q (phones r) -> oid q <> oid p) ->
      seq (add_phone p) (remove_phone p) r = (Ok tt, r)).
Proof.
  unfold seq, add_phone, remove_phone. simpl. split.
  - destruct (list_remove_present p (phones r ++ [p])) as [l' Hl'].
    + exists p. split; [apply in_or_app; right; left|]; reflexivity.
    + rewrite Hl'. eauto.
  - intros Habs.
    rewrite (list_remove_first p p (phones r) []) by auto.
    rewrite app_nil_r. unfold set_phones. simpl. destruct r; reflexivity.
Qed.

Lemma add_then_remove_phone_witness :
  (exists r', seq (add_phone Sample.phone_c) (remove_phone Sample.phone_c)
                  Sample.jan = (Ok tt, r'))
  /\ seq (add_phone Sample.phone_c) (remove_phone Sample.phone_c) Sample.jan
     = (Ok tt, Sample.jan).
Proof.
  split.
  - exact (proj1 (add_then_remove_phone Sample.phone_c Sample.jan)).
  - apply (proj2 (add_then_remove_phone Sample.phone_c Sample.jan)).
    simpl. intros q [<-|[<-|[]]]; simpl; lia.
Defined.

End RecordMoreFacts.

(** ** Days to the birthday, in general *)

Section DaysFacts.
Import PyDate.

Lemma datetime_gt_midnight (now : datetime) (d : date) :
  valid_datetime now ->
  datetime_gt now (mkDateTime d 0 0 0 0) = true <->
  date_gt (dt_date now) d = true
  \/ (year (dt_date now) = year d /\ month (dt_date now) = month d
      /\ day (dt_date now) = day d
      /\ (0 < seconds_of_day now \/ 0 < microsecond now)).
Proof.
  intros (_ & Hh & Hm & Hs & Hu).
  unfold datetime_gt, dt_fields, seconds_of_day. simpl dt_date. simpl hour.
  simpl minute. simpl second. simpl microsecond.
  rewrite !tuple_gt_cons, date_gt_spec. simpl (tuple_gt [] []).
  split.
  - intros H. repeat (destruct H as [H|[? H]]; [lia|]). discriminate.
  - intros [H|H]; [lia|].
    destruct (Z.lt_trichotomy 0 (hour now)) as [?|[?|?]]; [lia| |lia].
    destruct (Z.lt_trichotomy 0 (minute now)) as [?|[?|?]]; [lia| |lia].
    destruct (Z.lt_trichotomy 0 (second now)) as [?|[?|?]]; [lia| |lia].
    right. split; [lia|]. right. split; [lia|]. right. split; [lia|].
    right. split; [lia|]. right. split; [lia|]. right. split; [lia|].
    left. lia.
Qed.

Lemma replace_year_ok (t : datetime) (y : Z) (d : date) :
  date_replace_year (dt_date t) y = Ok d ->
  replace_year t y
  = Ok (mkDateTime d (hour t) (minute t) (second t) (microsecond t)).
Proof. unfold replace_year. intros ->. reflexivity. Qed.

(** What [days_to_birthday] computes for a birthdate that exists in
    every year. *)
Lemma days_to_birthday_value (now : datetime) (r : Record_) (bd : date) :
  valid_datetime now -> year (dt_date now) < 9999 ->
  Spec.birthdate_of r = Some bd -> Spec.every_year r = true ->
  let this := mkDate (year (dt_date now)) (month bd) (day bd) in
  let next := if datetime_gt now (mkDateTime this 0 0 0 0)
              then mkDate (year (dt_date now) + 1) (month bd) (day bd)
              else this in
  days_to_birthday now r
  = Ok (PyInt (timedelta_days (ymd2ord next - ymd2ord (dt_date now))
                              (0 - seconds_of_day now)
                              (0 - microsecond now))).
Proof.
  intros Hnow Hy Hbd Hev this next. destruct Hnow as (Ht & _).
  pose proof Ht as Ht'. unfold valid_date in Ht'.
  apply check_date_fields_spec in Ht' as (Hty & _).
  unfold days_to_birthday. unfold Spec.birthdate_of, Spec.every_year in *.
  destruct (birthday r) as [b|]; [|discriminate].
  destruct (String.eqb_spec (value b) "") as [He|_].
  { rewrite He in Hbd. discriminate. }
  destruct (strptime (value b)) as [t|] eqn:Hs; [|discriminate].
  injection Hbd as <-. apply negb_true_iff in Hev.
  apply strptime_valid in Hs as (Hv & H0h & H0m & H0s & H0u).
  destruct (replace_year_every_year _ (year (dt_date now)) Hv ltac:(lia) Hev)
    as (E1 & _).
  destruct (replace_year_every_year _ (year (dt_date now) + 1) Hv ltac:(lia)
              Hev) as (E2 & _).
  unfold date_of in *. cbn [mbind result_bind].
  rewrite (replace_year_ok _ _ _ E1). cbn [mbind result_bind].
  rewrite H0h, H0m, H0s, H0u. fold this.
  unfold next. destruct (datetime_gt now (mkDateTime this 0 0 0 0)).
  - rewrite (replace_year_ok (mkDateTime this 0 0 0 0) _ _ E2).
    cbn [mbind result_bind]. reflexivity.
  - cbn [mbind result_bind]. reflexivity.
Qed.

Lemma timedelta_days_past (d s u : Z) :
  0 <= s < 86400 -> 0 <= u < 1000000 -> 0 < s \/ 0 < u ->
  timedelta_days d (0 - s) (0 - u) = d - 1.
Proof.
  intros Hs Hu Hpos. unfold timedelta_days.
  symmetry. apply Z.div_unique with (r := 86400000000 - s * 1000000 - u); lia.
Qed.

(** X8: at midnight [days_to_birthday] is the number of days from today's
    date to the next birthday; at any later time of the day it is one
    less, except on the birthday itself, which counts as passed: the
    result is then the number of days to next year's birthday, less
    one. *)
Theorem days_to_birthday_by_time_of_day
        (now : datetime) (r : Record_) (bd : date) :
  valid_datetime now -> year (dt_date now) < 9999 ->
  Spec.birthdate_of r = Some bd -> Spec.every_year r = true ->
  let today := dt_date now in
  (seconds_of_day now = 0 -> microsecond now = 0 ->
   days_to_birthday now r = Ok (PyInt (Spec.days_until today bd)))
  /\ (0 < seconds_of_day now \/ 0 < microsecond now ->
      (month bd <> month today \/ day bd <> day today ->
       days_to_birthday now r = Ok (PyInt (Spec.days_until today bd - 1)))
      /\ (month bd = month today -> day bd = day today ->
          days_to_birthday now r
          = Ok (PyInt (ymd2ord (mkDate (year today + 1) (month bd) (day bd))
                       - ymd2ord today - 1)))).
Proof.
  intros Hnow Hy Hbd Hev today.
  pose proof (days_to_birthday_value now r bd Hnow Hy Hbd Hev) as E.
  cbv zeta in E. rewrite E. clear E.
  pose proof (seconds_of_day_bounds now Hnow) as Hsec.
  pose proof (datetime_gt_midnight now
                (mkDate (year (dt_date now)) (month bd) (day bd)) Hnow) as Hgt.
  pose proof (date_gt_spec today (mkDate (year today) (month bd) (day bd)))
    as Hdg.
  destruct Hnow as (_ & _ & _ & _ & Hus).
  unfold Spec.days_until, Spec.next_occurrence. fold today in Hgt |- *.
  simpl in Hgt, Hdg.
  split; [|intros Hpast; split].
  - intros Hs0 Hu0. rewrite Hs0, Hu0.
    destruct (timedelta_days_bounds
                (ymd2ord (if datetime_gt now
                               (mkDateTime (mkDate (year today) (month bd)
                                                   (day bd)) 0 0 0 0)
                          then mkDate (year today + 1) (month bd) (day bd)
                          else mkDate (year today) (month bd) (day bd))
                 - ymd2ord today) 0 0 ltac:(lia) ltac:(lia)) as [_ Hz].
    rewrite (Hz eq_refl eq_refl).
    destruct (datetime_gt now _) eqn:Hc, (date_gt today _) eqn:Hd;
      try reflexivity; exfalso.
    + destruct (proj1 Hgt eq_refl) as [Hf|Hf]; [discriminate|lia].
    + pose proof (proj2 Hgt (or_introl eq_refl)). discriminate.
  - intros Hne. rewrite timedelta_days_past by (auto; lia).
    destruct (datetime_gt now _) eqn:Hc, (date_gt today _) eqn:Hd;
      try reflexivity; exfalso.
    + destruct (proj1 Hgt eq_refl) as [Hf|Hf]; [discriminate|lia].
    + pose proof (proj2 Hgt (or_introl eq_refl)). discriminate.
  - intros Hm Hd. rewrite timedelta_days_past by (auto; lia).
    assert (Hc : datetime_gt now
                   (mkDateTime (mkDate (year today) (month bd) (day bd))
                               0 0 0 0) = true)
      by (apply Hgt; right; repeat split; auto).
    rewrite Hc. reflexivity.
Qed.

End DaysFacts.

Section DaysWitnesses.
Import PyDate.

(** X7: with a valid reading of the clock, a number returned by
    [days_to_birthday] is between 0 and 366. *)
Theorem days_to_birthday_in_range (now : datetime) (r : Record_) (n : Z) :
  valid_datetime now ->
  days_to_birthday now r = Ok (PyInt n) -> 0 <= n <= 366.
Proof. apply days_to_birthday_bounds. Qed.

Lemma days_to_birthday_in_range_witness :
  valid_datetime (Sample.at_time 2024 3 10 12)
  /\ days_to_birthday (Sample.at_time 2024 3 10 12)
                      (Sample.born "Jan" "2000-03-15") = Ok (PyInt 4)
  /\ 0 <= 4 <= 366.
Proof.
  assert (Hnow : valid_datetime (Sample.at_time 2024 3 10 12))
    by (unfold valid_datetime; simpl; repeat split; (reflexivity || lia)).
  split; [exact Hnow|]. split; [reflexivity|].
  exact (days_to_birthday_in_range (Sample.at_time 2024 3 10 12)
           (Sample.born "Jan" "2000-03-15") 4 Hnow eq_refl).
Defined.

Lemma days_to_birthday_by_time_of_day_witness :
  let r := Sample.born "Jan" "2000-03-15" in
  let bd := mkDate 2000 3 15 in
  days_to_birthday (Sample.at_time 2024 3 10 0) r
  = Ok (PyInt (Spec.days_until (mkDate 2024 3 10) bd))
  /\ days_to_birthday (Sample.at_time 2024 3 10 12) r
     = Ok (PyInt (Spec.days_until (mkDate 2024 3 10) bd - 1))
  /\ days_to_birthday (Sample.at_time 2024 3 15 12) r
     = Ok (PyInt (ymd2ord (mkDate 2025 3 15) - ymd2ord (mkDate 2024 3 15) - 1)).
Proof.
  intros r bd.
  assert (Hv : forall d h, (d = 10 \/ d = 15) -> (h = 0 \/ h = 12) ->
                           valid_datetime (Sample.at_time 2024 3 d h)).
  { intros d h [->| ->] [->| ->]; unfold valid_datetime; simpl;
      repeat split; (reflexivity || lia). }
  split; [|split].
  - apply (proj1 (days_to_birthday_by_time_of_day
                    (Sample.at_time 2024 3 10 0) r bd
                    (Hv 10 0 ltac:(auto) ltac:(auto)) ltac:(simpl; lia)
                    eq_refl eq_refl)); reflexivity.
  - apply (proj1 (proj2 (days_to_birthday_by_time_of_day
                    (Sample.at_time 2024 3 10 12) r bd
                    (Hv 10 12 ltac:(auto) ltac:(auto)) ltac:(simpl; lia)
                    eq_refl eq_refl) ltac:(left; reflexivity))).
    right. simpl. lia.
  - apply (proj2 (proj2 (days_to_birthday_by_time_of_day
                    (Sample.at_time 2024 3 15 12) r bd
                    (Hv 15 12 ltac:(auto) ltac:(auto)) ltac:(simpl; lia)
                    eq_refl eq_refl) ltac:(left; reflexivity)));
      reflexivity.
Defined.

End DaysWitnesses.

(** ** The identifier-keyed book under every action of the menu *)

Section BookFacts.
Import PersonalAssistant PersonalAssistantMore Invariant.

Lemma add_record_sound (r : Record_) (b : AddressBook) :
  sound b ->
  sound (snd (add_record r b)) /\ fst (add_record r b) ∉ PyDict.keys (data b).
Proof.
  intros [Hnd Hnf]. rewrite add_record_unfold.
  destruct (advanced_spec b) as (_ & Hnk & Hnfree).
  destruct (set_min (free_ids b)) as [i|] eqn:Hmin; simpl.
  - apply set_min_Some in Hmin as [Hi _].
    assert (Hik : i ∉ PyDict.keys (data b)) by (intros H0; exact (Hnf i H0 Hi)).
    split; [|exact Hik].
    split; simpl; rewrite keys_setitem_new by exact Hik.
    + apply NoDup_snoc; assumption.
    + intros k [Hk|Hk]%elem_of_app.
      * intros [Hfree _]%elem_of_difference. exact (Hnf k Hk Hfree).
      * apply list_elem_of_singleton in Hk. subst.
        intros [_ Hne]%elem_of_difference.
        apply Hne, elem_of_singleton. reflexivity.
  - split; [|exact Hnk].
    split; simpl; rewrite keys_setitem_new by exact Hnk.
    + apply NoDup_snoc; assumption.
    + intros k [Hk|Hk]%elem_of_app; [auto|].
      apply list_elem_of_singleton in Hk. subst. exact Hnfree.
Qed.

Lemma delete_sound (k : Z) (b : AddressBook) :
  sound b ->
  sound (mkBook (PyDict.delitem k (data b)) (next_id b) ({[k]} ∪ free_ids b)).
Proof.
  intros [Hnd Hnf].
  destruct (keys_delitem_NoDup k (data b) Hnd) as [Hnd' Hk'].
  split; simpl; [exact Hnd'|].
  intros j Hj. pose proof (keys_delitem_subset _ _ _ Hj) as Hj0.
  intros [Hjk|Hfree]%elem_of_union.
  - apply elem_of_singleton in Hjk. subst. contradiction.
  - exact (Hnf j Hj0 Hfree).
Qed.

Lemma act_sound (b : AddressBook) (a : action) : sound b -> sound (act b a).
Proof.
  intros Hb. destruct a as [r|input|now nm input]; simpl.
  - apply add_record_sound, Hb.
  - destruct input as [k|]; simpl; [|exact Hb].
    destruct (PyDict.contains k (data b)); [apply delete_sound|]; exact Hb.
  - unfold delete_record.
    destruct (find_records_by_name b nm) as [|m ms]; [exact Hb|].
    destruct (print_matching now (m :: ms)); [|exact Hb].
    destruct input as [k|]; [|exact Hb].
    destruct (PyDict.contains k (data b)); [apply delete_sound|]; exact Hb.
Qed.

Lemma play_sound (actions : list action) (b : AddressBook) :
  sound b -> sound (play actions b).
Proof.
  revert b. induction actions as [|a actions IH]; intros b Hb; [exact Hb|].
  simpl. apply IH, act_sound, Hb.
Qed.

(** X9: a book read from a file whose keys are pairwise distinct stays
    sound under every sequence of actions: the keys stay distinct, no key
    is free, and [add_record] never assigns a key that is in use, although
    the counter starts again at 1. *)
Theorem loaded_book_stays_sound
        (d : list (Z * Record_)) (actions : list action) :
  NoDup (PyDict.keys d) ->
  let b := play actions (load_address_book d) in
  NoDup (PyDict.keys (data b))
  /\ (forall k, k ∈ PyDict.keys (data b) -> k ∉ free_ids b)
  /\ (forall r, fst (add_record r b) ∉ PyDict.keys (data b)).
Proof.
  intros Hd b.
  assert (Hb : sound b).
  { apply play_sound. split; simpl; [exact Hd|].
    intros k _ Hk. apply elem_of_empty in Hk. exact Hk. }
  split; [apply Hb|]. split; [apply Hb|].
  intros r. apply add_record_sound, Hb.
Qed.

Lemma loaded_book_stays_sound_witness :
  let d := [(2, set_id 2 Sample.jan); (1, set_id 1 Sample.jan)] in
  let b := play [DeleteById (Some 2); AddRecord Sample.jan;
                 DeleteByName (Sample.at_time 2024 3 10 9) "jan" (Some 1)]
                (load_address_book d) in
  NoDup (PyDict.keys (data b))
  /\ (forall k, k ∈ PyDict.keys (data b) -> k ∉ free_ids b)
  /\ (forall r, fst (add_record r b) ∉ PyDict.keys (data b)).
Proof.
  intros d.
  apply (loaded_book_stays_sound d
           [DeleteById (Some 2); AddRecord Sample.jan;
            DeleteByName (Sample.at_time 2024 3 10 9) "jan" (Some 1)]).
  simpl. apply NoDup_cons. split.
  - intros H0. apply list_elem_of_singleton in H0. discriminate.
  - apply NoDup_singleton.
Defined.

(** *** The counter gives the least unused identifier *)

(** X10: when no identifier is free, [add_record] assigns the least integer
    from the counter upwards that is not a key; in a book just read from
    a file that is the least positive integer that is not a key. *)
Theorem add_record_least_unused (r : Record_) (b : AddressBook) :
  free_ids b = ∅ ->
  let i := fst (add_record r b) in
  next_id b <= i
  /\ (i ∉ PyDict.keys (data b))
  /\ (forall j, next_id b <= j < i -> j ∈ PyDict.keys (data b)).
Proof.
  intros Hfree i. unfold i. rewrite add_record_unfold.
  assert (Hmin : set_min (free_ids b) = None) by (apply set_min_None, Hfree).
  rewrite Hmin. simpl.
  destruct (advanced_spec b) as (Hge & Hnk & _).
  split; [exact Hge|]. split; [exact Hnk|].
  intros j Hj. unfold advanced in Hj.
  apply skip_used_least in Hj. apply is_used_spec in Hj as [Hj|Hj]; [exact Hj|].
  rewrite Hfree in Hj. apply elem_of_empty in Hj. contradiction.
Qed.

Lemma add_record_least_unused_witness :
  let b := load_address_book [(1, set_id 1 Sample.jan);
                              (2, set_id 2 Sample.jan);
                              (4, set_id 4 Sample.jan)] in
  let i := fst (add_record Sample.jan b) in
  next_id b <= i
  /\ (i ∉ PyDict.keys (data b))
  /\ (forall j, next_id b <= j < i -> j ∈ PyDict.keys (data b)).
Proof.
  intros b. apply (add_record_least_unused Sample.jan b). reflexivity.
Defined.

End BookFacts.

(** ** Deleting one entry *)

Section RoundTripFacts.
Import PersonalAssistant PersonalAssistantMore Invariant.

Lemma delitem_filter (k : Z) (d : list (Z * Record_)) :
  NoDup (PyDict.keys d) ->
  PyDict.delitem k d = List.filter (fun e => negb (fst e =? k)) d.
Proof.
  induction d as [|[k0 v0] d IH]; simpl; [reflexivity|].
  intros [Hk0 Hd]%NoDup_cons.
  destruct (decide (k0 = k)) as [->|Hne].
  - rewrite Z.eqb_refl. simpl.
    clear IH Hd. induction d as [|[k1 v1] d IH]; simpl; [reflexivity|].
    apply not_elem_of_cons in Hk0 as [Hne Hk0]. simpl in *.
    destruct (Z.eqb_spec k1 k); [congruence|]. simpl. f_equal. auto.
  - destruct (Z.eqb_spec k0 k); [congruence|]. simpl. f_equal. auto.
Qed.

(** X13: [delete_record_by_id] removes the entry with the identifier typed
    and no other, keeps the order of the rest and frees the identifier;
    a line that is not a number, or a number that is not a key, changes
    nothing. *)
Theorem delete_record_by_id_exact (b : AddressBook) :
  NoDup (PyDict.keys (data b)) ->
  (forall k, k ∈ PyDict.keys (data b) ->
     data (delete_record_by_id (Some k) b)
     = List.filter (fun e => negb (fst e =? k)) (data b)
     /\ free_ids (delete_record_by_id (Some k) b) = {[k]} ∪ free_ids b
     /\ next_id (delete_record_by_id (Some k) b) = next_id b)
  /\ (forall k, k ∉ PyDict.keys (data b) ->
        delete_record_by_id (Some k) b = b)
  /\ delete_record_by_id None b = b.
Proof.
  intros Hnd. split; [|split].
  - intros k Hk. apply contains_spec in Hk. simpl. rewrite Hk. simpl.
    rewrite delitem_filter by exact Hnd. auto.
  - intros k Hk. apply contains_false in Hk. simpl. rewrite Hk. reflexivity.
  - reflexivity.
Qed.

Lemma delete_record_by_id_exact_witness :
  let b := run [Add Sample.jan; Add Sample.jan; Add Sample.jan] init in
  data (delete_record_by_id (Some 2) b)
  = List.filter (fun e => negb (fst e =? 2)) (data b)
  /\ delete_record_by_id (Some 7) b = b.
Proof.
  intros b.
  assert (Hnd : NoDup (PyDict.keys (data b)))
    by (apply (keys_unique b); apply run_holds, init_holds).
  split.
  - apply (proj1 (delete_record_by_id_exact b Hnd) 2).
    apply contains_spec. reflexivity.
  - apply (proj1 (proj2 (delete_record_by_id_exact b Hnd)) 7).
    apply contains_false. reflexivity.
Defined.

End RoundTripFacts.

(** ** Reading and writing a dictionary *)

Section DictMoreFacts.
Context {K V : Type} `{EqDecision K}.
Implicit Types (k : K) (v : V) (d : list (K * V)).

Lemma getitem_setitem_eq k v d :
  Lookup.getitem k (PyDict.setitem k v d) = Some v.
Proof.
  induction d as [|[k0 v0] d IH]; simpl.
  - destruct (decide (k = k)); [reflexivity|contradiction].
  - destruct (decide (k0 = k)) as [->|Hne]; simpl.
    + destruct (decide (k = k)); [reflexivity|contradiction].
    + destruct (decide (k0 = k)); [contradiction|exact IH].
Qed.

Lemma getitem_setitem_ne k j v d :
  j <> k -> Lookup.getitem j (PyDict.setitem k v d) = Lookup.getitem j d.
Proof.
  intros Hne. induction d as [|[k0 v0] d IH]; simpl.
  - destruct (decide (k = j)); [congruence|reflexivity].
  - destruct (decide (k0 = k)) as [->|Hk]; simpl.
    + destruct (decide (k = j)); [congruence|reflexivity].
    + destruct (decide (k0 = j)); [reflexivity|exact IH].
Qed.

Lemma getitem_None k d : Lookup.getitem k d = None <-> k ∉ PyDict.keys d.
Proof.
  unfold PyDict.keys. induction d as [|[k0 v0] d IH]; simpl.
  - split; [|reflexivity]. intros _ H0. inversion H0.
  - rewrite not_elem_of_cons. destruct (decide (k0 = k)) as [->|Hne].
    + split; [discriminate|]. intros [H0 _]. contradiction.
    + rewrite IH. split; [intros; split; [congruence|assumption]|tauto].
Qed.

Lemma delitem_absent k d : k ∉ PyDict.keys d -> PyDict.delitem k d = d.
Proof.
  unfold PyDict.keys. induction d as [|[k0 v0] d IH]; simpl; [reflexivity|].
  intros [Hne Hk]%not_elem_of_cons.
  destruct (decide (k0 = k)); [congruence|]. rewrite IH by exact Hk.
  reflexivity.
Qed.

Lemma delitem_setitem k v d :
  PyDict.delitem k (PyDict.setitem k v d) = PyDict.delitem k d.
Proof.
  induction d as [|[k0 v0] d IH]; simpl.
  - destruct (decide (k = k)); [reflexivity|contradiction].
  - destruct (decide (k0 = k)) as [->|Hne]; simpl.
    + destruct (decide (k = k)); [reflexivity|contradiction].
    + destruct (decide (k0 = k)); [contradiction|]. rewrite IH. reflexivity.
Qed.

Lemma contains_setitem k v d : PyDict.contains k (PyDict.setitem k v d) = true.
Proof.
  induction d as [|[k0 v0] d IH]; simpl.
  - destruct (decide (k = k)); [reflexivity|contradiction].
  - destruct (decide (k0 = k)) as [->|Hne]; simpl.
    + destruct (decide (k = k)); [reflexivity|contradiction].
    + destruct (decide (k0 = k)); [contradiction|exact IH].
Qed.

Lemma setitem_entry k v d (e : K * V) :
  e ∈ PyDict.setitem k v d -> e = (k, v) \/ e ∈ d.
Proof.
  induction d as [|[k0 v0] d IH]; simpl.
  - intros He. apply list_elem_of_singleton in He. auto.
  - destruct (decide (k0 = k)) as [->|Hne]; rewrite !elem_of_cons.
    + intros [->|He]; auto.
    + intros [->|He]; [auto|]. destruct (IH He); auto.
Qed.

Lemma delitem_entry k d (e : K * V) : e ∈ PyDict.delitem k d -> e ∈ d.
Proof.
  induction d as [|[k0 v0] d IH]; simpl; [auto|].
  destruct (decide (k0 = k)); rewrite !elem_of_cons; intuition.
Qed.

End DictMoreFacts.

(** ** The name-keyed book *)

Section NameBookFacts.
Import ProjectEnd ProjectEndMore.

(** X15: [add_record] files the record under its name: it is read back under
    that name, no other name is affected, and when the name was already
    in the book the record that was there is replaced and the book does
    not grow. *)
Theorem add_record_replaces_same_name (r : Record_) (self : AddressBook) :
  Lookup.getitem (name_of r) (data (add_record r self)) = Some r
  /\ (forall k, k <> name_of r ->
        Lookup.getitem k (data (add_record r self))
        = Lookup.getitem k (data self))
  /\ PyDict.keys (data (add_record r self))
     = (if PyDict.contains (name_of r) (data self)
        then PyDict.keys (data self)
        else PyDict.keys (data self) ++ [name_of r]).
Proof.
  unfold add_record, name_of. simpl. split; [apply getitem_setitem_eq|].
  split; [intros k Hk; apply getitem_setitem_ne, Hk|apply keys_setitem].
Qed.

(** X16: adding a record and then deleting its name leaves the book without
    an entry of that name: a book that had none is back as it was, and a
    contact that had the same name before is lost. *)
Theorem add_then_delete_record (r : Record_) (self : AddressBook) :
  data (delete_record (name_of r) (add_record r self))
  = PyDict.delitem (name_of r) (data self)
  /\ (name_of r ∉ PyDict.keys (data self) ->
      delete_record (name_of r) (add_record r self) = self).
Proof.
  assert (E : data (delete_record (name_of r) (add_record r self))
              = PyDict.delitem (name_of r) (data self)).
  { unfold delete_record, add_record, name_of. simpl.
    rewrite contains_setitem. simpl. apply delitem_setitem. }
  split; [exact E|]. intros Habs.
  rewrite delitem_absent in E by exact Habs.
  destruct (delete_record (name_of r) (add_record r self)) as [d'].
  destruct self as [d]. simpl in E. congruence.
Qed.

Lemma add_then_delete_record_witness :
  let self := Sample.book_of [Sample.born "Ewa" "1990-03-10"] in
  data (delete_record (name_of Sample.jan) (add_record Sample.jan self))
  = PyDict.delitem (name_of Sample.jan) (data self)
  /\ delete_record (name_of Sample.jan) (add_record Sample.jan self) = self.
Proof.
  intros self. split.
  - exact (proj1 (add_then_delete_record Sample.jan self)).
  - apply (proj2 (add_then_delete_record Sample.jan self)).
    apply contains_false. reflexivity.
Defined.

Lemma act_filed (b : AddressBook) (a : action) : filed b -> filed (act b a).
Proof.
  intros [Hnd Hname]. destruct a as [r|nm]; simpl.
  - unfold add_record. split; simpl.
    + rewrite keys_setitem.
      destruct (PyDict.contains (value (name r)) (data b)) eqn:Hc;
        [exact Hnd|].
      apply NoDup_app. split; [exact Hnd|]. split.
      * intros x Hx Hx'. apply list_elem_of_singleton in Hx'. subst.
        apply contains_false in Hc. contradiction.
      * apply NoDup_singleton.
    + intros k r0 [[= -> ->]|Hin]%setitem_entry; [reflexivity|auto].
  - unfold delete_record. destruct (PyDict.contains nm (data b));
      [|split; assumption].
    split; simpl.
    + apply keys_delitem_NoDup, Hnd.
    + intros k r0 Hin. apply Hname. eapply delitem_entry, Hin.
Qed.

Lemma names_are_keys (d : list (string * Record_)) :
  (forall k r, (k, r) ∈ d -> k = name_of r) ->
  map name_of (PyDict.values d) = PyDict.keys d.
Proof.
  unfold PyDict.values, PyDict.keys.
  induction d as [|[k r] d IH]; intros Hname; simpl; [reflexivity|].
  rewrite <- (Hname k r) by left. f_equal. apply IH.
  intros k0 r0 Hin. apply Hname. right. exact Hin.
Qed.

(** X17: after every sequence of [add_record] and [delete_record] on an
    empty book, no two entries have the same key, every record is filed
    under its own name, and so no two records of the book have the same
    name. *)
Theorem name_book_invariant (actions : list action) :
  let b := play actions (mkBook []) in
  NoDup (PyDict.keys (data b))
  /\ (forall k r, (k, r) ∈ data b -> k = name_of r)
  /\ NoDup (map name_of (PyDict.values (data b))).
Proof.
  intros b.
  assert (H : forall b0, filed b0 -> filed (play actions b0)).
  { induction actions as [|a actions IH]; intros b0 Hb; [exact Hb|].
    simpl. apply IH, act_filed, Hb. }
  assert (Hb : filed b).
  { apply H. split; simpl; [constructor|]. intros k r Hkr. inversion Hkr. }
  destruct Hb as [Hnd Hname]. split; [exact Hnd|]. split; [exact Hname|].
  rewrite (names_are_keys _ Hname). exact Hnd.
Qed.

End NameBookFacts.

(** ** Traversal in batches *)

Section PagesFacts.
Import ProjectEnd ProjectEndMore.

Lemma next_batch (self : AddressBook) (c : nat) :
  (c < length (data self))%nat ->
  next (mkIterator self (Z.of_nat c))
  = (Batch (take 5 (drop c (PyDict.values (data self)))),
     mkIterator self (Z.of_nat (c + 5))).
Proof.
  intros Hc. unfold next, slice. simpl.
  destruct (Z.ltb_spec (Z.of_nat c) (Z.of_nat (length (data self)))); [|lia].
  replace (Z.to_nat (Z.of_nat c + 5 - Z.of_nat c)) with 5%nat by lia.
  rewrite Nat2Z.id. do 2 f_equal. lia.
Qed.

Lemma next_stop (self : AddressBook) (c : nat) :
  (length (data self) <= c)%nat ->
  next (mkIterator self (Z.of_nat c))
  = (StopIteration, mkIterator self (Z.of_nat c)).
Proof.
  intros Hc. unfold next. simpl.
  destruct (Z.ltb_spec (Z.of_nat c) (Z.of_nat (length (data self)))); [lia|].
  reflexivity.
Qed.

Lemma batches_from (self : AddressBook) (fuel c : nat) :
  let vs := PyDict.values (data self) in
  (0 < fuel)%nat -> (length vs < fuel + c)%nat ->
  exists bs,
    batches fuel (mkIterator self (Z.of_nat c)) = Some bs
    /\ concat bs = drop c vs
    /\ (forall i b, bs !! i = Some b ->
          b = take 5 (drop (c + 5 * i) vs) /\ (c + 5 * i < length vs)%nat)
    /\ (length vs - c <= 5 * length bs < length vs - c + 5)%nat.
Proof.
  intros vs. assert (Hlen : length vs = length (data self))
    by (unfold vs, PyDict.values; apply length_map).
  revert c. induction fuel as [|fuel IH]; intros c Hpos Hfuel; [lia|].
  - simpl batches. destruct (Nat.lt_ge_cases c (length vs)) as [Hc|Hc].
    + rewrite next_batch by lia.
      destruct (IH (c + 5)%nat ltac:(lia) ltac:(lia))
        as (bs & E & Hcat & Hidx & Hn).
      rewrite E. exists (take 5 (drop c vs) :: bs).
      split; [reflexivity|]. split; [|split].
      * simpl. rewrite Hcat. rewrite <- (drop_drop vs 5 c).
        apply take_drop.
      * intros [|i] b Hb; simpl in Hb.
        -- injection Hb as <-. rewrite Nat.mul_0_r, Nat.add_0_r. auto.
        -- destruct (Hidx i b Hb) as [-> Hi].
           replace (c + 5 * S i)%nat with (c + 5 + 5 * i)%nat by lia. auto.
      * simpl. lia.
    + rewrite next_stop by lia. exists []. split; [reflexivity|].
      split; [|split].
      * simpl. symmetry. apply drop_ge. lia.
      * intros i b Hb. inversion Hb.
      * simpl. lia.
Qed.

(** X18: going through the book by [__iter__] and [__next__] ends, and gives
    the records of the book in order, five to a batch: batch [i] holds
    the records from position [5 i] on, up to five of them, none is
    empty, and their number is the number of records divided by five,
    rounded up. *)
Theorem pages_cover_the_book (self : AddressBook) :
  let vs := PyDict.values (data self) in
  exists bs,
    pages self = Some bs
    /\ concat bs = vs
    /\ (forall i b, bs !! i = Some b ->
          b = take 5 (drop (5 * i) vs) /\ (5 * i < length vs)%nat)
    /\ (length vs <= 5 * length bs < length vs + 5)%nat.
Proof.
  intros vs. assert (Hlen : length vs = length (data self))
    by (unfold vs, PyDict.values; apply length_map).
  destruct (batches_from self (S (length (data self))) 0 ltac:(lia)
              ltac:(fold vs; lia)) as (bs & E & Hcat & Hidx & Hn).
  exists bs. fold vs in Hcat, Hidx, Hn. split; [exact E|].
  split; [exact Hcat|]. split; [exact Hidx|]. lia.
Qed.

End PagesFacts.

(** ** Birthdays within a range *)

Section RangeFacts.
Import PyDate ProjectEnd ProjectEndMore.

Lemma replace_year_raises (t : datetime) (y : Z) (e : exn) :
  replace_year t y = Raise e -> e = ValueError.
Proof.
  unfold replace_year, date_replace_year, make_date.
  destruct (check_date_fields y _ _); simpl; congruence.
Qed.

(** [days_to_birthday] raises nothing but [ValueError], and the only
    text it returns is the message for a missing birthday. *)
Lemma days_to_birthday_results (now : datetime) (r : Record_) :
  match days_to_birthday now r with
  | Ok (PyStr s) => s = no_birthday
  | Ok (PyInt _) => True
  | Raise e => e = ValueError
  end.
Proof.
  unfold days_to_birthday. destruct (birthday r) as [b|]; [|reflexivity].
  destruct (String.eqb (value b) ""); [reflexivity|].
  destruct (strptime (value b)) as [t|e] eqn:Hs; simpl;
    [|eapply strptime_raises, Hs].
  destruct (replace_year t _) as [t1|e] eqn:H1; simpl;
    [|eapply replace_year_raises, H1].
  destruct (datetime_gt now t1); simpl; [|exact I].
  destruct (replace_year t1 _) as [t2|e] eqn:H2; simpl;
    [exact I|eapply replace_year_raises, H2].
Qed.

Lemma range_loop_ok (now : datetime) (days : Z) (records acc : list Record_) :
  (forall r, In r records -> days_to_birthday now r <> Raise ValueError) ->
  range_loop now days records acc
  = Ok (acc ++ List.filter (in_days now days) records).
Proof.
  revert acc. induction records as [|r records IH]; intros acc Hok; simpl.
  - rewrite app_nil_r. reflexivity.
  - pose proof (Hok r (or_introl eq_refl)) as Hr.
    pose proof (days_to_birthday_results now r) as Hres.
    unfold in_days. destruct (days_to_birthday now r) as [[s|n]|e]; simpl.
    + subst s. simpl. rewrite IH by (intros; apply Hok; right; assumption).
      reflexivity.
    + rewrite IH by (intros; apply Hok; right; assumption).
      destruct ((0 <=? n) && (n <=? days)); simpl; [|reflexivity].
      rewrite <- app_assoc. reflexivity.
    + subst e. contradiction.
Qed.

Lemma range_loop_raises (now : datetime) (days : Z)
      (records acc : list Record_) :
  (exists r, In r records /\ days_to_birthday now r = Raise ValueError) ->
  range_loop now days records acc = Raise ValueError.
Proof.
  revert acc. induction records as [|r records IH]; intros acc (r0 & Hin & Hr0).
  - destruct Hin.
  - simpl. pose proof (days_to_birthday_results now r) as Hres.
    destruct (days_to_birthday now r) as [[s|n]|e] eqn:Hr; simpl.
    + subst s. simpl. apply IH. destruct Hin as [<-|Hin]; [congruence|eauto].
    + apply IH. destruct Hin as [<-|Hin]; [congruence|eauto].
    + subst e. reflexivity.
Qed.

(** X19: [find_by_birthday_range] returns, in the order of the book, the
    records for which [days_to_birthday] gives a number from 0 to
    [days], provided [days_to_birthday] raises for no record of the book;
    if it raises for one of them, for a contact born on 29 February say,
    the whole search raises [ValueError], and it raises nothing else. *)
Theorem find_by_birthday_range_spec
        (now : datetime) (days : Z) (self : AddressBook) :
  let vs := PyDict.values (data self) in
  ((forall r, In r vs -> days_to_birthday now r <> Raise ValueError) ->
   find_by_birthday_range now days self
   = Ok (List.filter (in_days now days) vs))
  /\ ((exists r, In r vs /\ days_to_birthday now r = Raise ValueError) ->
      find_by_birthday_range now days self = Raise ValueError).
Proof.
  intros vs. unfold find_by_birthday_range. fold vs. split.
  - intros Hok. rewrite range_loop_ok by exact Hok. reflexivity.
  - apply range_loop_raises.
Qed.

Lemma find_by_birthday_range_spec_witness :
  let now := Sample.at_time 2024 3 10 0 in
  find_by_birthday_range now 5
    (Sample.book_of [Sample.born "Jan" "2000-03-15";
                     Sample.born "Ola" "1985-11-02"])
  = Ok [Sample.born "Jan" "2000-03-15"]
  /\ find_by_birthday_range now 5
       (Sample.book_of [Sample.born "Jan" "2000-03-15";
                        Sample.born "Ewa" "2000-02-29"])
     = Raise ValueError.
Proof.
  intros now. split.
  - apply (proj1 (find_by_birthday_range_spec now 5
             (Sample.book_of [Sample.born "Jan" "2000-03-15";
                              Sample.born "Ola" "1985-11-02"]))).
    intros r [<-|[<-|[]]]; discriminate.
  - apply (proj2 (find_by_birthday_range_spec now 5
             (Sample.book_of [Sample.born "Jan" "2000-03-15";
                              Sample.born "Ewa" "2000-02-29"]))).
    exists (Sample.born "Ewa" "2000-02-29"). split; [right; left|]; reflexivity.
Defined.

End RangeFacts.

(** ** Editing a contact *)

Section EditFacts.
Import ProjectEnd Edit.

Lemma getitem_contains (k : string) (d : list (string * Record_)) (r : Record_) :
  Lookup.getitem k d = Some r -> PyDict.contains k d = true.
Proof.
  intros Hg. destruct (PyDict.contains k d) eqn:Hc; [reflexivity|].
  apply contains_false, getitem_None in Hc. congruence.
Qed.

Lemma edit_phone_part_name (a : index_line) (s : string) (o : positive)
      (r : Record_) :
  name (snd (edit_phone_part a s o r)) = name r
  /\ emails (snd (edit_phone_part a s o r)) = emails r.
Proof.
  unfold edit_phone_part. destruct (phones r) as [|p ps] eqn:Hp; [auto|].
  destruct a as [|n|]; [auto| |auto].
  destruct ((0 <=? n - 1) && _); [|auto].
  destruct (blank s); [auto|].
  destruct (Phone.validate_phone s); [|auto].
  destruct (item _ _) as [old|]; [|auto].
  unfold edit_phone, seq, remove_phone, add_phone.
  destruct (list_remove old (phones r)); simpl; auto.
Qed.


(** X23: after a new name is typed, the contact carries the new name but is
    still read under the old key, and what the new name reads as a key is
    what it read before: nothing, unless another contact had it. *)
Theorem edit_record_renames_in_place
        (name_to_edit new_name_input : string) (phone_to_edit : index_line)
        (new_phone_number : string) (name_oid phone_oid : positive)
        (book : AddressBook) (r : Record_) :
  Lookup.getitem name_to_edit (data book) = Some r ->
  blank new_name_input = false ->
  let out := edit_record name_to_edit new_name_input phone_to_edit
                         new_phone_number name_oid phone_oid book in
  (exists r', Lookup.getitem name_to_edit (data (snd out)) = Some r'
              /\ name_of r' = new_name_input)
  /\ (new_name_input <> name_to_edit ->
      Lookup.getitem new_name_input (data (snd out))
      = Lookup.getitem new_name_input (data book)).
Proof.
  intros Hg Hb. unfold edit_record. rewrite Hg.
  unfold seq, edit_name_part, edit_name. rewrite Hb.
  pose proof (edit_phone_part_name phone_to_edit new_phone_number phone_oid
                (set_name (mkField name_oid new_name_input) r)) as [Hn _].
  destruct (edit_phone_part _ _ _ _) as [res r']. simpl in *. split.
  - exists r'. split; [apply getitem_setitem_eq|].
    unfold name_of. rewrite Hn. reflexivity.
  - intros Hne. apply getitem_setitem_ne, Hne.
Qed.

Lemma edit_record_renames_in_place_witness :
  let book := Sample.book_of [Sample.jan] in
  let out := edit_record "Jan Kowalski" "Jan Nowak" NotDigits "" 30 31 book in
  (exists r', Lookup.getitem "Jan Kowalski" (data (snd out)) = Some r'
              /\ name_of r' = "Jan Nowak")
  /\ ("Jan Nowak" <> "Jan Kowalski" ->
      Lookup.getitem "Jan Nowak" (data (snd out))
      = Lookup.getitem "Jan Nowak" (data book)).
Proof.
  intros book.
  apply (edit_record_renames_in_place "Jan Kowalski" "Jan Nowak" NotDigits ""
           30 31 book Sample.jan); reflexivity.
Defined.

Lemma list_remove_at (l : list Field) (i : nat) (old : Field) :
  NoDup (map oid l) -> nth_error l i = Some old ->
  list_remove old l = Ok (delete i l).
Proof.
  revert i. induction l as [|y l IH]; intros i Hnd Hi; [destruct i; discriminate|].
  simpl in Hnd. apply NoDup_cons in Hnd as [Hy Hnd].
  destruct i as [|i]; simpl in *.
  - injection Hi as ->. unfold field_eq. rewrite Pos.eqb_refl. reflexivity.
  - assert (Hne : field_eq y old = false).
    { apply field_eq_false. intros Heq. apply Hy. rewrite Heq.
      apply list_elem_of_In, in_map, nth_error_In with i, Hi. }
    rewrite Hne, (IH i Hnd Hi). reflexivity.
Qed.

Lemma digit_not_space (c : ascii) :
  PyStr.is_digit c = true -> is_space c = false.
Proof.
  unfold PyStr.is_digit, is_space.
  destruct (Nat.leb_spec 48 (nat_of_ascii c)), (Nat.leb_spec (nat_of_ascii c) 57);
    try discriminate. intros _.
  destruct (Nat.leb_spec 9 (nat_of_ascii c)), (Nat.leb_spec (nat_of_ascii c) 13),
    (Nat.leb_spec 28 (nat_of_ascii c)), (Nat.leb_spec (nat_of_ascii c) 32),
    (Nat.eqb_spec (nat_of_ascii c) 133), (Nat.eqb_spec (nat_of_ascii c) 160);
    simpl; try reflexivity; lia.
Qed.

Lemma valid_phone_not_blank (s : string) :
  Phone.validate_phone s = true -> blank s = false.
Proof.
  unfold Phone.validate_phone. destruct s as [|c s]; simpl; [discriminate|].
  destruct (PyStr.is_digit c) eqn:Hc; [|discriminate].
  rewrite (digit_not_space c Hc). reflexivity.
Qed.

(** X24: editing the phone at position [n] of a contact, with a number that
    passes validation, takes that phone out of the list and puts the new
    one at the end of the list, not in its place; the e-mail addresses
    stay as they are. *)
Theorem edit_record_moves_phone_to_end
        (name_to_edit new_name_input new_phone_number : string) (n : Z)
        (name_oid phone_oid : positive) (book : AddressBook) (r : Record_) :
  Lookup.getitem name_to_edit (data book) = Some r ->
  1 <= n <= Z.of_nat (length (phones r)) ->
  NoDup (map oid (phones r)) ->
  Phone.validate_phone new_phone_number = true ->
  let out := edit_record name_to_edit new_name_input (Index n)
                         new_phone_number name_oid phone_oid book in
  fst out = Ok tt
  /\ exists r',
       Lookup.getitem name_to_edit (data (snd out)) = Some r'
       /\ phones r' = delete (Z.to_nat (n - 1)) (phones r)
                      ++ [mkField phone_oid new_phone_number]
       /\ emails r' = emails r.
Proof.
  intros Hg Hn Hnd Hv. unfold edit_record. rewrite Hg.
  unfold seq, edit_name_part, edit_name.
  set (r1 := if blank new_name_input then r
             else set_name (mkField name_oid new_name_input) r).
  assert (Hr1 : phones r1 = phones r /\ emails r1 = emails r)
    by (unfold r1; destruct (blank new_name_input); auto).
  destruct Hr1 as [Hp He].
  assert (E1 : (if blank new_name_input then (Ok tt, r)
                else (Ok tt, set_name (mkField name_oid new_name_input) r))
               = (Ok tt, r1))
    by (unfold r1; destruct (blank new_name_input); reflexivity).
  rewrite E1. unfold edit_phone_part. rewrite Hp.
  destruct (phones r) as [|p ps] eqn:Hps; [simpl in Hn; lia|].
  rewrite <- Hps in *.
  assert (Hrange : (0 <=? n - 1) && (n - 1 <? Z.of_nat (length (phones r)))
                   = true).
  { apply andb_true_iff. split; [apply Z.leb_le|apply Z.ltb_lt]; lia. }
  rewrite Hrange, (valid_phone_not_blank _ Hv), Hv. unfold item.
  destruct (nth_error (phones r) (Z.to_nat (n - 1))) as [old|] eqn:Hold.
  - unfold edit_phone, seq, remove_phone, add_phone. rewrite Hp.
    rewrite (list_remove_at _ _ _ Hnd Hold). simpl. split; [reflexivity|].
    eexists. split; [apply getitem_setitem_eq|]. simpl. auto.
  - apply nth_error_None in Hold. lia.
Qed.

Lemma edit_record_moves_phone_to_end_witness :
  let book := Sample.book_of [Sample.jan] in
  let out := edit_record "Jan Kowalski" "" (Index 1) "111222333" 30 31 book in
  fst out = Ok tt
  /\ exists r',
       Lookup.getitem "Jan Kowalski" (data (snd out)) = Some r'
       /\ phones r' = delete (Z.to_nat (1 - 1)) (phones Sample.jan)
                      ++ [mkField 31 "111222333"]
       /\ emails r' = emails Sample.jan.
Proof.
  intros book.
  apply (edit_record_moves_phone_to_end "Jan Kowalski" "" "111222333" 1
           30 31 book Sample.jan).
  - reflexivity.
  - simpl. lia.
  - simpl. apply NoDup_cons. split.
    + intros H0. apply list_elem_of_singleton in H0. discriminate.
    + apply NoDup_singleton.
  - reflexivity.
Defined.

(** X25: when the new phone number does not pass validation, [edit_record]
    raises [ValueError] after the new name has been put in place: the
    contact keeps its phones and has the new name. *)
Theorem edit_record_raises_after_rename
        (name_to_edit new_name_input new_phone_number : string) (n : Z)
        (name_oid phone_oid : positive) (book : AddressBook) (r : Record_) :
  Lookup.getitem name_to_edit (data book) = Some r ->
  blank new_name_input = false ->
  1 <= n <= Z.of_nat (length (phones r)) ->
  blank new_phone_number = false ->
  Phone.validate_phone new_phone_number = false ->
  edit_record name_to_edit new_name_input (Index n) new_phone_number
              name_oid phone_oid book
  = (Raise ValueError,
     mkBook (PyDict.setitem name_to_edit
               (set_name (mkField name_oid new_name_input) r) (data book))).
Proof.
  intros Hg Hb Hn Hb' Hv. unfold edit_record. rewrite Hg.
  unfold seq, edit_name_part, edit_name. rewrite Hb.
  unfold edit_phone_part. simpl phones.
  destruct (phones r) as [|p ps] eqn:Hps; [simpl in Hn; lia|].
  rewrite <- Hps in *.
  assert (Hrange : (0 <=? n - 1) && (n - 1 <? Z.of_nat (length (phones r)))
                   = true).
  { apply andb_true_iff. split; [apply Z.leb_le|apply Z.ltb_lt]; lia. }
  rewrite Hrange, Hb', Hv. reflexivity.
Qed.

Lemma edit_record_raises_after_rename_witness :
  edit_record "Jan Kowalski" "Jan Nowak" (Index 2) "12345" 30 31
              (Sample.book_of [Sample.jan])
  = (Raise ValueError,
     mkBook (PyDict.setitem "Jan Kowalski"
               (set_name (mkField 30 "Jan Nowak") Sample.jan)
               (data (Sample.book_of [Sample.jan])))).
Proof.
  apply (edit_record_raises_after_rename "Jan Kowalski" "Jan Nowak" "12345" 2
           30 31 (Sample.book_of [Sample.jan]) Sample.jan);
    try reflexivity.
  simpl. lia.
Defined.

Lemma getitem_int_str (s : string) (d : list (Z * Record_)) :
  getitem_int (PyStr s) d = None.
Proof. induction d as [|[k v] d IH]; simpl; [reflexivity|exact IH]. Qed.

(** X26: in [Personal_Assistant.py] the keys of the book are identifiers, and
    the name typed is equal to none of them: [edit_record] finds no
    contact and changes nothing, whatever is typed. *)
Theorem edit_record_by_id_book_changes_nothing
        (name_to_edit new_name_input : string) (phone_to_edit : index_line)
        (new_phone_number : string) (email_to_edit : index_line)
        (new_email : string) (name_oid phone_oid email_oid : positive)
        (book : PersonalAssistant.AddressBook) :
  edit_record_by_id_book name_to_edit new_name_input phone_to_edit
    new_phone_number email_to_edit new_email name_oid phone_oid email_oid
    book
  = (Ok tt, book).
Proof.
  unfold edit_record_by_id_book. rewrite getitem_int_str. reflexivity.
Qed.

End EditFacts.

(** ** The notebooks *)

Section NotesFacts.
Import NotesPy.

Lemma delete_positions {A : Type} (i : nat) (l : list A) :
  (i < length l)%nat ->
  length (delete i l) = (length l - 1)%nat
  /\ forall j : nat,
       delete i l !! j = if decide (j < i)%nat then l !! j else l !! S j.
Proof.
  intros Hi. split.
  - rewrite length_delete by (apply lookup_lt_is_Some; exact Hi). lia.
  - intros j. destruct (decide (j < i)%nat) as [Hlt|Hge].
    + apply list_lookup_delete_lt. exact Hlt.
    + apply list_lookup_delete_ge. lia.
Qed.

(** X27: [delete_note] of [notes.py] counts the notes from 0: with a
    number in range it takes out the note at that position, the notes
    before it stay where they are and the later ones move down by one;
    with any other number the notes are unchanged; and with the line
    the notes menu of [Personal_Assistant.py] passes, a [str], it raises
    [TypeError] and deletes nothing. *)
Theorem notes_delete_note_spec (notes : list Note) :
  (forall i : Z,
      0 <= i < Z.of_nat (length notes) ->
      let out := delete_note (PyInt i) notes in
      fst out = Ok tt
      /\ length (snd out) = (length notes - 1)%nat
      /\ forall j : nat,
           snd out !! j
           = if decide (j < Z.to_nat i)%nat then notes !! j
             else notes !! S j)
  /\ (forall i : Z,
         ~ (0 <= i < Z.of_nat (length notes)) ->
         delete_note (PyInt i) notes = (Ok tt, notes))
  /\ (forall line : string,
         menu_delete_note line notes = (Raise TypeError, notes))
  /\ (forall title content : string,
         delete_note (PyInt (Z.of_nat (length notes)))
                     (add_note title content notes)
         = (Ok tt, notes)).
Proof.
  repeat split.
  - unfold delete_note.
    replace ((0 <=? i) && (i <? Z.of_nat (length notes))) with true
      by (symmetry; apply andb_true_iff; split;
          [apply Z.leb_le|apply Z.ltb_lt]; lia).
    reflexivity.
  - unfold delete_note.
    replace ((0 <=? i) && (i <? Z.of_nat (length notes))) with true
      by (symmetry; apply andb_true_iff; split;
          [apply Z.leb_le|apply Z.ltb_lt]; lia).
    simpl. apply delete_positions. lia.
  - unfold delete_note.
    replace ((0 <=? i) && (i <? Z.of_nat (length notes))) with true
      by (symmetry; apply andb_true_iff; split;
          [apply Z.leb_le|apply Z.ltb_lt]; lia).
    simpl. apply delete_positions. lia.
  - intros i Hi. unfold delete_note.
    destruct ((0 <=? i) && (i <? Z.of_nat (length notes))) eqn:E;
      [|reflexivity].
    apply andb_true_iff in E as [E1 E2].
    apply Z.leb_le in E1. apply Z.ltb_lt in E2. lia.
  - intros title content. unfold delete_note, add_note.
    rewrite length_app. simpl.
    replace ((0 <=? Z.of_nat (length notes))
             && (Z.of_nat (length notes)
                 <? Z.of_nat (length notes + 1))) with true
      by (symmetry; apply andb_true_iff; split;
          [apply Z.leb_le|apply Z.ltb_lt]; lia).
    rewrite Nat2Z.id, delete_middle, app_nil_r. reflexivity.
Qed.

End NotesFacts.

Section NotebookFacts.
Import Notebook.

Lemma enumerate_spec (notes : list Note) (start m : Z) (note : Note) :
  In (m, note) (enumerate start notes)
  <-> start <= m /\ notes !! Z.to_nat (m - start) = Some note.
Proof.
  revert start. induction notes as [|x notes IH]; intros start; simpl.
  - split; [tauto|]. intros [_ H0]. discriminate.
  - rewrite IH. split.
    + intros [Heq|[Hle Hl]].
      * injection Heq as <- <-. split; [lia|].
        replace (start - start) with 0 by lia. reflexivity.
      * split; [lia|].
        replace (Z.to_nat (m - start)) with (S (Z.to_nat (m - (start + 1))))
          by lia.
        exact Hl.
    + intros [Hle Hl]. destruct (Z.eq_dec m start) as [->|Hne].
      * left. replace (start - start) with 0 in Hl by lia.
        simpl in Hl. injection Hl as ->. reflexivity.
      * right. split; [lia|].
        replace (Z.to_nat (m - start)) with (S (Z.to_nat (m - (start + 1))))
          in Hl by lia.
        exact Hl.
Qed.

(** X28: [delete_note] of [project_end.py] takes the number that
    [show_notes] prints in front of a note: that note goes, the notes
    printed before it keep their numbers, and the notes after it are
    printed under a number that is one less. *)
Theorem delete_note_by_shown_number (n : Z) (note : Note)
        (notes : list Note) :
  In (n, note) (enumerate 1 notes) ->
  length (delete_note n notes) = (length notes - 1)%nat
  /\ forall (m : Z) (other : Note),
       In (m, other) (enumerate 1 (delete_note n notes))
       <-> (m < n /\ In (m, other) (enumerate 1 notes))
           \/ (n <= m /\ In (m + 1, other) (enumerate 1 notes)).
Proof.
  intros Hin. apply enumerate_spec in Hin as [Hn Hl].
  assert (Hlt : (Z.to_nat (n - 1) < length notes)%nat)
    by (apply lookup_lt_is_Some; eauto).
  unfold delete_note.
  replace ((1 <=? n) && (n <=? Z.of_nat (length notes))) with true
    by (symmetry; apply andb_true_iff; split; apply Z.leb_le; lia).
  destruct (delete_positions (Z.to_nat (n - 1)) notes Hlt) as [Hlen Hpos].
  split; [exact Hlen|].
  intros m other. rewrite !enumerate_spec, Hpos.
  destruct (decide (Z.to_nat (m - 1) < Z.to_nat (n - 1))%nat) as [Hd|Hd].
  - split.
    + intros [Hm Hx]. left. split; [lia|]. split; [exact Hm|exact Hx].
    + intros [[Hm [Hm1 Hx]]|[Hm _]]; [|lia]. split; [exact Hm1|exact Hx].
  - replace (Z.to_nat (m + 1 - 1)) with (Z.to_nat m) by lia.
    split.
    + intros [Hm Hx]. right. split; [lia|]. split; [lia|].
      replace (Z.to_nat m) with (S (Z.to_nat (m - 1))) by lia. exact Hx.
    + intros [[Hm [Hm1 Hx]]|[Hm [_ Hx]]]; [lia|]. split; [lia|].
      replace (S (Z.to_nat (m - 1))) with (Z.to_nat m) by lia. exact Hx.
Qed.

Lemma delete_note_by_shown_number_witness :
  let a := mkNote "milk" (Sample.at_time 2024 3 10 9) [] in
  let b := mkNote "bread" (Sample.at_time 2024 3 10 9) ["shop"] in
  let c := mkNote "call" (Sample.at_time 2024 3 10 9) [] in
  In (2, b) (enumerate 1 [a; b; c])
  /\ (length (delete_note 2 [a; b; c]) = (length [a; b; c] - 1)%nat
      /\ forall (m : Z) (other : Note),
           In (m, other) (enumerate 1 (delete_note 2 [a; b; c]))
           <-> (m < 2 /\ In (m, other) (enumerate 1 [a; b; c]))
               \/ (2 <= m /\ In (m + 1, other) (enumerate 1 [a; b; c]))).
Proof.
  intros a b c. split.
  - simpl. right. left. reflexivity.
  - apply (delete_note_by_shown_number 2 b [a; b; c]).
    simpl. right. left. reflexivity.
Defined.

Lemma has_tag_spec (tag : string) (note : Note) :
  has_tag tag note = true <-> In tag (tags note).
Proof.
  unfold has_tag. rewrite existsb_exists. split.
  - intros [x [Hx Heq]]. apply String.eqb_eq in Heq. subst x. exact Hx.
  - intros Hx. exists tag. split; [exact Hx|apply String.eqb_refl].
Qed.

Lemma has_tag_add_tag (tag tag' : string) (note : Note) :
  has_tag tag' (note_add_tag tag note)
  = has_tag tag' note || String.eqb tag' tag.
Proof.
  unfold has_tag, note_add_tag. simpl. rewrite existsb_app. simpl.
  rewrite orb_false_r. reflexivity.
Qed.

(** X29: [Tag.add_tag] with the number of a note appends the tag to that
    note's tags (also when the note has it already), after which
    [search_tag] for that tag returns the note; every other note stays
    as it is, and for every other tag each note is found or not found
    as before. *)
Theorem add_tag_then_search_tag (note_index : Z) (tag : string)
        (notes : list Note) :
  1 <= note_index <= Z.of_nat (length notes) ->
  let notes' := add_tag note_index tag notes in
  let i := Z.to_nat (note_index - 1) in
  length notes' = length notes
  /\ (exists note,
        notes !! i = Some note
        /\ notes' !! i = Some (note_add_tag tag note)
        /\ tags (note_add_tag tag note) = (tags note ++ [tag])%list
        /\ In (note_add_tag tag note) (search_tag tag notes'))
  /\ (forall j : nat, j <> i -> notes' !! j = notes !! j)
  /\ (forall (tag' : string) (j : nat) (before after : Note),
         tag' <> tag -> notes !! j = Some before ->
         notes' !! j = Some after ->
         has_tag tag' after = has_tag tag' before).
Proof.
  intros Hr notes' i. unfold notes', add_tag. fold i.
  replace ((1 <=? note_index) && (note_index <=? Z.of_nat (length notes)))
    with true
    by (symmetry; apply andb_true_iff; split; apply Z.leb_le; lia).
  assert (Hi : (i < length notes)%nat) by (unfold i; lia).
  destruct (lookup_lt_is_Some_2 notes i Hi) as [note Hnote].
  rewrite Hnote. split; [apply length_insert|]. split; [|split].
  - exists note. split; [reflexivity|].
    assert (Hnew : <[i:=note_add_tag tag note]> notes !! i
                   = Some (note_add_tag tag note))
      by (apply list_lookup_insert_eq; exact Hi).
    split; [exact Hnew|]. split; [reflexivity|].
    unfold search_tag. apply filter_In. split.
    + apply list_elem_of_In, list_elem_of_lookup. exists i. exact Hnew.
    + rewrite has_tag_add_tag, String.eqb_refl. apply orb_true_r.
  - intros j Hj. apply list_lookup_insert_ne. congruence.
  - intros tag' j before after Hne Hb Ha.
    destruct (Nat.eq_dec j i) as [->|Hji].
    + rewrite list_lookup_insert_eq in Ha by exact Hi.
      injection Ha as <-. rewrite Hnote in Hb. injection Hb as <-.
      rewrite has_tag_add_tag.
      apply String.eqb_neq in Hne. rewrite Hne. apply orb_false_r.
    + rewrite list_lookup_insert_ne in Ha by congruence.
      rewrite Hb in Ha. injection Ha as <-. reflexivity.
Qed.

Lemma add_tag_then_search_tag_witness :
  let a := mkNote "milk" (Sample.at_time 2024 3 10 9) [] in
  let b := mkNote "bread" (Sample.at_time 2024 3 10 9) ["shop"] in
  In (note_add_tag "shop" b) (search_tag "shop" (add_tag 2 "shop" [a; b])).
Proof.
  intros a b.
  destruct (add_tag_then_search_tag 2 "shop" [a; b]) as [_ [Hx _]];
    [simpl; lia|].
  destruct Hx as [note [Hn [_ [_ Hs]]]].
  simpl in Hn. injection Hn as <-. exact Hs.
Defined.

End NotebookFacts.

Section SortTagsFacts.
Import Notebook.

Lemma ascii_compare_refl (c : ascii) : Ascii.compare c c = Eq.
Proof. unfold Ascii.compare. apply N.compare_refl. Qed.

Lemma ascii_below_trans (x y z : ascii) :
  Ascii.compare x y = Lt -> Ascii.compare y z = Lt ->
  Ascii.compare x z = Lt.
Proof.
  unfold Ascii.compare. rewrite !N.compare_lt_iff. apply N.lt_trans.
Qed.

Lemma below_irrefl (a : string) : ~ below a a.
Proof.
  unfold below. induction a as [|c a IH]; simpl; [discriminate|].
  rewrite ascii_compare_refl. exact IH.
Qed.

Lemma below_trans (a b c : string) : below a b -> below b c -> below a c.
Proof.
  unfold below. revert b c.
  induction a as [|x a IH]; intros [|y b] [|z c]; simpl;
    try discriminate; try reflexivity.
  destruct (Ascii.compare x y) eqn:Exy; try discriminate;
    destruct (Ascii.compare y z) eqn:Eyz; try discriminate; intros Hab Hbc.
  - apply Ascii.compare_eq_iff in Exy, Eyz. subst.
    rewrite ascii_compare_refl. exact (IH _ _ Hab Hbc).
  - apply Ascii.compare_eq_iff in Exy. subst. rewrite Eyz. reflexivity.
  - apply Ascii.compare_eq_iff in Eyz. subst. rewrite Exy. reflexivity.
  - rewrite (ascii_below_trans _ _ _ Exy Eyz). reflexivity.
Qed.

Lemma insert_tag_In (tag x : string) (l : list string) :
  In x (insert_tag tag l) <-> x = tag \/ In x l.
Proof.
  induction l as [|y l IH]; simpl; [intuition|].
  destruct (String.compare tag y) eqn:E; simpl.
  - apply String.compare_eq_iff in E. subst y. intuition.
  - intuition.
  - rewrite IH. intuition.
Qed.

Lemma insert_tag_sorted (tag : string) (l : list string) :
  StronglySorted below l -> StronglySorted below (insert_tag tag l).
Proof.
  induction 1 as [|y l Hs IH Hall]; simpl.
  - constructor; constructor.
  - destruct (String.compare tag y) eqn:E.
    + constructor; assumption.
    + constructor; [constructor; assumption|].
      constructor; [exact E|].
      apply List.Forall_forall. intros x Hx.
      apply below_trans with y; [exact E|].
      exact (proj1 (List.Forall_forall _ _) Hall x Hx).
    + constructor; [exact IH|].
      apply List.Forall_forall. intros x Hx.
      apply insert_tag_In in Hx as [->|Hx].
      * unfold below. rewrite String.compare_antisym, E. reflexivity.
      * exact (proj1 (List.Forall_forall _ _) Hall x Hx).
Qed.

Lemma sorted_set_In (x : string) (l : list string) :
  In x (sorted_set l) <-> In x l.
Proof.
  unfold sorted_set. induction l as [|y l IH]; simpl; [tauto|].
  rewrite insert_tag_In, IH. intuition.
Qed.

Lemma sorted_set_sorted (l : list string) :
  StronglySorted below (sorted_set l).
Proof.
  unfold sorted_set. induction l as [|y l IH]; simpl.
  - constructor.
  - apply insert_tag_sorted, IH.
Qed.

Lemma sorted_ascending (l : list string) :
  StronglySorted below l -> ascending l.
Proof.
  induction 1 as [|y l Hs IH Hall]; intros i j a b Hij Ha Hb.
  - destruct i; discriminate.
  - destruct j as [|j]; [lia|]. destruct i as [|i]; simpl in *.
    + injection Ha as <-.
      apply (proj1 (List.Forall_forall _ _) Hall).
      apply list_elem_of_In, list_elem_of_lookup. exists j. exact Hb.
    + apply (IH i j); [lia|assumption|assumption].
Qed.

Lemma sorted_NoDup (l : list string) : StronglySorted below l -> NoDup l.
Proof.
  induction 1 as [|y l Hs IH Hall].
  - apply NoDup_nil_2.
  - apply NoDup_cons_2; [|exact IH].
    intros Hy. apply list_elem_of_In in Hy.
    exact (below_irrefl y (proj1 (List.Forall_forall _ _) Hall y Hy)).
Qed.

Lemma setitem_fresh {V : Type} (k : string) (v : V)
      (d : list (string * V)) :
  ~ In k (PyDict.keys d) -> PyDict.setitem k v d = (d ++ [(k, v)])%list.
Proof.
  induction d as [|[k' v'] d IH]; simpl; intros Hk; [reflexivity|].
  destruct (decide (k' = k)) as [->|Hne]; [tauto|].
  rewrite IH by tauto. reflexivity.
Qed.

Lemma fill_fresh {V : Type} (f : string -> V) (l : list string) :
  NoDup l -> forall d : list (string * V),
  (forall k, In k l -> ~ In k (PyDict.keys d)) ->
  fold_left (fun acc k => PyDict.setitem k (f k) acc) l d
  = (d ++ map (fun k => (k, f k)) l)%list.
Proof.
  induction 1 as [|k l Hk Hl IH]; intros d Hd; simpl.
  - rewrite app_nil_r. reflexivity.
  - rewrite setitem_fresh by (apply Hd; left; reflexivity).
    rewrite IH.
    + rewrite <- app_assoc. reflexivity.
    + intros k' Hk'. unfold PyDict.keys. rewrite map_app, in_app_iff.
      simpl. intros [Hin|[Heq|[]]].
      * exact (Hd k' (or_intror Hk') Hin).
      * subst k'. apply Hk, list_elem_of_In, Hk'.
Qed.

Lemma sort_tags_map (notes : list Note) :
  sort_tags notes
  = map (fun tag => (tag, search_tag tag notes))
        (sorted_set (all_tags notes)).
Proof.
  unfold sort_tags.
  rewrite (fill_fresh (fun tag => List.filter (has_tag tag) notes)).
  - reflexivity.
  - apply sorted_NoDup, sorted_set_sorted.
  - intros k _ [].
Qed.

Lemma sort_tags_keys (notes : list Note) :
  PyDict.keys (sort_tags notes) = sorted_set (all_tags notes).
Proof.
  rewrite sort_tags_map. unfold PyDict.keys. rewrite map_map. simpl.
  apply map_id.
Qed.

(** X30: the dict returned by [Tag.sort_tags] has as its keys the tags
    that some note carries, each once and in ascending order, and under
    each key the list [search_tag] returns for it, which is never
    empty. *)
Theorem sort_tags_spec (notes : list Note) :
  let sorted_dict := sort_tags notes in
  ascending (PyDict.keys sorted_dict)
  /\ NoDup (PyDict.keys sorted_dict)
  /\ (forall tag : string,
         In tag (PyDict.keys sorted_dict)
         <-> exists note, In note notes /\ In tag (tags note))
  /\ (forall (tag : string) (found : list Note),
         In (tag, found) sorted_dict ->
         found = search_tag tag notes /\ found <> []).
Proof.
  intros sorted_dict. unfold sorted_dict. rewrite sort_tags_keys.
  assert (Hkeys : forall tag : string,
             In tag (sorted_set (all_tags notes))
             <-> exists note, In note notes /\ In tag (tags note)).
  { intros tag. rewrite sorted_set_In. unfold all_tags.
    apply in_flat_map. }
  split; [apply sorted_ascending, sorted_set_sorted|].
  split; [apply sorted_NoDup, sorted_set_sorted|].
  split; [exact Hkeys|].
  intros tag found Hin. rewrite sort_tags_map in Hin.
  apply in_map_iff in Hin as [tag' [Heq Htag]].
  injection Heq as -> <-. split; [reflexivity|].
  apply Hkeys in Htag as [note [Hnote Htag]].
  intros Hnil.
  assert (Hf : In note (search_tag tag notes)).
  { unfold search_tag. apply filter_In. split; [exact Hnote|].
    apply has_tag_spec, Htag. }
  rewrite Hnil in Hf. exact Hf.
Qed.

End SortTagsFacts.

(** ** Validation and search on text of any script *)

Section UnicodeFacts.
Import Unicode.

Variable is_decimal : Z -> bool.
Variable lower : str -> str.

Lemma match_digits_split (n : nat) (s rest : str) :
  match_digits is_decimal n s = Some rest
  <-> exists d, s = (d ++ rest)%list /\ length d = n
                /\ forallb is_decimal d = true.
Proof.
  revert s. induction n as [|n IH]; intros s; simpl.
  - split.
    + intros [= <-]. exists []. auto.
    + intros (d & -> & Hd & _). destruct d; [reflexivity|discriminate].
  - destruct s as [|c s].
    + split; [discriminate|]. intros (d & Hs & Hd & _).
      destruct d; discriminate.
    + destruct (is_decimal c) eqn:Hc.
      * rewrite IH. split.
        -- intros (d & -> & Hd & Hall). exists (c :: d). simpl.
           rewrite Hc, Hd, Hall. auto.
        -- intros (d & Hs & Hd & Hall). destruct d as [|x d]; [discriminate|].
           injection Hs as -> ->. simpl in Hall.
           apply andb_prop in Hall as [_ Hall].
           exists d. split; [reflexivity|]. split; [|exact Hall].
           simpl in Hd. lia.
      * split; [discriminate|]. intros (d & Hs & Hd & Hall).
        destruct d as [|x d]; [discriminate|]. injection Hs as -> ->.
        simpl in Hall. rewrite Hc in Hall. discriminate.
Qed.

Lemma at_dollar_spec (s : str) : at_dollar s = true <-> s = [] \/ s = [LF].
Proof.
  destruct s as [|c [|c' s]]; simpl.
  - tauto.
  - rewrite Z.eqb_eq. split; [intros ->; auto|].
    intros [H0|[= ->]]; [discriminate|reflexivity].
  - split; [discriminate|]. intros [H0|H0]; discriminate.
Qed.

(** X4: [validate_phone] accepts exactly the strings of nine decimal
    digits, with or without one line feed after them.  A decimal digit
    is whatever the class [\d] holds: the digits of every script, not
    only 0-9. *)
Theorem validate_phone_accepted_strings (s : str) :
  validate_phone is_decimal s = true
  <-> exists d, length d = 9%nat /\ forallb is_decimal d = true
                /\ (s = d \/ s = (d ++ [LF])%list).
Proof.
  unfold validate_phone.
  destruct (match_digits is_decimal 9 s) as [rest|] eqn:Hm.
  - apply match_digits_split in Hm as (d & -> & Hd & Hall).
    rewrite at_dollar_spec. split.
    + intros [->| ->]; exists d; rewrite ?app_nil_r; auto.
    + intros (d' & Hd' & _ & Hs).
      assert (Hdd : d' = d /\ (rest = [] \/ rest = [LF])).
      { destruct Hs as [Hs|Hs].
        - assert (Hr : rest = []).
          { apply (f_equal (@length Z)) in Hs. rewrite length_app in Hs.
            destruct rest; [reflexivity|simpl in Hs; lia]. }
          subst rest. rewrite app_nil_r in Hs. auto.
        - apply app_inj_1 in Hs as [-> ->]; [auto|lia]. }
      tauto.
  - split; [discriminate|]. intros (d & Hd & Hall & Hs).
    assert (Hsome : match_digits is_decimal 9 s <> None).
    { destruct Hs as [->| ->].
      - rewrite <- (app_nil_r d).
        rewrite (proj2 (match_digits_split 9 (d ++ []) [])); [discriminate|].
        exists d. auto.
      - rewrite (proj2 (match_digits_split 9 (d ++ [LF]) [LF]));
          [discriminate|]. exists d. auto. }
    contradiction.
Qed.

Lemma wide_scan_fields (t : str) (fields : list Field) (r : Record_)
      (found : list Record_) :
  scan_fields t fields r found
  = if some_has t fields then found ++ [r] else found.
Proof.
  unfold some_has. induction fields as [|f fields IH]; simpl; [reflexivity|].
  destruct (str_in t (value f)); simpl; auto.
Qed.

(** What one record contributes to the result. *)
Lemma wide_find_step (t : str) (r : Record_) (acc : list Record_) :
  find_step lower t acc r
  = acc ++ (if name_has lower t r then [r]
            else (if some_has t (phones r) then [r] else [])
                 ++ (if some_has t (emails r) then [r] else [])).
Proof.
  unfold find_step, name_has. rewrite !wide_scan_fields.
  destruct (str_in (lower t) (lower (value (name r)))); [reflexivity|].
  destruct (some_has t (phones r)), (some_has t (emails r)); simpl;
    rewrite <- ?app_assoc, ?app_nil_r; reflexivity.
Qed.

Lemma wide_fold (t : str) (records acc : list Record_) :
  fold_left (find_step lower t) records acc
  = acc ++ flat_map (fun r => find_step lower t [] r) records.
Proof.
  revert acc. induction records as [|r records IH]; intros acc; simpl.
  - rewrite app_nil_r. reflexivity.
  - rewrite IH, (wide_find_step t r acc), (wide_find_step t r []).
    simpl. rewrite <- app_assoc. reflexivity.
Qed.

Lemma wide_step_membership (t : str) (r0 r : Record_) :
  In r (find_step lower t [] r0) <-> r0 = r /\ matches lower t r0 = true.
Proof.
  rewrite wide_find_step. unfold matches. simpl.
  destruct (name_has lower t r0), (some_has t (phones r0)),
    (some_has t (emails r0)); simpl; intuition discriminate.
Qed.

Lemma wide_find_membership {K : Type} (data : list (K * Record_))
        (term : str) (r : Record_) :
  In r (find_record lower data term)
  <-> In r (PyDict.values data) /\ matches lower term r = true.
Proof.
  unfold find_record. rewrite wide_fold. simpl. rewrite in_flat_map.
  split.
  - intros (r0 & Hin & Hr). apply wide_step_membership in Hr as [<- Hm].
    auto.
  - intros [Hin Hm]. exists r. split; [exact Hin|].
    apply wide_step_membership. auto.
Qed.

(** X20: in both books a record is returned by [find_record] exactly
    when it is in the book and the lowered term occurs in its lowered
    name, or the term as typed occurs in one of its phones or e-mail
    addresses. *)
Theorem find_record_finds_matching {K : Type} (data : list (K * Record_))
        (term : str) (r : Record_) :
  In r (find_record lower data term)
  <-> In r (PyDict.values data) /\ matches lower term r = true.
Proof. apply wide_find_membership. Qed.

(** X21: when no record of the book has both a phone and an e-mail
    address that contain the term while its name does not, the search
    returns the matching records once each, in the order of the book. *)
Theorem find_in_once_each {K : Type} (data : list (K * Record_))
        (term : str) :
  (forall r, In r (PyDict.values data) ->
     name_has lower term r = true
     \/ some_has term (phones r) = false
     \/ some_has term (emails r) = false) ->
  find_record lower data term
  = List.filter (matches lower term) (PyDict.values data).
Proof.
  unfold find_record. rewrite wide_fold. simpl.
  induction (PyDict.values data) as [|r records IH]; intros Hno;
    [reflexivity|].
  simpl. rewrite IH by (intros; apply Hno; right; assumption).
  rewrite wide_find_step. simpl. unfold matches at 2.
  destruct (Hno r (or_introl eq_refl)) as [Hn|[Hp|He]].
  - rewrite Hn. reflexivity.
  - rewrite Hp. destruct (name_has lower term r); [reflexivity|].
    destruct (some_has term (emails r)); reflexivity.
  - rewrite He. destruct (name_has lower term r); [reflexivity|].
    destruct (some_has term (phones r)); reflexivity.
Qed.

Lemma wide_by_name (term : str) (d acc : list (Z * Record_)) :
  fold_left (by_name_step lower term) d acc
  = acc ++ List.filter (fun e => name_has lower term (snd e)) d.
Proof.
  revert acc. induction d as [|e d IH]; intros acc; simpl.
  - rewrite app_nil_r. reflexivity.
  - rewrite IH. unfold by_name_step, name_has.
    destruct (str_in _ _); simpl; [|reflexivity].
    rewrite <- app_assoc. reflexivity.
Qed.

Lemma wide_str_in_empty (s : str) : str_in [] s = true.
Proof. destruct s; reflexivity. Qed.

(** X14: [find_records_by_name] returns, in the order of the book, the
    entries whose lowered name contains the lowered term; each record
    it returns is also returned by [find_record] for the same term; and
    the empty term, which [lower] leaves empty, returns every entry. *)
Theorem find_records_by_name_spec (data : list (Z * Record_)) (term : str) :
  find_records_by_name lower data term
  = List.filter (fun e => name_has lower term (snd e)) data
  /\ (forall e, In e (find_records_by_name lower data term) ->
        In e data /\ In (snd e) (find_record lower data term))
  /\ (lower [] = [] -> find_records_by_name lower data [] = data).
Proof.
  assert (E : forall t, find_records_by_name lower data t
                        = List.filter (fun e => name_has lower t (snd e)) data)
    by (intros t; unfold find_records_by_name; apply wide_by_name).
  split; [apply E|]. split.
  - intros e He. rewrite E in He. apply filter_In in He as [Hin Hname].
    split; [exact Hin|]. apply wide_find_membership. split.
    + unfold PyDict.values. apply in_map, Hin.
    + unfold matches. rewrite Hname. reflexivity.
  - intros Hnil. rewrite E. clear E.
    induction data as [|e d IH]; simpl; [reflexivity|].
    unfold name_has at 1. rewrite Hnil, wide_str_in_empty. f_equal. exact IH.
Qed.

End UnicodeFacts.

Section UnicodeExamples.
Import Unicode.

(** The name is found whatever the case of its letters, also outside
    Latin-1, and nine digits of another script pass for a phone. *)
Lemma other_scripts :
  find_record lower_sample [(1, lukasz)] lukasz_term = [lukasz]
  /\ validate_phone decimal_sample
       [1633; 1634; 1635; 1636; 1637; 1638; 1639; 1640; 1641] = true.
Proof. split; reflexivity. Qed.

Lemma find_in_once_each_witness :
  find_record lower_sample [(1, lukasz)] lukasz_term
  = List.filter (matches lower_sample lukasz_term)
                (PyDict.values [(1, lukasz)]).
Proof.
  apply (find_in_once_each lower_sample [(1, lukasz)] lukasz_term).
  intros r [<-|[]]. left. reflexivity.
Defined.

End UnicodeExamples.

(** ** Latin-1 text in the wider model

    On text of code points below 256 the definitions of [Phone] and
    [Find] give what those of [Unicode] give, for any tables that agree
    with [PyStr.is_digit] and [PyStr.lower] on that range. *)

Section Latin1Facts.

Variable is_decimal : Z -> bool.
Variable lower : Unicode.str -> Unicode.str.

Hypothesis decimal_latin1 :
  forall c : ascii, is_decimal (Z.of_nat (nat_of_ascii c)) = PyStr.is_digit c.
Hypothesis lower_latin1 :
  forall s : string,
    lower (Unicode.of_string s) = Unicode.of_string (PyStr.lower s).

Lemma of_string_cons (c : ascii) (s : string) :
  Unicode.of_string (String c s)
  = Z.of_nat (nat_of_ascii c) :: Unicode.of_string s.
Proof. reflexivity. Qed.

Lemma code_eqb (x y : ascii) :
  (Z.of_nat (nat_of_ascii x) =? Z.of_nat (nat_of_ascii y)) = Ascii.eqb x y.
Proof.
  destruct (Ascii.eqb_spec x y) as [->|Hne]; [apply Z.eqb_refl|].
  apply Z.eqb_neq. intros Heq. apply Hne. apply Nat2Z.inj in Heq.
  rewrite <- (ascii_nat_embedding x), <- (ascii_nat_embedding y), Heq.
  reflexivity.
Qed.

Lemma startswith_latin1 (a b : string) :
  Unicode.startswith (Unicode.of_string a) (Unicode.of_string b)
  = PyStr.startswith a b.
Proof.
  revert b. induction a as [|x a IH]; intros [|y b]; try reflexivity.
  rewrite !of_string_cons. simpl. rewrite code_eqb, IH. reflexivity.
Qed.

Lemma str_in_latin1 (a b : string) :
  Unicode.str_in (Unicode.of_string a) (Unicode.of_string b)
  = PyStr.str_in a b.
Proof.
  induction b as [|y b IH].
  - simpl. rewrite <- (startswith_latin1 a ""). reflexivity.
  - rewrite of_string_cons. simpl. rewrite <- IH.
    rewrite <- (startswith_latin1 a (String y b)), of_string_cons.
    reflexivity.
Qed.

Lemma match_digits_latin1 (n : nat) (s : string) :
  Unicode.match_digits is_decimal n (Unicode.of_string s)
  = option_map Unicode.of_string (Phone.match_digits n s).
Proof.
  revert s. induction n as [|n IH]; intros s; [reflexivity|].
  destruct s as [|c s]; [reflexivity|].
  rewrite of_string_cons. simpl. rewrite decimal_latin1.
  destruct (PyStr.is_digit c); [apply IH|reflexivity].
Qed.

Lemma at_dollar_latin1 (s : string) :
  Unicode.at_dollar (Unicode.of_string s) = Phone.at_dollar s.
Proof.
  destruct s as [|c [|c' s]]; try reflexivity.
  simpl. apply (code_eqb c PyStr.LF).
Qed.

(** [validate_phone] on Latin-1 text *)
Lemma validate_phone_latin1 (s : string) :
  Unicode.validate_phone is_decimal (Unicode.of_string s)
  = Phone.validate_phone s.
Proof.
  unfold Unicode.validate_phone, Phone.validate_phone.
  rewrite match_digits_latin1.
  destruct (Phone.match_digits 9 s); [apply at_dollar_latin1|reflexivity].
Qed.

Lemma some_has_latin1 (t : string) (fields : list Field) :
  Unicode.some_has (Unicode.of_string t) (map Latin1.field fields)
  = existsb (fun f => PyStr.str_in t (value f)) fields.
Proof.
  unfold Unicode.some_has. induction fields as [|f fields IH]; [reflexivity|].
  simpl. rewrite str_in_latin1, IH. reflexivity.
Qed.

Lemma find_step_latin1 (t : string) (acc : list Record_) (r : Record_) :
  Unicode.find_step lower (Unicode.of_string t) (map Latin1.record acc)
                    (Latin1.record r)
  = map Latin1.record (Find.find_step t acc r).
Proof.
  unfold Unicode.find_step, Find.find_step.
  rewrite !wide_scan_fields, !scan_fields_spec. simpl.
  rewrite !lower_latin1, str_in_latin1, !some_has_latin1.
  destruct (PyStr.str_in _ _); [rewrite map_app; reflexivity|].
  destruct (existsb _ (phones r)), (existsb _ (emails r));
    rewrite ?map_app; reflexivity.
Qed.

(** [find_record] on Latin-1 text *)
Lemma find_record_latin1 {K : Type} (data : list (K * Record_))
      (t : string) :
  Unicode.find_record lower
    (map (fun e => (fst e, Latin1.record (snd e))) data) (Unicode.of_string t)
  = map Latin1.record (Find.find_in (PyDict.values data) t).
Proof.
  unfold Unicode.find_record, Find.find_in, PyDict.values.
  rewrite map_map. simpl.
  change [] with (map Latin1.record []) at 1.
  generalize (@nil Record_) as acc.
  induction data as [|[k r] data IH]; intros acc; simpl; [reflexivity|].
  rewrite find_step_latin1. apply IH.
Qed.

End Latin1Facts.

(** ** The identifier of a record that is an object *)

Section SharedFacts.
Import Shared.

Lemma contains_through {V W : Type} (f : V -> W) (k : Z) (d : list (Z * V)) :
  PyDict.contains k (map (fun e => (fst e, f (snd e))) d)
  = PyDict.contains k d.
Proof.
  induction d as [|[k0 v] d IH]; simpl; [reflexivity|].
  destruct (decide (k0 = k)); [reflexivity|exact IH].
Qed.

Lemma shadow_keys (st : state) :
  PyDict.keys (PersonalAssistant.data (shadow st)) = PyDict.keys (data st).
Proof.
  unfold shadow, PyDict.keys. simpl. rewrite map_map. reflexivity.
Qed.

Lemma shadow_skip (fuel : nat) (st : state) (free : gset Z) (n : Z) :
  PersonalAssistant.skip_used fuel (PersonalAssistant.data (shadow st)) free n
  = skip_used fuel (data st) free n.
Proof.
  unfold shadow. simpl. revert n.
  induction fuel as [|fuel IH]; intros n; simpl; [reflexivity|].
  rewrite contains_through, IH. reflexivity.
Qed.

Lemma shadow_fuel (st : state) :
  PersonalAssistant.loop_fuel (shadow st) = loop_fuel st.
Proof.
  unfold PersonalAssistant.loop_fuel, loop_fuel, shadow. simpl.
  rewrite length_map. reflexivity.
Qed.

(** The identifier, the keys, the counter and the free identifiers are
    those of [PersonalAssistant.add_record] on the shadow. *)
Lemma add_record_shadow (o : ref) (r : Record_) (st : state) :
  let a := add_record o st in
  let a' := PersonalAssistant.add_record r (shadow st) in
  fst a = fst a'
  /\ PyDict.keys (data (snd a)) = PyDict.keys (PersonalAssistant.data (snd a'))
  /\ next_id (snd a) = PersonalAssistant.next_id (snd a')
  /\ free_ids (snd a) = PersonalAssistant.free_ids (snd a').
Proof.
  unfold add_record, PersonalAssistant.add_record.
  rewrite shadow_fuel, shadow_skip. simpl.
  destruct (PersonalAssistant.set_min (free_ids st)) as [i|]; simpl;
    rewrite !keys_setitem, <- (shadow_keys st);
    unfold shadow; simpl; rewrite contains_through; auto.
Qed.

Lemma sound_shadow (st : state) :
  sound st <-> PersonalAssistantMore.sound (shadow st).
Proof.
  unfold sound. split.
  - intros [Hnd Hnf]. split; rewrite shadow_keys; assumption.
  - intros [Hnd Hnf]. rewrite shadow_keys in Hnd, Hnf. auto.
Qed.

Lemma add_record_keeps_sound (o : ref) (st : state) :
  sound st ->
  sound (snd (add_record o st))
  /\ fst (add_record o st) ∉ PyDict.keys (data st).
Proof.
  intros Hs. apply sound_shadow in Hs.
  destruct (add_record_sound (objects st o) (shadow st) Hs) as [[Hnd Hnf] Hk].
  destruct (add_record_shadow o (objects st o) st) as (E1 & E2 & _ & E4).
  split.
  - split; [rewrite E2; exact Hnd|].
    intros k Hk'. rewrite E2 in Hk'. rewrite E4. exact (Hnf k Hk').
  - rewrite E1, <- shadow_keys. exact Hk.
Qed.

Lemma delete_keeps_sound (input : option Z) (st : state) :
  sound st -> sound (delete_record_by_id input st).
Proof.
  intros [Hnd Hnf]. destruct input as [k|]; simpl; [|split; assumption].
  destruct (PyDict.contains k (data st)); [|split; assumption].
  destruct (keys_delitem_NoDup k (data st) Hnd) as [Hnd' Hk'].
  split; simpl; [exact Hnd'|].
  intros j Hj. pose proof (keys_delitem_subset _ _ _ Hj) as Hj0.
  intros [Hjk|Hfree]%elem_of_union.
  - apply elem_of_singleton in Hjk. subst. contradiction.
  - exact (Hnf j Hj0 Hfree).
Qed.

Lemma own_skip_used_ge (fuel : nat) (d : list (Z * ref)) (free : gset Z)
      (n : Z) :
  n <= skip_used fuel d free n.
Proof.
  revert n. induction fuel as [|fuel IH]; intros n; simpl; [lia|].
  destruct (_ || _); [|lia]. pose proof (IH (n + 1)). lia.
Qed.

Lemma filed_spec (o : ref) (st : state) :
  filed o st = true <-> o ∈ PyDict.values (data st).
Proof.
  unfold filed. rewrite existsb_exists, list_elem_of_In. split.
  - intros (x & Hx & Heq). apply Pos.eqb_eq in Heq. subst x. exact Hx.
  - intros Hx. exists o. split; [exact Hx|apply Pos.eqb_refl].
Qed.

Lemma values_snoc {V : Type} (k : Z) (v : V) (d : list (Z * V)) :
  k ∉ PyDict.keys d -> PyDict.setitem k v d = (d ++ [(k, v)])%list.
Proof.
  unfold PyDict.keys. induction d as [|[k0 v0] d IH]; simpl; [reflexivity|].
  intros [Hne Hk]%not_elem_of_cons.
  destruct (decide (k0 = k)); [congruence|]. rewrite IH by exact Hk.
  reflexivity.
Qed.

Lemma values_delitem {V : Type} (k : Z) (d : list (Z * V)) :
  NoDup (PyDict.values d) -> NoDup (PyDict.values (PyDict.delitem k d)).
Proof.
  unfold PyDict.values. induction d as [|[k0 v0] d IH]; simpl; [auto|].
  intros [Hv Hd]%NoDup_cons. destruct (decide (k0 = k)); [exact Hd|].
  simpl. apply NoDup_cons. split; [|exact (IH Hd)].
  intros Hin. apply Hv. apply list_elem_of_fmap in Hin as (e & -> & He).
  apply list_elem_of_fmap. exists e. split; [reflexivity|].
  exact (delitem_entry _ _ _ He).
Qed.

Lemma entry_value {V : Type} (k : Z) (v : V) (d : list (Z * V)) :
  (k, v) ∈ d -> v ∈ PyDict.values d.
Proof.
  intros Hin. unfold PyDict.values. apply list_elem_of_fmap.
  exists (k, v). auto.
Qed.

Lemma add_record_data (o : ref) (st : state) :
  data (snd (add_record o st))
  = PyDict.setitem (fst (add_record o st)) o (data st)
  /\ objects (snd (add_record o st))
     = write_id o (fst (add_record o st)) (objects st)
  /\ (forall k, k ∈ free_ids (snd (add_record o st)) -> k ∈ free_ids st)
  /\ next_id st <= next_id (snd (add_record o st))
  /\ (fst (add_record o st) ∈ free_ids st
      \/ next_id st <= fst (add_record o st)).
Proof.
  unfold add_record.
  pose proof (own_skip_used_ge (loop_fuel st) (data st) (free_ids st)
                               (next_id st)) as Hge.
  destruct (PersonalAssistant.set_min (free_ids st)) as [i|] eqn:Hmin;
    cbn [fst snd data objects next_id free_ids].
  - apply set_min_Some in Hmin as [Hi _].
    split; [reflexivity|]. split; [reflexivity|]. split.
    + intros k [Hk _]%elem_of_difference. exact Hk.
    + split; [exact Hge|left; exact Hi].
  - split; [reflexivity|]. split; [reflexivity|]. split; [auto|].
    split; [lia|right; exact Hge].
Qed.

Lemma add_record_labelled (o : ref) (st : state) :
  sound st -> labelled st -> filed o st = false ->
  labelled (snd (add_record o st)).
Proof.
  intros Hs [Hid Honce Hfree Hnext] Hnew.
  destruct (add_record_keeps_sound o st Hs) as [_ Hfresh].
  destruct (add_record_data o st) as (Hd & Ho & Hf & Hn & Hi).
  set (i := fst (add_record o st)) in *.
  assert (Hi1 : 1 <= i) by (destruct Hi as [Hi|Hi]; [exact (Hfree i Hi)|lia]).
  assert (Hout : o ∉ PyDict.values (data st)).
  { intros Hin. apply filed_spec in Hin. congruence. }
  split.
  - intros k o' Hin. rewrite Hd in Hin. rewrite Ho. unfold write_id.
    apply setitem_entry in Hin as [[= -> ->]|Hin].
    + rewrite fn_lookup_insert. split; [reflexivity|exact Hi1].
    + rewrite fn_lookup_insert_ne; [exact (Hid k o' Hin)|].
      intros ->. exact (Hout (entry_value _ _ _ Hin)).
  - rewrite Hd, values_snoc by exact Hfresh.
    unfold PyDict.values. rewrite map_app. simpl.
    apply NoDup_app. split; [exact Honce|]. split.
    + intros x Hx Hxo. apply list_elem_of_singleton in Hxo. subst x.
      exact (Hout Hx).
    + apply NoDup_singleton.
  - intros k Hk. exact (Hfree k (Hf k Hk)).
  - lia.
Qed.

Lemma delete_labelled (input : option Z) (st : state) :
  labelled st -> labelled (delete_record_by_id input st).
Proof.
  intros [Hid Honce Hfree Hnext].
  destruct input as [k|]; simpl; [|split; assumption].
  destruct (PyDict.contains k (data st)) eqn:Hk; [|split; assumption].
  apply contains_spec in Hk. split; simpl.
  - intros j o Hjo. apply Hid. exact (delitem_entry _ _ _ Hjo).
  - apply values_delitem, Honce.
  - intros j [Hj|Hj]%elem_of_union; [|auto].
    apply elem_of_singleton in Hj. subst.
    unfold PyDict.keys in Hk.
    apply list_elem_of_fmap in Hk as ([k' o] & -> & Hin).
    apply (Hid k' o Hin).
  - exact Hnext.
Qed.

Lemma play_labelled (actions : list action) (st : state) :
  sound st -> labelled st -> new_objects actions st = true ->
  sound (play actions st) /\ labelled (play actions st).
Proof.
  revert st. induction actions as [|a actions IH]; intros st Hs Hl Hnew;
    [auto|].
  simpl in Hnew. apply andb_prop in Hnew as [Ha Hrest].
  simpl. apply IH; [| |exact Hrest]; destruct a as [o|input]; simpl.
  - apply add_record_keeps_sound, Hs.
  - apply delete_keeps_sound, Hs.
  - apply add_record_labelled; [exact Hs|exact Hl|].
    apply negb_true_iff, Ha.
  - apply delete_labelled, Hl.
Qed.

(** X11: after every sequence of [add_record] and [delete_record_by_id]
    on a new book in which no [add_record] is given an object that is in
    the book already, each object in the book carries the key it is
    filed under as its [id], that identifier is a positive integer, and
    no object is filed under two keys. *)
Theorem record_id_is_its_key
        (objects0 : ref -> Record_) (actions : list action) :
  new_objects actions (init objects0) = true ->
  let st := play actions (init objects0) in
  (forall k o, (k, o) ∈ data st -> id (objects st o) = Some k /\ 1 <= k)
  /\ NoDup (PyDict.values (data st)).
Proof.
  intros Hnew st.
  destruct (play_labelled actions (init objects0)) as [_ [Hid Honce _ _]].
  - split; simpl; [constructor|]. intros k Hk. inversion Hk.
  - split; simpl.
    + intros k o Hko. inversion Hko.
    + constructor.
    + intros k Hk. apply elem_of_empty in Hk. contradiction.
    + lia.
  - exact Hnew.
  - split; [exact Hid|exact Honce].
Qed.

Lemma record_id_is_its_key_witness :
  let st := play [AddRecord 1%positive; AddRecord 2%positive; DeleteById (Some 1); AddRecord 1%positive]
                 (init (fun _ => Sample.jan)) in
  id (objects st 2%positive) = Some 2 /\ 1 <= 2.
Proof.
  intros st.
  apply (proj1 (record_id_is_its_key
                  (fun _ => Sample.jan)
                  [AddRecord 1%positive; AddRecord 2%positive; DeleteById (Some 1); AddRecord 1%positive]
                  eq_refl) 2 2%positive).
  apply list_elem_of_In. left. reflexivity.
Defined.

(** Without that condition the property fails: a record added twice is
    filed under two keys and carries the second one under both. *)
Lemma same_object_added_twice :
  let st := play [AddRecord 1%positive; AddRecord 1%positive] (init (fun _ => Sample.jan)) in
  new_objects [AddRecord 1%positive; AddRecord 1%positive] (init (fun _ => Sample.jan)) = false
  /\ data st = [(1, 1%positive); (2, 1%positive)]
  /\ record_at 1 st = Some (set_id 2 Sample.jan).
Proof. repeat split. Qed.

Lemma getitem_value {V : Type} (k : Z) (v : V) (d : list (Z * V)) :
  Lookup.getitem k d = Some v -> v ∈ PyDict.values d.
Proof.
  unfold PyDict.values. induction d as [|[k0 v0] d IH]; simpl; [discriminate|].
  destruct (decide (k0 = k)).
  - intros [= ->]. left.
  - intros Hg. right. exact (IH Hg).
Qed.

(** X12: in a sound book, an object that is not in the book is read
    back, once added, under the identifier it was given, with that
    identifier as its [id]; every other key reads as before; and
    deleting that identifier again gives back the mapping as it was,
    with the identifier now free and still written on the object. *)
Theorem add_record_round_trip (o : ref) (st : state) :
  sound st -> filed o st = false ->
  let i := fst (add_record o st) in
  let st' := snd (add_record o st) in
  let st'' := delete_record_by_id (Some i) st' in
  record_at i st' = Some (set_id i (objects st o))
  /\ (forall j, j <> i -> record_at j st' = record_at j st)
  /\ data st'' = data st
  /\ i ∈ free_ids st''
  /\ objects st'' = write_id o i (objects st).
Proof.
  intros Hs Hnew i st' st''.
  destruct (add_record_keeps_sound o st Hs) as [_ Hfresh]. fold i in Hfresh.
  destruct (add_record_data o st) as (Hd & Ho & _). fold i st' in Hd, Ho.
  assert (Hout : o ∉ PyDict.values (data st)).
  { intros Hin. apply filed_spec in Hin. congruence. }
  assert (Hc : PyDict.contains i (data st') = true)
    by (rewrite Hd; apply contains_setitem).
  assert (E : st'' = mkState (objects st') (PyDict.delitem i (data st'))
                             (next_id st') ({[i]} ∪ free_ids st'))
    by (unfold st''; simpl; rewrite Hc; reflexivity).
  split; [|split; [|split; [|split]]].
  - unfold record_at. rewrite Hd, getitem_setitem_eq, Ho.
    unfold write_id. rewrite fn_lookup_insert. reflexivity.
  - intros j Hj. unfold record_at.
    rewrite Hd, getitem_setitem_ne by exact Hj.
    destruct (Lookup.getitem j (data st)) as [o'|] eqn:Hg; [|reflexivity].
    rewrite Ho. unfold write_id. rewrite fn_lookup_insert_ne; [reflexivity|].
    intros ->. exact (Hout (getitem_value _ _ _ Hg)).
  - rewrite E. simpl. rewrite Hd, delitem_setitem.
    apply delitem_absent, Hfresh.
  - rewrite E. simpl. apply elem_of_union. left.
    apply elem_of_singleton. reflexivity.
  - rewrite E. simpl. exact Ho.
Qed.

Lemma add_record_round_trip_witness :
  let st := play [AddRecord 1%positive; AddRecord 2%positive; DeleteById (Some 1)]
                 (init (fun _ => Sample.jan)) in
  let i := fst (add_record 3%positive st) in
  let st' := snd (add_record 3%positive st) in
  let st'' := delete_record_by_id (Some i) st' in
  record_at i st' = Some (set_id i (objects st 3%positive))
  /\ (forall j, j <> i -> record_at j st' = record_at j st)
  /\ data st'' = data st
  /\ i ∈ free_ids st''
  /\ objects st'' = write_id 3%positive i (objects st).
Proof.
  intros st. apply (add_record_round_trip 3%positive st); [|reflexivity].
  split.
  - simpl. apply NoDup_singleton.
  - intros k Hk. apply list_elem_of_singleton in Hk. subst k.
    intros Hf. apply elem_of_union in Hf as [Hf|Hf].
    + apply elem_of_singleton in Hf. discriminate.
    + apply elem_of_empty in Hf. exact Hf.
Defined.

End SharedFacts.
